(** * NestJS module generator: a shallow embedding of [src/generate.js]

    The generator renders text templates with name-derived substitutions,
    applies a per-module exclusion table, derives an output path and
    writes the result unless the destination exists already.

    Conventions of the embedding:
    - a JavaScript string is a [string] of code units; the case mappings
      act on the ASCII letters and leave every other code unit alone;
    - a JavaScript object used as a dictionary is a [gmap] keyed by
      strings, except where [Object.entries] iterates it, where it is the
      list of its entries in iteration order;
    - code that touches the file system or the console runs in a small
      state-and-exception monad over a model of a POSIX file tree. *)

From Stdlib Require Import Ascii.
From stdpp Require Import gmap strings list fin_maps.

Local Open Scope string_scope.
Local Open Scope list_scope.

(** ** JavaScript strings *)

Module JsString.

Definition is_lower (c : ascii) : bool :=
  (97 <=? nat_of_ascii c)%nat && (nat_of_ascii c <=? 122)%nat.

Definition is_upper (c : ascii) : bool :=
  (65 <=? nat_of_ascii c)%nat && (nat_of_ascii c <=? 90)%nat.

(** The upper-case and lower-case mappings of the code units below 128,
    the ones [toUpperCase] and [toLowerCase] have there: a letter of [a-z]
    or [A-Z] goes to its counterpart, every other code unit stays.  Above
    127 the mappings of the language depend on Unicode's tables (a code
    unit can give two, or one outside this range); the statements about
    the case of letters are for strings of code units below 128, see
    [ascii_only]. *)
Definition upper_char (c : ascii) : ascii :=
  if is_lower c then ascii_of_nat (nat_of_ascii c - 32) else c.

Definition lower_char (c : ascii) : ascii :=
  if is_upper c then ascii_of_nat (nat_of_ascii c + 32) else c.

Fixpoint map_chars (f : ascii → ascii) (s : string) : string :=
  match s with
  | EmptyString => EmptyString
  | String c r => String (f c) (map_chars f r)
  end.

(** [s.toUpperCase()] and [s.toLowerCase()] *)
Definition toUpperCase (s : string) : string := map_chars upper_char s.
Definition toLowerCase (s : string) : string := map_chars lower_char s.

(** [s.charAt(0)]: the first code unit as a string, or the empty string *)
Definition charAt0 (s : string) : string :=
  match s with
  | EmptyString => EmptyString
  | String c _ => String c EmptyString
  end.

(** [s.slice(1)] *)
Definition slice1 (s : string) : string :=
  match s with
  | EmptyString => EmptyString
  | String _ r => r
  end.

(** [s.replace(/([a-z])([A-Z])/g, '$1' + sep + '$2')]: the scan resumes
    after the two code units of a match. *)
Fixpoint replace_case_boundary (sep : string) (s : string) : string :=
  match s with
  | EmptyString => EmptyString
  | String c1 r =>
      match r with
      | EmptyString => String c1 EmptyString
      | String c2 r' =>
          if is_lower c1 && is_upper c2
          then String c1 (sep +:+ String c2 (replace_case_boundary sep r'))
          else String c1 (replace_case_boundary sep r)
      end
  end.

End JsString.

Import JsString.

(** ** NameTransformer (generate.js, lines 43-57) *)

Definition toPascalCase (str : string) : string :=
  toUpperCase (charAt0 str) +:+ slice1 str.

Definition toCamelCase (str : string) : string :=
  toLowerCase (charAt0 str) +:+ slice1 str.

Definition toKebabCase (str : string) : string :=
  toLowerCase (replace_case_boundary "-" str).

Definition toSnakeCase (str : string) : string :=
  toLowerCase (replace_case_boundary "_" str).

(** ** [String.prototype.replace] with a pattern that matches a literal token

    The six placeholder patterns, built by [new RegExp(placeholder, 'g')]
    (line 86) or written [/{{moduleName}}/g] (line 120), contain no regular
    expression operator that applies: each matches its own text and has no
    capture group.  The replacement is a string, so the [$] patterns of
    [GetSubstitution] are expanded in it. *)

Module JsReplace.

(** [GetSubstitution] for a match without capture groups: [$$] is a
    dollar sign, [$&] the matched text, [$`] the text before the match,
    [$'] the text after it; any other [$] stands for itself. *)
Fixpoint get_substitution (matched before after : string) (repl : string)
  : string :=
  match repl with
  | EmptyString => EmptyString
  | String c r =>
      if Ascii.eqb c "$" then
        match r with
        | EmptyString => String c EmptyString
        | String d r' =>
            if Ascii.eqb d "$" then
              String "$" (get_substitution matched before after r')
            else if Ascii.eqb d "&" then
              matched +:+ get_substitution matched before after r'
            else if Ascii.eqb d "`" then
              before +:+ get_substitution matched before after r'
            else if Ascii.eqb d "'" then
              after +:+ get_substitution matched before after r'
            else String c (get_substitution matched before after r)
        end
      else String c (get_substitution matched before after r)
  end.

Fixpoint drop_chars (n : nat) (s : string) : string :=
  match n, s with
  | S k, String _ r => drop_chars k r
  | _, _ => s
  end.

(** The global scan.  [before] is the part of the subject already passed,
    [skip] the number of code units of the last match still to pass: the
    search for the next match resumes where the last one ended.  The
    token is never empty. *)
Fixpoint replace_from (tok repl : string) (before : string) (skip : nat)
  (s : string) : string :=
  match s with
  | EmptyString => EmptyString
  | String c r =>
      match skip with
      | S k => replace_from tok repl (before +:+ String c EmptyString) k r
      | O =>
          if String.prefix tok s then
            get_substitution tok before (drop_chars (String.length tok) s) repl
            +:+ replace_from tok repl (before +:+ String c EmptyString)
                  (String.length tok - 1) r
          else
            String c (replace_from tok repl (before +:+ String c EmptyString) 0 r)
      end
  end.

(** [s.replace(new RegExp(tok, 'g'), repl)] *)
Definition replace_all (tok repl : string) (s : string) : string :=
  replace_from tok repl EmptyString 0 s.

End JsReplace.

Import JsReplace.

(** ** PlaceholderRenderer (generate.js, lines 76-87) *)

Inductive placeholder : Type :=
  | P_moduleName | P_ModuleName | P_module_name
  | P_module_kebab | P_camelModuleName | P_MODULE_NAME.

Definition token (p : placeholder) : string :=
  match p with
  | P_moduleName => "{{moduleName}}"
  | P_ModuleName => "{{ModuleName}}"
  | P_module_name => "{{module_name}}"
  | P_module_kebab => "{{module-name}}"
  | P_camelModuleName => "{{camelModuleName}}"
  | P_MODULE_NAME => "{{MODULE_NAME}}"
  end.

Definition variant (p : placeholder) (moduleName : string) : string :=
  match p with
  | P_moduleName => moduleName
  | P_ModuleName => toPascalCase moduleName
  | P_module_name => toSnakeCase moduleName
  | P_module_kebab => toKebabCase moduleName
  | P_camelModuleName => toCamelCase moduleName
  | P_MODULE_NAME => toUpperCase moduleName
  end.

(** The keys of the [replacements] object in the order of [Object.entries] *)
Definition placeholders : list placeholder :=
  [P_moduleName; P_ModuleName; P_module_name;
   P_module_kebab; P_camelModuleName; P_MODULE_NAME].

Definition replacements (moduleName : string) : list (string * string) :=
  (λ p, (token p, variant p moduleName)) <$> placeholders.

(** The [forEach] of lines 85-87: one global replacement per entry *)
Definition render (content moduleName : string) : string :=
  foldl (λ acc entry, replace_all entry.1 entry.2 acc)
        content (replacements moduleName).

(** ** Node's [path.join] on POSIX *)

Module Path.

(** The segments of [s] between slashes; empty segments are kept. *)
Fixpoint split_slash (s : string) : list string :=
  match s with
  | EmptyString => [EmptyString]
  | String c r =>
      if Ascii.eqb c "/" then EmptyString :: split_slash r
      else match split_slash r with
           | seg :: segs => String c seg :: segs
           | [] => [String c EmptyString]
           end
  end.

Fixpoint join_slash (segs : list string) : string :=
  match segs with
  | [] => EmptyString
  | [seg] => seg
  | seg :: rest => seg +:+ "/" +:+ join_slash rest
  end.

(** [normalizeString]: empty and [.] segments vanish, [..] removes the
    segment before it; above the start it is kept when [allowAboveRoot]
    and dropped otherwise.  [stack] holds the result so far, last
    segment first. *)
Fixpoint normalize_segments (allowAboveRoot : bool) (stack : list string)
  (segs : list string) : list string :=
  match segs with
  | [] => rev stack
  | seg :: rest =>
      if String.eqb seg "" || String.eqb seg "." then
        normalize_segments allowAboveRoot stack rest
      else if String.eqb seg ".." then
        match stack with
        | top :: below =>
            if String.eqb top ".." then
              normalize_segments allowAboveRoot
                (if allowAboveRoot then seg :: stack else stack) rest
            else normalize_segments allowAboveRoot below rest
        | [] =>
            normalize_segments allowAboveRoot
              (if allowAboveRoot then [seg] else []) rest
        end
      else normalize_segments allowAboveRoot (seg :: stack) rest
  end.

Definition is_absolute (p : string) : bool := String.prefix "/" p.

Fixpoint ends_with_slash (p : string) : bool :=
  match p with
  | EmptyString => false
  | String c EmptyString => Ascii.eqb c "/"
  | String _ r => ends_with_slash r
  end.

(** [path.normalize] *)
Definition normalize (p : string) : string :=
  if String.eqb p "" then "."
  else
    let body :=
      join_slash (normalize_segments (negb (is_absolute p)) [] (split_slash p)) in
    if String.eqb body "" then
      if is_absolute p then "/"
      else if ends_with_slash p then "./" else "."
    else
      (if is_absolute p then "/" else "")
      +:+ body +:+ (if ends_with_slash p then "/" else "").

(** [path.join(...args)]: the non-empty arguments joined by a slash,
    then normalized; ["."] when there is none. *)
Definition join (args : list string) : string :=
  match filter (λ a, a ≠ "") args with
  | [] => "."
  | parts => normalize (join_slash parts)
  end.

End Path.

(** ** The file system

    A tree of regular files and directories, kept as a finite map from
    absolute paths (lists of segments below the root) to nodes.  Paths are
    resolved lexically against the working directory; there are no
    symbolic links. *)

Module Fs.

Inductive node : Type :=
  | File (content : string)
  | Dir.

Inductive errno : Type := ENOENT | EISDIR | ENOTDIR | EEXIST.

Record t : Type := mk {
  cwd : list string;
  nodes : gmap (list string) node
}.

Definition with_nodes (fs : t) (ns : gmap (list string) node) : t :=
  {| cwd := cwd fs; nodes := ns |}.

(** The node a path names.  A [..] cancels the segment before it without
    a look at that segment, and a slash at the end is dropped: a path
    through a missing directory and back, or the path of a regular file
    with a slash at its end, names here what it names without the detour
    or the slash, where the system's own lookup fails.  Existence and the
    success of a call, as the statements assume them, are taken in this
    sense. *)
Definition resolve (fs : t) (p : string) : list string :=
  Path.normalize_segments false []
    ((if Path.is_absolute p then [] else cwd fs) ++ Path.split_slash p).

(** The root always exists. *)
Definition node_at (ns : gmap (list string) node) (p : list string)
  : option node :=
  match p with
  | [] => Some Dir
  | _ => ns !! p
  end.

(** [fs.existsSync]: no path is the empty string. *)
Definition exists_ (fs : t) (p : string) : bool :=
  if String.eqb p "" then false
  else bool_decide (is_Some (node_at (nodes fs) (resolve fs p))).

(** [fs.readFileSync(p, 'utf-8')] *)
Definition read_file (fs : t) (p : string) : errno + string :=
  if String.eqb p "" then inl ENOENT
  else match node_at (nodes fs) (resolve fs p) with
       | Some (File c) => inr c
       | Some Dir => inl EISDIR
       | None => inl ENOENT
       end.

(** [fs.mkdirSync(p, { recursive: true })]: the missing directories on
    the way are created one by one, from the root down; the ones made
    before a failure stay. *)
Fixpoint mkdir_from (ns : gmap (list string) node) (made todo : list string)
  : option errno * gmap (list string) node :=
  match todo with
  | [] => (None, ns)
  | seg :: rest =>
      let here := made ++ [seg] in
      match node_at ns here with
      | Some Dir => mkdir_from ns here rest
      | Some (File _) =>
          (Some (match rest with [] => EEXIST | _ => ENOTDIR end), ns)
      | None => mkdir_from (<[here := Dir]> ns) here rest
      end
  end.

Definition mkdir_p (fs : t) (p : string) : option errno * t :=
  if String.eqb p "" then (Some ENOENT, fs)
  else
    let r := mkdir_from (nodes fs) [] (resolve fs p) in
    (r.1, with_nodes fs r.2).

Definition parent (p : list string) : list string := removelast p.

(** [fs.writeFileSync(p, content, 'utf-8')] *)
Definition write_file (fs : t) (p content : string) : option errno * t :=
  if String.eqb p "" then (Some ENOENT, fs)
  else
    let target := resolve fs p in
    match node_at (nodes fs) target with
    | Some Dir => (Some EISDIR, fs)
    | _ =>
        match node_at (nodes fs) (parent target) with
        | None => (Some ENOENT, fs)
        | Some (File _) => (Some ENOTDIR, fs)
        | Some Dir => (None, with_nodes fs (<[target := File content]> (nodes fs)))
        end
    end.

End Fs.

(** ** Effects: file-system calls, console output, exceptions *)

Inductive js_error : Type :=
  | TemplateNotFound (templatePath : string)
      (* new Error(`Template not found: ${templatePath}`) *)
  | FsError (code : Fs.errno) (syscall path : string)
      (* the error of a failed [fs] call, as in "ENOENT: ..., open 'path'" *)
  | ModuleError (message : string)
      (* whatever [require] throws while loading a module *)
  | TypeError (message : string).
      (* a call of something that is not a function *)

Inductive fs_event : Type :=
  | EvExists (path : string)
  | EvReadFile (path : string)
  | EvMkdir (path : string)
  | EvWriteFile (path content : string).

Inductive console_line : Type :=
  | LogSkipExcluded (templateName moduleName : string)
  | LogSkipExists (templateName fullPath : string)
  | LogGenerated (fullPath : string)
  | ErrGenerating (templateName : string) (error : js_error)
  | LogGeneratingModule (moduleName : string)
  | ErrTemplatesDirNotFound (templatesDir : string)
  | LogLoadedConfig (configPath : string)
  | WarnConfigNotLoaded (error : js_error).

Record World : Type := mkWorld {
  w_fs : Fs.t;
  w_trace : list fs_event;
  w_console : list console_line
}.

Inductive result (A : Type) : Type :=
  | Ok (a : A)
  | Throw (e : js_error).
Arguments Ok {A} a.
Arguments Throw {A} e.

Definition M (A : Type) : Type := World → result A * World.

#[global] Instance M_ret : MRet M := λ A a w, (Ok a, w).

#[global] Instance M_bind : MBind M := λ A B k m w,
  match m w with
  | (Ok a, w') => k a w'
  | (Throw e, w') => (Throw e, w')
  end.

Definition throw {A} (e : js_error) : M A := λ w, (Throw e, w).

(** A call that touches nothing and returns or throws *)
Definition returning {A} (r : result A) : M A := λ w, (r, w).

(** [try { body } catch (error) { handler }] *)
Definition try_catch {A} (body : M A) (handler : js_error → M A) : M A :=
  λ w, match body w with
       | (Ok a, w') => (Ok a, w')
       | (Throw e, w') => handler e w'
       end.

Definition traced (e : fs_event) (w : World) : World :=
  mkWorld (w_fs w) (w_trace w ++ [e]) (w_console w).

Definition with_fs (fs : Fs.t) (w : World) : World :=
  mkWorld fs (w_trace w) (w_console w).

(** [console.log], [console.error] and [console.warn] *)
Definition console (l : console_line) : M unit :=
  λ w, (Ok tt, mkWorld (w_fs w) (w_trace w) (w_console w ++ [l])).

Definition existsSync (p : string) : M bool :=
  λ w, (Ok (Fs.exists_ (w_fs w) p), traced (EvExists p) w).

Definition readFileSync (p : string) : M string :=
  λ w, (match Fs.read_file (w_fs w) p with
        | inr c => Ok c
        | inl Fs.EISDIR => Throw (FsError Fs.EISDIR "read" p)
        | inl code => Throw (FsError code "open" p)
        end,
        traced (EvReadFile p) w).

Definition mkdirSync (p : string) : M unit :=
  λ w, let r := Fs.mkdir_p (w_fs w) p in
       (match r.1 with
        | None => Ok tt
        | Some code => Throw (FsError code "mkdir" p)
        end,
        with_fs r.2 (traced (EvMkdir p) w)).

Definition writeFileSync (p content : string) : M unit :=
  λ w, let r := Fs.write_file (w_fs w) p content in
       (match r.1 with
        | None => Ok tt
        | Some code => Throw (FsError code "open" p)
        end,
        with_fs r.2 (traced (EvWriteFile p content) w)).

(** ** Configuration (generate.js, lines 8-39 and 169-179) *)

Record TemplateConfig : Type := mkTemplateConfig {
  extension : string;
  required : bool;
  outputPath : option string;
  filename : option string
}.

(** The values stored under the top-level keys of a configuration object *)
Inductive config_value : Type :=
  | VString (s : string)
  | VTemplates (entries : list (string * TemplateConfig))
  | VExclusions (table : gmap string (list string))
  | VNames (names : list string).

(** [this.config] as the generator reads it.  [templates] is the list that
    [Object.entries] yields. *)
Record Config : Type := mkConfig {
  templatesDir : string;
  outputDir : string;
  templates : list (string * TemplateConfig);
  exclusions : gmap string (list string)
}.

Definition default_templates : list (string * TemplateConfig) :=
  [ ("module", mkTemplateConfig "module.ts" true None None);
    ("controller", mkTemplateConfig "controller.ts" true None None);
    ("service", mkTemplateConfig "service.ts" true None None);
    ("create-dto", mkTemplateConfig "dto.ts" false (Some "dto")
                     (Some "create-{{moduleName}}.dto.ts"));
    ("update-dto", mkTemplateConfig "dto.ts" false (Some "dto")
                     (Some "update-{{moduleName}}.dto.ts"));
    ("schema", mkTemplateConfig "schema.ts" false (Some "schema")
                     (Some "{{moduleName}}.schema.ts")) ].

Definition default_exclusions : gmap string (list string) :=
  <["create-dto" := ["auth"; "payments"]]>
    (<["update-dto" := ["auth"; "payments"]]>
       (<["schema" := ["auth"; "sidebar"]]> ∅)).

(** The object literal of the constructor *)
Definition default_config_object : gmap string config_value :=
  <["templatesDir" := VString "./templates"]>
    (<["outputDir" := VString "./src/modules"]>
       (<["templates" := VTemplates default_templates]>
          (<["exclusions" := VExclusions default_exclusions]> ∅))).

(** The four properties the generator reads from [this.config] *)
Definition read_config (o : gmap string config_value) : option Config :=
  match o !! "templatesDir", o !! "outputDir",
        o !! "templates", o !! "exclusions" with
  | Some (VString td), Some (VString od),
    Some (VTemplates ts), Some (VExclusions ex) => Some (mkConfig td od ts ex)
  | _, _, _, _ => None
  end.

Definition default_config : Config :=
  mkConfig "./templates" "./src/modules" default_templates default_exclusions.

(** [{ ...config, ...userConfig }]: every own key of [userConfig] is copied
    over the copy of [config]. *)
Definition spread (config userConfig : gmap string config_value)
  : gmap string config_value :=
  userConfig ∪ config.

(** [loadConfig(configPath)].  [loaded] is what [require] does with the
    file: it returns the module's exports or throws. *)
Definition loadConfig (config : gmap string config_value) (configPath : string)
  (loaded : js_error + gmap string config_value)
  : M (gmap string config_value) :=
  found ← existsSync configPath;
  if found : bool then
    match loaded with
    | inr userConfig =>
        console (LogLoadedConfig configPath);;
        mret (spread config userConfig)
    | inl error =>
        console (WarnConfigNotLoaded error);;
        mret config
    end
  else mret config.

(** ** ExclusionPolicy (generate.js, lines 60-63) *)

Inductive js_value : Type :=
  | JsUndefined
  | JsBool (b : bool).

Definition to_boolean (v : js_value) : bool :=
  match v with
  | JsUndefined => false
  | JsBool b => b
  end.

(** The names of the properties of [Object.prototype], which every object
    written as a literal inherits *)
Definition object_prototype_keys : list string :=
  [ "constructor"; "__defineGetter__"; "__defineSetter__"; "hasOwnProperty";
    "__lookupGetter__"; "__lookupSetter__"; "isPrototypeOf";
    "propertyIsEnumerable"; "toString"; "valueOf"; "__proto__";
    "toLocaleString" ].

(** What [exclusions[templateName]] gives: the array of an own entry, a
    function or object of [Object.prototype] for an inherited name, or
    [undefined] *)
Inductive property : Type :=
  | OwnArray (excludeList : list string)
  | FromPrototype
  | Absent.

Definition get_property (table : gmap string (list string)) (key : string)
  : property :=
  match table !! key with
  | Some excludeList => OwnArray excludeList
  | None =>
      if bool_decide (key ∈ object_prototype_keys) then FromPrototype
      else Absent
  end.

(** [excludeList && excludeList.includes(moduleName)]: an array is truthy
    even when empty; a missing entry is [undefined], which is returned; an
    inherited function or object is truthy and has no [includes], so the
    call throws. *)
Definition shouldExclude (cfg : Config) (moduleName templateName : string)
  : result js_value :=
  match get_property (exclusions cfg) templateName with
  | Absent => Ok JsUndefined
  | OwnArray excludeList =>
      Ok (JsBool (existsb (String.eqb moduleName) excludeList))
  | FromPrototype => Throw (TypeError "excludeList.includes is not a function")
  end.

(** The unit does not get past line 94: the test is true, or
    [shouldExclude] throws and the test has no value.
    [excluded cfg m t = false] says that the test of line 94 is false. *)
Definition excluded (cfg : Config) (moduleName templateName : string) : bool :=
  match shouldExclude cfg moduleName templateName with
  | Ok v => to_boolean v
  | Throw _ => true
  end.

(** ** GenerationEngine (generate.js, lines 66-166) *)

(** Line 67 *)
Definition template_path (cfg : Config) (templateName : string) : string :=
  Path.join [templatesDir cfg; templateName +:+ ".stub"].

Definition processTemplate (cfg : Config) (templateName moduleName : string)
  : M string :=
  let templatePath := template_path cfg templateName in
  found ← existsSync templatePath;
  if negb found then throw (TemplateNotFound templatePath)
  else
    content ← readFileSync templatePath;
    mret (render content moduleName).

(** A string property is truthy when present and not empty. *)
Definition truthy (o : option string) : bool :=
  match o with
  | Some s => negb (String.eqb s "")
  | None => false
  end.

(** Lines 102-112.  [path.join] is not called with a missing or empty
    subdirectory. *)
Definition output_path (cfg : Config) (moduleName : string)
  (templateConfig : TemplateConfig) : string :=
  if truthy (outputPath templateConfig)
  then Path.join [outputDir cfg; moduleName;
                  default "" (outputPath templateConfig)]
  else Path.join [outputDir cfg; moduleName].

(** Lines 117-123 *)
Definition output_filename (moduleName : string)
  (templateConfig : TemplateConfig) : string :=
  if truthy (filename templateConfig)
  then replace_all "{{moduleName}}" moduleName
         (default "" (filename templateConfig))
  else moduleName +:+ "." +:+ extension templateConfig.

(** Line 125 *)
Definition full_path (cfg : Config) (moduleName : string)
  (templateConfig : TemplateConfig) : string :=
  Path.join [output_path cfg moduleName templateConfig;
             output_filename moduleName templateConfig].

(** The [try] block of [generateFile], lines 100-135 *)
Definition generateFile_try (cfg : Config) (moduleName templateName : string)
  (templateConfig : TemplateConfig) : M unit :=
  content ← processTemplate cfg templateName moduleName;
  mkdirSync (output_path cfg moduleName templateConfig);;
  let fullPath := full_path cfg moduleName templateConfig in
  present ← existsSync fullPath;
  if present : bool then
    console (LogSkipExists templateName fullPath)
  else
    writeFileSync fullPath content;;
    console (LogGenerated fullPath).

Definition generateFile (cfg : Config) (moduleName templateName : string)
  (templateConfig : TemplateConfig) : M unit :=
  skip ← returning (shouldExclude cfg moduleName templateName);
  if to_boolean skip then
    console (LogSkipExcluded templateName moduleName)
  else
    try_catch
      (generateFile_try cfg moduleName templateName templateConfig)
      (λ error, console (ErrGenerating templateName error)).

(** [array.forEach(f)] *)
Fixpoint for_each {A} (f : A → M unit) (l : list A) : M unit :=
  match l with
  | [] => mret tt
  | x :: rest => f x;; for_each f rest
  end.

Definition generateModule (cfg : Config) (moduleName : string) : M unit :=
  console (LogGeneratingModule moduleName);;
  for_each (λ entry, generateFile cfg moduleName entry.1 entry.2)
           (templates cfg).

(** The argument of [generateModules]: an array of names, or one name *)
Inductive module_names : Type :=
  | Names (l : list string)
  | OneName (s : string).

(** How a call ends: it returns, or [process.exit(code)] ends the process. *)
Inductive completion : Type :=
  | Returned
  | Exited (code : nat).

Definition generateModules (cfg : Config) (moduleNames : module_names)
  : M completion :=
  let moduleNames :=
    match moduleNames with
    | Names l => l
    | OneName s => [s]
    end in
  found ← existsSync (templatesDir cfg);
  if negb found then
    console (ErrTemplatesDirNotFound (templatesDir cfg));;
    mret (Exited 1)
  else
    for_each (generateModule cfg) moduleNames;;
    mret Returned.

(** ** Generation outcomes, as the console reports them *)

Inductive outcome : Type :=
  | Generated (path : string)
  | SkippedExcluded
  | SkippedExists (path : string)
  | Failed (reason : js_error).

Definition outcome_of (l : console_line) : option outcome :=
  match l with
  | LogGenerated p => Some (Generated p)
  | LogSkipExcluded _ _ => Some SkippedExcluded
  | LogSkipExists _ p => Some (SkippedExists p)
  | ErrGenerating _ e => Some (Failed e)
  | _ => None
  end.

Definition outcomes (lines : list console_line) : list outcome :=
  omap outcome_of lines.

(** A world with nothing logged yet *)
Definition fresh (fs : Fs.t) : World := mkWorld fs [] [].

(** The world a computation leaves, however it ends *)
Definition after {A} (m : M A) (w : World) : World := (m w).2.

Definition logged (l : console_line) (w : World) : World :=
  mkWorld (w_fs w) (w_trace w) (w_console w ++ [l]).

(** ** Predicates used in the statements *)

(** No upper-case letter occurs in [s]. *)
Fixpoint no_upper (s : string) : bool :=
  match s with
  | EmptyString => true
  | String c r => negb (is_upper c) && no_upper r
  end.

(** Every code unit of [s] is below 128. *)
Fixpoint ascii_only (s : string) : bool :=
  match s with
  | EmptyString => true
  | String c r => (nat_of_ascii c <? 128)%nat && ascii_only r
  end.

(** The exclusion table has an own entry for [templateName], or the name
    is not one that the table inherits: [shouldExclude] returns. *)
Definition plain_key (cfg : Config) (templateName : string) : bool :=
  match get_property (exclusions cfg) templateName with
  | FromPrototype => false
  | _ => true
  end.

(** [plain_key] for every template of the configuration *)
Definition plain_keys (cfg : Config) : bool :=
  forallb (λ entry : string * TemplateConfig, plain_key cfg entry.1)
          (templates cfg).

(** The code unit [c] does not occur in [s]. *)
Fixpoint char_free (c : ascii) (s : string) : bool :=
  match s with
  | EmptyString => true
  | String d r => negb (Ascii.eqb d c) && char_free c r
  end.

(** Every opening brace of [s] is followed in [s] by something else than
    an opening brace. *)
Fixpoint brace_safe (s : string) : bool :=
  match s with
  | EmptyString => true
  | String c r =>
      (if Ascii.eqb c "{" then
         match r with
         | EmptyString => false
         | String d _ => negb (Ascii.eqb d "{")
         end
       else true)
      && brace_safe r
  end.

(** Every node on the way from [made] down [todo] is a directory. *)
Definition dirs_along (ns : gmap (list string) Fs.node)
  (made todo : list string) : Prop :=
  ∀ q1 q2, todo = q1 ++ q2 → q1 ≠ [] → ns !! (made ++ q1) = Some Fs.Dir.

(** A segment that names an entry: not empty, not [.] or [..], no slash *)
Definition proper (seg : string) : bool :=
  negb (String.eqb seg "") && negb (String.eqb seg ".")
  && negb (String.eqb seg "..") && char_free "/" seg.

(** A stack of [normalize_segments], last segment first: proper segments
    above a run of [..], the run being empty unless paths above the start
    are allowed. *)
Fixpoint normal_stack (allowAboveRoot : bool) (stack : list string) : bool :=
  match stack with
  | [] => true
  | top :: below =>
      if String.eqb top ".."
      then allowAboveRoot && forallb (String.eqb "..") below
      else proper top && normal_stack allowAboveRoot below
  end.

(** ** Templates as sequences of plain text and placeholders *)

Inductive piece : Type :=
  | Text (s : string)
  | Hole (p : placeholder).

(** The text of a template whose holes are spelled by [fill] *)
Fixpoint assemble (fill : placeholder → string) (pieces : list piece)
  : string :=
  match pieces with
  | [] => EmptyString
  | Text s :: rest => s +:+ assemble fill rest
  | Hole p :: rest => fill p +:+ assemble fill rest
  end.

(** The plain text of a template has no two opening braces in a row and
    does not end with one. *)
Definition plain (pc : piece) : bool :=
  match pc with
  | Text s => brace_safe s
  | Hole _ => true
  end.

#[global] Instance placeholder_eq_dec : EqDecision placeholder.
Proof. solve_decision. Defined.

(** [fill] with the hole [q] spelled [v] *)
Definition fill_with (q : placeholder) (v : string)
  (fill : placeholder → string) (p : placeholder) : string :=
  if decide (p = q) then v else fill p.

(** The six forms of the module name [userProfile] *)
Definition userProfile_forms (p : placeholder) : string :=
  match p with
  | P_moduleName => "userProfile"
  | P_ModuleName => "UserProfile"
  | P_camelModuleName => "userProfile"
  | P_module_kebab => "user-profile"
  | P_module_name => "user_profile"
  | P_MODULE_NAME => "USERPROFILE"
  end.

(** ** Inputs used in examples *)

(** A template store with two bodies and a configuration file, seen from
    the working directory [/home/app] *)
Definition example_fs : Fs.t :=
  Fs.mk ["home"; "app"]
    (<[["home"] := Fs.Dir]>
       (<[["home"; "app"] := Fs.Dir]>
          (<[["home"; "app"; "templates"] := Fs.Dir]>
             (<[["home"; "app"; "templates"; "module.stub"] :=
                  Fs.File "export class {{ModuleName}}Module {}"]>
                (<[["home"; "app"; "templates"; "schema.stub"] :=
                     Fs.File "collection: '{{module-name}}'"]>
                   (<[["home"; "app"; "generator.config.js"] :=
                        Fs.File "module.exports = { exclusions: { schema: [] } };"]>
                      ∅)))))).

(** The same tree after an earlier run for the module [users] *)
Definition example_fs_rerun : Fs.t :=
  Fs.mk ["home"; "app"]
    (<[["home"; "app"; "src"] := Fs.Dir]>
       (<[["home"; "app"; "src"; "modules"] := Fs.Dir]>
          (<[["home"; "app"; "src"; "modules"; "users"] := Fs.Dir]>
             (<[["home"; "app"; "src"; "modules"; "users"; "users.module.ts"] :=
                  Fs.File "export class UsersModule { /* edited */ }"]>
                (<[["home"; "app"; "src"; "modules"; "users"; "users.controller.ts"] :=
                     Fs.File "export class UsersController {}"]>
                   (Fs.nodes example_fs)))))).

(** The first tree with a regular file where the output directory would go *)
Definition example_fs_blocked : Fs.t :=
  Fs.mk ["home"; "app"]
    (<[["home"; "app"; "src"] := Fs.File "not a directory"]>
       (Fs.nodes example_fs)).

(** A template store with a body for each of the six built-in templates *)
Definition example_fs_store : Fs.t :=
  Fs.mk []
    (<[["templates"] := Fs.Dir]>
       (<[["templates"; "module.stub"] := Fs.File "{{ModuleName}}Module"]>
          (<[["templates"; "controller.stub"] := Fs.File "{{ModuleName}}Controller"]>
             (<[["templates"; "service.stub"] := Fs.File "{{ModuleName}}Service"]>
                (<[["templates"; "create-dto.stub"] := Fs.File "Create{{ModuleName}}Dto"]>
                   (<[["templates"; "update-dto.stub"] := Fs.File "Update{{ModuleName}}Dto"]>
                      (<[["templates"; "schema.stub"] := Fs.File "{{ModuleName}}Schema"]>
                         ∅))))))).

Definition module_template : TemplateConfig :=
  mkTemplateConfig "module.ts" true None None.

Definition controller_template : TemplateConfig :=
  mkTemplateConfig "controller.ts" true None None.

Definition schema_template : TemplateConfig :=
  mkTemplateConfig "schema.ts" false (Some "schema")
    (Some "{{moduleName}}.schema.ts").

Definition create_dto_template : TemplateConfig :=
  mkTemplateConfig "dto.ts" false (Some "dto")
    (Some "create-{{moduleName}}.dto.ts").

(** A descriptor whose file name uses the Pascal-case placeholder *)
Definition entity_template : TemplateConfig :=
  mkTemplateConfig "entity.ts" false (Some "entities")
    (Some "{{ModuleName}}.entity.ts").

(** A descriptor whose file name has a directory part *)
Definition nested_template : TemplateConfig :=
  mkTemplateConfig "ts" false None (Some "extra/{{moduleName}}.ts").

(** The built-in configuration with one more template, called
    [constructor] *)
Definition example_config_constructor : Config :=
  mkConfig "./templates" "./src/modules"
    (default_templates ++ [("constructor", mkTemplateConfig "ts" false None None)])
    default_exclusions.

(** What [require] returns for the configuration file of [example_fs] *)
Definition example_user_config : gmap string config_value :=
  <["exclusions" := VExclusions (<["schema" := []]> ∅)]> ∅.

(** A template with every placeholder, some of them twice *)
Definition example_template : list piece :=
  [ Text "import { "; Hole P_ModuleName; Text "Service } from './";
    Hole P_module_kebab; Text ".service'; // "; Hole P_moduleName;
    Text " "; Hole P_module_name; Text " "; Hole P_camelModuleName;
    Text " "; Hole P_MODULE_NAME; Text " "; Hole P_ModuleName;
    Hole P_moduleName ].

(** ** Further predicates *)

(** The token [tok] occurs somewhere in [s]. *)
Fixpoint occurs (tok s : string) : bool :=
  String.prefix tok s
  || match s with
     | EmptyString => false
     | String _ r => occurs tok r
     end.

(** [fs'] has the working directory of [fs] and every node of [fs], as it
    is in [fs]. *)
Definition extends (fs fs' : Fs.t) : Prop :=
  Fs.cwd fs' = Fs.cwd fs ∧ Fs.nodes fs ⊆ Fs.nodes fs'.

(** The computation only adds to the tree, however it ends. *)
Definition grows {A} (m : M A) : Prop :=
  ∀ w, extends (w_fs w) (w_fs (after m w)).

(** A template text with placeholders that are not recognized *)
Definition example_unrecognized : string :=
  "Hello {{foo}}, {{ moduleName }}, {moduleName} and {{Module_Name}}".

(** ** The command line (generate.js, lines 181-506)

    [initTemplates], [showHelp] and [main] print lines of their own.  A
    session is a world whose console holds these lines as well, in the
    order in which everything was printed. *)

Inductive cli_line : Type :=
  | Engine (l : console_line)
  | LogCreatedTemplatesDir (templatesDir : string)
  | LogCreatedTemplate (filePath : string)
  | LogHelp
      (* the text of [showHelp] *)
  | ErrNoModuleNames.
      (* 'Error: Please provide module name(s)' *)

Record Session : Type := mkSession {
  s_fs : Fs.t;
  s_trace : list fs_event;
  s_console : list cli_line
}.

Definition C (A : Type) : Type := Session → result A * Session.

#[global] Instance C_ret : MRet C := λ A a s, (Ok a, s).

#[global] Instance C_bind : MBind C := λ A B k m s,
  match m s with
  | (Ok a, s') => k a s'
  | (Throw e, s') => (Throw e, s')
  end.

(** A computation of the engine inside a session.  The engine only appends
    to the console, so it is run on an empty one and what it printed is
    appended to the session's. *)
Definition lift {A} (m : M A) : C A :=
  λ s, let r := m (mkWorld (s_fs s) (s_trace s) []) in
       (r.1, mkSession (w_fs r.2) (w_trace r.2)
               (s_console s ++ (Engine <$> w_console r.2))).

Definition say (l : cli_line) : C unit :=
  λ s, (Ok tt, mkSession (s_fs s) (s_trace s) (s_console s ++ [l])).

Fixpoint c_for_each {A} (f : A → C unit) (l : list A) : C unit :=
  match l with
  | [] => mret tt
  | x :: rest => f x;; c_for_each f rest
  end.

(** The session a computation leaves, however it ends *)
Definition after_c {A} (m : C A) (s : Session) : Session := (m s).2.

Definition start (fs : Fs.t) : Session := mkSession fs [] [].

(** The body of [module.stub] *)
Definition module_stub : string :=
"import { Module } from '@nestjs/common';
import { {{ModuleName}}Controller } from './{{moduleName}}.controller';
import { {{ModuleName}}Service } from './{{moduleName}}.service';

@Module({
  controllers: [{{ModuleName}}Controller],
  providers: [{{ModuleName}}Service],
  exports: [{{ModuleName}}Service],
})
export class {{ModuleName}}Module {}".

(** The body of [controller.stub] *)
Definition controller_stub : string :=
"import { 
  Controller, 
  Get, 
  Post, 
  Body, 
  Patch, 
  Param, 
  Delete, 
  Query,
  ParseIntPipe,
  DefaultValuePipe,
  HttpCode,
  HttpStatus
} from '@nestjs/common';
import { {{ModuleName}}Service } from './{{moduleName}}.service';
import { Create{{ModuleName}}Dto } from './dto/create-{{moduleName}}.dto';
import { Update{{ModuleName}}Dto } from './dto/update-{{moduleName}}.dto';

@Controller('{{module-name}}')
export class {{ModuleName}}Controller {
  constructor(private readonly {{camelModuleName}}Service: {{ModuleName}}Service) {}

  @Post()
  @HttpCode(HttpStatus.CREATED)
  create(@Body() create{{ModuleName}}Dto: Create{{ModuleName}}Dto) {
    return this.{{camelModuleName}}Service.create(create{{ModuleName}}Dto);
  }

  @Get()
  findAll() {
    return this.{{camelModuleName}}Service.findAll();
  }

  @Get('count')
  count(@Query('search') search?: string) {
    return this.{{camelModuleName}}Service.count(search);
  }

  @Get('search')
  searchByName(@Query('name') name: string) {
    return this.{{camelModuleName}}Service.findByName(name);
  }

  @Get(':id')
  findOne(@Param('id') id: string) {
    return this.{{camelModuleName}}Service.findOne(id);
  }

  @Get(':id/exists')
  exists(@Param('id') id: string) {
    return this.{{camelModuleName}}Service.exists(id);
  }

  @Patch(':id')
  update(
    @Param('id') id: string, 
    @Body() update{{ModuleName}}Dto: Update{{ModuleName}}Dto
  ) {
    return this.{{camelModuleName}}Service.update(id, update{{ModuleName}}Dto);
  }

  @Delete(':id')
  @HttpCode(HttpStatus.OK)
  remove(@Param('id') id: string) {
    return this.{{camelModuleName}}Service.remove(id);
  }

  @Delete()
  @HttpCode(HttpStatus.OK)
  removeMany(@Body('ids') ids: string[]) {
    return this.{{camelModuleName}}Service.removeMany(ids);
  }
}".

(** The body of [service.stub] *)
Definition service_stub : string :=
"import { Injectable, NotFoundException, BadRequestException } from '@nestjs/common';
import { InjectModel } from '@nestjs/mongoose';
import { Model } from 'mongoose';
import { Create{{ModuleName}}Dto } from './dto/create-{{moduleName}}.dto';
import { Update{{ModuleName}}Dto } from './dto/update-{{moduleName}}.dto';
import { {{ModuleName}}, {{ModuleName}}Document } from './schema/{{moduleName}}.schema';

@Injectable()
export class {{ModuleName}}Service {
  constructor(
    @InjectModel({{ModuleName}}.name) 
    private readonly {{camelModuleName}}Model: Model<{{ModuleName}}Document>,
  ) {}
  
  async create(create{{ModuleName}}Dto: Create{{ModuleName}}Dto): Promise<{{ModuleName}}> {
    try {
      const created{{ModuleName}} = new this.{{camelModuleName}}Model(create{{ModuleName}}Dto);
      return await created{{ModuleName}}.save();
    } catch (error) {
      throw new BadRequestException(`Failed to create {{moduleName}}: ${error.message}`);
    }
  }
  
  async findAll(): Promise<{{ModuleName}}[]> {
    return this.{{camelModuleName}}Model.find().lean().exec();
  }


  async findOne(id: string): Promise<{{ModuleName}}> {
    if (!id.match(/^[0-9a-fA-F]{24}$/)) {
      throw new BadRequestException('Invalid ID format');
    }

    const {{camelModuleName}} = await this.{{camelModuleName}}Model.findById(id).exec();
    if (!{{camelModuleName}}) {
      throw new NotFoundException(`{{ModuleName}} with ID ${id} not found`);
    }
    return {{camelModuleName}};
  }

  async findByName(name: string): Promise<{{ModuleName}}[]> {
    return this.{{camelModuleName}}Model
      .find({ name: { $regex: name, $options: 'i' } })
      .exec();
  }

  async update(id: string, update{{ModuleName}}Dto: Update{{ModuleName}}Dto): Promise<{{ModuleName}}> {
    if (!id.match(/^[0-9a-fA-F]{24}$/)) {
      throw new BadRequestException('Invalid ID format');
    }

    const updated{{ModuleName}} = await this.{{camelModuleName}}Model
      .findByIdAndUpdate(id, update{{ModuleName}}Dto, {
        new: true,
        runValidators: true,
      })
      .exec();

    if (!updated{{ModuleName}}) {
      throw new NotFoundException(`{{ModuleName}} with ID ${id} not found`);
    }

    return updated{{ModuleName}};
  }

  async remove(id: string): Promise<{ message: string; deletedId: string }> {
    if (!id.match(/^[0-9a-fA-F]{24}$/)) {
      throw new BadRequestException('Invalid ID format');
    }

    const deleted{{ModuleName}} = await this.{{camelModuleName}}Model
      .findByIdAndDelete(id)
      .exec();

    if (!deleted{{ModuleName}}) {
      throw new NotFoundException(`{{ModuleName}} with ID ${id} not found`);
    }

    return {
      message: `{{ModuleName}} with ID ${id} has been successfully deleted`,
      deletedId: id,
    };
  }

  async removeMany(ids: string[]): Promise<{ message: string; deletedCount: number }> {
    const validIds = ids.filter(id => id.match(/^[0-9a-fA-F]{24}$/));
    
    if (validIds.length !== ids.length) {
      throw new BadRequestException('Some IDs have invalid format');
    }

    const result = await this.{{camelModuleName}}Model
      .deleteMany({ _id: { $in: validIds } })
      .exec();

    return {
      message: `Successfully deleted ${result.deletedCount} {{moduleName}}(s)`,
      deletedCount: result.deletedCount,
    };
  }

  async count(search?: string): Promise<number> {
    let query = {};
    if (search) {
      query = {
        $or: [
          { name: { $regex: search, $options: 'i' } },
          { description: { $regex: search, $options: 'i' } },
        ],
      };
    }
    return this.{{camelModuleName}}Model.countDocuments(query).exec();
  }

  async exists(id: string): Promise<boolean> {
    if (!id.match(/^[0-9a-fA-F]{24}$/)) {
      return false;
    }
    const count = await this.{{camelModuleName}}Model.countDocuments({ _id: id }).exec();
    return count > 0;
  }
}".

(** The body of [create-dto.stub] *)
Definition create_dto_stub : string :=
"import { IsString, IsNotEmpty, IsOptional } from 'class-validator';

export class Create{{ModuleName}}Dto {
  @IsString()
  @IsNotEmpty()
  name: string;

  // Add more properties as needed
}".

(** The body of [update-dto.stub] *)
Definition update_dto_stub : string :=
"import { PartialType } from '@nestjs/mapped-types';
import { Create{{ModuleName}}Dto } from './create-{{moduleName}}.dto';

export class Update{{ModuleName}}Dto extends PartialType(Create{{ModuleName}}Dto) {}".

(** The body of [schema.stub] *)
Definition schema_stub : string :=
"import { Prop, Schema, SchemaFactory } from '@nestjs/mongoose';
import { Document } from 'mongoose';

export type {{ModuleName}}Document = {{ModuleName}} & Document;

@Schema({ 
  timestamps: true,
  collection: '{{module-name}}'
})
export class {{ModuleName}} {
  @Prop({ required: true })
  name: string;

  // Add more fields as needed
}

export const {{ModuleName}}Schema = SchemaFactory.createForClass({{ModuleName}});".

(** [defaultTemplates], in the order of [Object.entries] *)
Definition defaultTemplates : list (string * string) :=
  [ ("module.stub", module_stub);
    ("controller.stub", controller_stub);
    ("service.stub", service_stub);
    ("create-dto.stub", create_dto_stub);
    ("update-dto.stub", update_dto_stub);
    ("schema.stub", schema_stub) ].

(** The body of the [forEach] of lines 433-439 *)
Definition initTemplate (templatesDir : string) (entry : string * string)
  : C unit :=
  let filePath := Path.join [templatesDir; entry.1] in
  present ← lift (existsSync filePath);
  if negb present then
    lift (writeFileSync filePath entry.2);;
    say (LogCreatedTemplate filePath)
  else mret tt.

(** [initTemplates()].  Nothing is caught here: a failing [mkdirSync] or
    [writeFileSync] ends the call. *)
Definition initTemplates (cfg : Config) : C unit :=
  let templatesDir := templatesDir cfg in
  found ← lift (existsSync templatesDir);
  (if negb found then
     lift (mkdirSync templatesDir);;
     say (LogCreatedTemplatesDir templatesDir)
   else mret tt);;
  c_for_each (initTemplate templatesDir) defaultTemplates.

Definition showHelp : C unit := say LogHelp.

(** A configuration file's exports, as far as the generator's types go *)
Record UserConfig : Type := mkUserConfig {
  u_templatesDir : option string;
  u_outputDir : option string;
  u_templates : option (list (string * TemplateConfig));
  u_exclusions : option (gmap string (list string));
  u_batchModules : option (list string)
}.

Definition set_key (k : string) (v : option config_value)
  (o : gmap string config_value) : gmap string config_value :=
  match v with
  | Some x => <[k := x]> o
  | None => o
  end.

Definition object_of (u : UserConfig) : gmap string config_value :=
  set_key "templatesDir" (VString <$> u_templatesDir u)
    (set_key "outputDir" (VString <$> u_outputDir u)
       (set_key "templates" (VTemplates <$> u_templates u)
          (set_key "exclusions" (VExclusions <$> u_exclusions u)
             (set_key "batchModules" (VNames <$> u_batchModules u) ∅)))).

(** The list of the [batch] command, lines 494-497 *)
Definition batch_modules : list string :=
  [ "auth"; "users"; "products"; "brands"; "categories";
    "orders"; "carts"; "payments"; "discounts"; "inventory"; "sidebar" ].

(** [this.config] after [loadConfig]; the built-in object has the four
    properties and a user's values have their types, so it always reads. *)
Definition config_of (o : gmap string config_value) : Config :=
  default default_config (read_config o).

(** The [switch] of [main], lines 478-505, with [args] for
    [process.argv.slice(2)] *)
Definition dispatch (cfg : Config) (args : list string) : C completion :=
  match args with
  | command :: names =>
      if String.eqb command "init" then
        initTemplates cfg;;
        mret Returned
      else if String.eqb command "generate" then
        if (length args <? 2)%nat then
          say ErrNoModuleNames;;
          showHelp;;
          mret (Exited 1)
        else lift (generateModules cfg (Names names))
      else if String.eqb command "batch" then
        lift (generateModules cfg (Names batch_modules))
      else
        showHelp;;
        mret Returned
  | [] =>
      showHelp;;
      mret Returned
  end.

(** [main()], with [loaded] for what [require] does with the
    configuration file *)
Definition main (args : list string) (loaded : js_error + UserConfig)
  : C completion :=
  config ← lift (loadConfig default_config_object "./generator.config.js"
                   (match loaded with
                    | inl e => inl e
                    | inr u => inr (object_of u)
                    end));
  dispatch (config_of config) args.

(** The configuration with the user's values where the user gives them *)
Definition merged_config (u : UserConfig) : Config :=
  mkConfig (default "./templates" (u_templatesDir u))
           (default "./src/modules" (u_outputDir u))
           (default default_templates (u_templates u))
           (default default_exclusions (u_exclusions u)).

(** ** generator.config.js *)

Definition shipped_config : UserConfig :=
  mkUserConfig (Some "./templates") (Some "./src/modules")
    (Some
       [ ("module", mkTemplateConfig "module.ts" true None None);
         ("controller", mkTemplateConfig "controller.ts" true None None);
         ("service", mkTemplateConfig "service.ts" true None None);
         ("create-dto", mkTemplateConfig "dto.ts" false (Some "dto")
                          (Some "create-{{moduleName}}.dto.ts"));
         ("update-dto", mkTemplateConfig "dto.ts" false (Some "dto")
                          (Some "update-{{moduleName}}.dto.ts"));
         ("schema", mkTemplateConfig "schema.ts" false (Some "schema")
                          (Some "{{moduleName}}.schema.ts")) ])
    (Some
       (<["create-dto" := ["auth"; "payments"]]>
          (<["update-dto" := ["auth"; "payments"]]>
             (<["schema" := ["auth"; "sidebar"]]> ∅))))
    (Some
       [ "auth"; "users"; "products"; "brands"; "categories"; "orders";
         "carts"; "payments"; "discounts"; "inventory"; "sidebar" ]).

(** A configuration file whose only property is a template called
    [constructor] *)
Definition example_user_constructor : UserConfig :=
  mkUserConfig None None
    (Some [("constructor", mkTemplateConfig "ts" false None None)])
    None None.

(** ** Further predicates on sessions *)

Definition grows_c {A} (m : C A) : Prop :=
  ∀ s, extends (s_fs s) (s_fs (after_c m s)).

(** The line reports a missing template. *)
Definition reports_missing (l : console_line) : bool :=
  match l with
  | ErrGenerating _ (TemplateNotFound _) => true
  | _ => false
  end.

(** Every template of the configuration has a built-in stub. *)
Definition stubbed (cfg : Config) : Prop :=
  Forall (λ entry : string * TemplateConfig,
            ∃ body, (entry.1 +:+ ".stub", body) ∈ defaultTemplates)
         (templates cfg).

(** [u] with another [batchModules] *)
Definition with_batchModules (b : option (list string)) (u : UserConfig)
  : UserConfig :=
  mkUserConfig (u_templatesDir u) (u_outputDir u) (u_templates u)
    (u_exclusions u) b.

(** The session after [loadConfig] found the file and printed [l] *)
Definition config_checked (l : list cli_line) (s : Session) : Session :=
  mkSession (s_fs s) (s_trace s ++ [EvExists "./generator.config.js"])
    (s_console s ++ l).

(** The configuration [main] works with: the merged one when the file is
    there and loads, the built-in one otherwise *)
Definition effective_config (loaded : js_error + UserConfig) (fs : Fs.t)
  : Config :=
  if Fs.exists_ fs "./generator.config.js" then
    match loaded with
    | inr u => merged_config u
    | inl _ => default_config
    end
  else default_config.

(** What the look for the configuration file prints *)
Definition config_lines (loaded : js_error + UserConfig) (fs : Fs.t)
  : list cli_line :=
  if Fs.exists_ fs "./generator.config.js" then
    match loaded with
    | inr _ => [Engine (LogLoadedConfig "./generator.config.js")]
    | inl e => [Engine (WarnConfigNotLoaded e)]
    end
  else [].

(** An error of a failed [fs] call *)
Definition is_fs_error (e : js_error) : bool :=
  match e with
  | FsError _ _ _ => true
  | _ => false
  end.

(** Whatever a computation throws satisfies [P] *)
Definition throws_only {A} (P : js_error → Prop) (m : C A) : Prop :=
  ∀ s e, (m s).1 = Throw e → P e.

Definition example_fs_no_dir : Fs.t :=
  Fs.mk ["home"; "app"]
    {[ ["home"] := Fs.Dir;
       ["home"; "app"] := Fs.Dir;
       ["home"; "app"; "templates"] := Fs.File "notes" ]}.




(** Nothing that happened between [fs] and [fs'] touched a regular file *)
Definition same_files (fs fs' : Fs.t) : Prop :=
  ∀ key c, Fs.nodes fs' !! key = Some (Fs.File c)
           ↔ Fs.nodes fs !! key = Some (Fs.File c).

(** The array [generateModules] iterates over *)
Definition module_list (moduleNames : module_names) : list string :=
  match moduleNames with
  | Names l => l
  | OneName s => [s]
  end.

(** In [fs], [p] is the destination of a unit of the batch and holds the
    unit's template rendered for the unit's module *)
Definition generated_by (cfg : Config) (moduleNames : module_names)
  (fs : Fs.t) (p : string) : Prop :=
  ∃ m t tc body,
    m ∈ module_list moduleNames ∧
    (t, tc) ∈ templates cfg ∧
    p = full_path cfg m tc ∧
    Fs.read_file fs (template_path cfg t) = inr body ∧
    Fs.read_file fs p = inr (render body m).

(** * Properties *)

(** ** Naming transforms on examples *)

Example toPascalCase_userProfile : toPascalCase "userProfile" = "UserProfile".
Proof. reflexivity. Qed.

Example toKebabCase_userProfile : toKebabCase "userProfile" = "user-profile".
Proof. reflexivity. Qed.

Example toSnakeCase_userProfile : toSnakeCase "userProfile" = "user_profile".
Proof. reflexivity. Qed.

Example toKebabCase_acronym : toKebabCase "myHTTPServer" = "my-httpserver".
Proof. reflexivity. Qed.


(** ** Case mappings *)

Section CaseMappings.

Local Ltac by_cases_on c :=
  destruct c as [[] [] [] [] [] [] [] []]; vm_compute; reflexivity.

Lemma upper_char_idem c : upper_char (upper_char c) = upper_char c.
Proof. by_cases_on c. Qed.



End CaseMappings.



Lemma replace_case_boundary_no_upper sep s :
  no_upper s = true → replace_case_boundary sep s = s.
Proof.
  induction s as [|c1 r IH]; [done|].
  intros [_ Hr]%andb_prop. specialize (IH Hr).
  destruct r as [|c2 r']; [done|].
  cbn [replace_case_boundary] in *.
  apply andb_prop in Hr as [Hc2%negb_true_iff _].
  rewrite Hc2, andb_false_r. by rewrite IH.
Qed.


Lemma toPascalCase_cons c r : toPascalCase (String c r) = String (upper_char c) r.
Proof. reflexivity. Qed.

Lemma toCamelCase_cons c r : toCamelCase (String c r) = String (lower_char c) r.
Proof. reflexivity. Qed.

Lemma upper_char_ascii c :
  (nat_of_ascii c <? 128)%nat = true →
  (nat_of_ascii (upper_char c) <? 128)%nat = true.
Proof. destruct c as [[] [] [] [] [] [] [] []]; vm_compute; congruence. Qed.

Lemma lower_char_ascii c :
  (nat_of_ascii c <? 128)%nat = true →
  (nat_of_ascii (lower_char c) <? 128)%nat = true.
Proof. destruct c as [[] [] [] [] [] [] [] []]; vm_compute; congruence. Qed.



Lemma ascii_only_toUpperCase s :
  ascii_only s = true → ascii_only (toUpperCase s) = true.
Proof.
  unfold toUpperCase. induction s as [|c r IH]; [done|].
  cbn [ascii_only map_chars]. intros [Hc Hr]%andb_prop.
  by rewrite upper_char_ascii, IH.
Qed.





(** ** ExclusionPolicy *)

Lemma existsb_eqb_elem_of (m : string) (l : list string) :
  existsb (String.eqb m) l = true ↔ m ∈ l.
Proof.
  rewrite existsb_exists, list_elem_of_In. split.
  - intros (x & Hin & ->%String.eqb_eq). done.
  - intros Hin. exists m. by rewrite String.eqb_refl.
Qed.

Lemma shouldExclude_own cfg m t l :
  exclusions cfg !! t = Some l →
  shouldExclude cfg m t = Ok (JsBool (existsb (String.eqb m) l)).
Proof. unfold shouldExclude, get_property. by intros ->. Qed.

Lemma shouldExclude_absent cfg m t :
  exclusions cfg !! t = None →
  t ∉ object_prototype_keys →
  shouldExclude cfg m t = Ok JsUndefined.
Proof.
  unfold shouldExclude, get_property. intros -> Ht.
  by rewrite bool_decide_eq_false_2.
Qed.

Lemma shouldExclude_inherited cfg m t :
  exclusions cfg !! t = None →
  t ∈ object_prototype_keys →
  shouldExclude cfg m t
  = Throw (TypeError "excludeList.includes is not a function").
Proof.
  unfold shouldExclude, get_property. intros -> Ht.
  by rewrite bool_decide_eq_true_2.
Qed.

Lemma plain_key_iff cfg t :
  plain_key cfg t = true
  ↔ is_Some (exclusions cfg !! t) ∨ t ∉ object_prototype_keys.
Proof.
  unfold plain_key, get_property.
  destruct (exclusions cfg !! t) as [l|]; [by split; eauto|].
  case_bool_decide; split; try done.
  - intros [[? [=]]|?]; done.
  - by right.
Qed.

Lemma shouldExclude_plain cfg m t :
  plain_key cfg t = true →
  shouldExclude cfg m t
  = Ok (match exclusions cfg !! t with
        | Some l => JsBool (existsb (String.eqb m) l)
        | None => JsUndefined
        end).
Proof.
  unfold plain_key, shouldExclude, get_property.
  destruct (exclusions cfg !! t) as [l|]; [done|]. by case_bool_decide.
Qed.

Lemma excluded_listed cfg m t l :
  exclusions cfg !! t = Some l → m ∈ l → excluded cfg m t = true.
Proof.
  intros Ht Hm. unfold excluded. rewrite (shouldExclude_own _ _ _ _ Ht).
  by apply existsb_eqb_elem_of.
Qed.

Lemma excluded_false_inv cfg m t :
  excluded cfg m t = false →
  plain_key cfg t = true ∧
  ∃ v, shouldExclude cfg m t = Ok v ∧ to_boolean v = false.
Proof.
  unfold excluded, plain_key, shouldExclude.
  destruct (get_property (exclusions cfg) t); [| done |]; eauto.
Qed.

Lemma excluded_plain_iff cfg m t :
  plain_key cfg t = true →
  excluded cfg m t = true ↔
    ∃ l : list string, exclusions cfg !! t = Some l ∧ m ∈ l.
Proof.
  intros Ht. unfold excluded. rewrite (shouldExclude_plain _ _ _ Ht).
  destruct (exclusions cfg !! t) as [l|] eqn:Hl; cbn [to_boolean].
  - rewrite existsb_eqb_elem_of. split; [eauto|].
    by intros (l' & [= <-] & Hin).
  - split; [done|]. by intros (l' & [=] & _).
Qed.

(** C8: the table is read through the prototype chain.  For a template
    name without an entry of its own that names a property of
    [Object.prototype], as [constructor] does, [shouldExclude] finds a
    function, which is truthy and has no [includes], and throws instead of
    returning false. *)
Theorem shouldExclude_inherited_key cfg m t :
  exclusions cfg !! t = None →
  t ∈ object_prototype_keys →
  shouldExclude cfg m t
  = Throw (TypeError "excludeList.includes is not a function") ∧
  excluded cfg m t ≠ false.
Proof.
  intros Hnone Ht. unfold excluded.
  by rewrite (shouldExclude_inherited _ _ _ Hnone Ht).
Qed.

Lemma shouldExclude_inherited_key_witness :
  shouldExclude default_config "users" "constructor"
  = Throw (TypeError "excludeList.includes is not a function") ∧
  excluded default_config "users" "constructor" ≠ false.
Proof.
  apply (shouldExclude_inherited_key default_config "users" "constructor").
  - reflexivity.
  - unfold object_prototype_keys. apply list_elem_of_here.
Defined.

(** ** Configuration loading *)

Lemma lookup_spread config userConfig (k : string) :
  spread config userConfig !! k =
    match userConfig !! k with
    | Some v => Some v
    | None => config !! k
    end.
Proof.
  unfold spread. rewrite lookup_union.
  destruct (userConfig !! k), (config !! k); done.
Qed.

(** C9: when the file is there and loads, the configuration becomes the
    shallow merge: under every top-level key of the user's object stands
    the user's value, whole; every other key keeps the value it had, which
    for the generator's first load is the built-in default. *)
Theorem loadConfig_shallow_merge config configPath userConfig w :
  Fs.exists_ (w_fs w) configPath = true →
  ∃ merged w',
    loadConfig config configPath (inr userConfig) w = (Ok merged, w') ∧
    w_fs w' = w_fs w ∧
    (∀ k v, userConfig !! k = Some v → merged !! k = Some v) ∧
    (∀ k, userConfig !! k = None → merged !! k = config !! k).
Proof.
  intros Hex. eexists _, _.
  unfold loadConfig, mbind, M_bind, existsSync. rewrite Hex. cbn.
  split; [reflexivity|]. split; [reflexivity|].
  split; intros k; [intros v|]; intros Hk; by rewrite lookup_spread, Hk.
Qed.

Lemma loadConfig_shallow_merge_witness :
  ∃ merged w',
    loadConfig default_config_object "./generator.config.js"
      (inr example_user_config) (fresh example_fs) = (Ok merged, w') ∧
    w_fs w' = example_fs ∧
    (∀ k v, example_user_config !! k = Some v → merged !! k = Some v) ∧
    (∀ k, example_user_config !! k = None →
          merged !! k = default_config_object !! k).
Proof.
  apply (loadConfig_shallow_merge default_config_object
           "./generator.config.js" example_user_config (fresh example_fs)).
  vm_compute. reflexivity.
Defined.

(** The built-in object is the configuration the engine starts with; a user
    file that gives [exclusions] alone replaces the whole table and nothing
    else. *)
Example read_default_config :
  read_config default_config_object = Some default_config.
Proof. reflexivity. Qed.

Example read_merged_config :
  read_config (spread default_config_object example_user_config)
  = Some (mkConfig "./templates" "./src/modules" default_templates
            (<["schema" := []]> ∅)).
Proof.
  unfold read_config. rewrite !lookup_spread. reflexivity.
Qed.

(** ** Running the monad *)

Lemma bind_ok {A B} (m : M A) (k : A → M B) w a w' :
  m w = (Ok a, w') → (m ≫= k) w = k a w'.
Proof. unfold mbind, M_bind. by intros ->. Qed.

Lemma bind_throw {A B} (m : M A) (k : A → M B) w e w' :
  m w = (Throw e, w') → (m ≫= k) w = (Throw e, w').
Proof. unfold mbind, M_bind. by intros ->. Qed.

Lemma returning_ok {A} (r : result A) (a : A) w :
  r = Ok a → returning r w = (Ok a, w).
Proof. by intros ->. Qed.

Lemma returning_throw {A} (r : result A) e w :
  r = Throw e → returning r w = (Throw (A:=A) e, w).
Proof. by intros ->. Qed.

(** ** Exclusion: no file-system access *)

(** C3: when the exclusion table lists [m] under [t], [generateFile]
    reports the skip and does nothing else: the file system is the same
    and no file-system call is made (no template read, no directory
    creation, no write). *)
Theorem generateFile_excluded cfg m t tc (l : list string) w :
  exclusions cfg !! t = Some l →
  m ∈ l →
  generateFile cfg m t tc w
  = (Ok tt, mkWorld (w_fs w) (w_trace w)
              (w_console w ++ [LogSkipExcluded t m])) ∧
  outcome_of (LogSkipExcluded t m) = Some SkippedExcluded.
Proof.
  intros Ht Hm. split; [|done].
  unfold generateFile.
  rewrite (bind_ok _ _ _ _ _ (returning_ok _ _ _ (shouldExclude_own _ _ _ _ Ht))).
  cbn [to_boolean]. by rewrite (proj2 (existsb_eqb_elem_of m l) Hm).
Qed.

Lemma generateFile_excluded_witness :
  generateFile default_config "auth" "schema" schema_template
    (fresh example_fs)
  = (Ok tt, mkWorld example_fs [] [LogSkipExcluded "schema" "auth"]) ∧
  outcome_of (LogSkipExcluded "schema" "auth") = Some SkippedExcluded.
Proof.
  apply (generateFile_excluded default_config "auth" "schema" _
           ["auth"; "sidebar"] (fresh example_fs)).
  - reflexivity.
  - left.
Defined.

(** ** The file system: what [mkdir] and [write] change *)

Section FileSystem.

Implicit Types (ns : gmap (list string) Fs.node) (fs : Fs.t).

Lemma node_at_snoc ns made seg :
  Fs.node_at ns (made ++ [seg]) = ns !! (made ++ [seg]).
Proof. by destruct made. Qed.

Lemma node_at_lookup ns p n : ns !! p = Some n → p ≠ [] → Fs.node_at ns p = Some n.
Proof. by destruct p. Qed.

Lemma dirs_along_cons ns made seg rest :
  dirs_along ns made (seg :: rest) ↔
    ns !! (made ++ [seg]) = Some Fs.Dir ∧ dirs_along ns (made ++ [seg]) rest.
Proof.
  unfold dirs_along. split.
  - intros H. split.
    + by apply (H [seg] rest).
    + intros q1 q2 -> Hq1. rewrite <- (assoc_L (++)). by apply (H (seg :: q1) q2).
  - intros [Hseg H] q1 q2 Heq Hq1.
    destruct q1 as [|s q1]; [done|]. injection Heq as <- ->.
    destruct q1 as [|s' q1]; [done|].
    replace (made ++ seg :: s' :: q1) with ((made ++ [seg]) ++ s' :: q1)
      by by rewrite <- (assoc_L (++)).
    by apply (H (s' :: q1) q2).
Qed.

(** [mkdir] keeps every node there is. *)
Lemma mkdir_from_preserves todo : ∀ ns made r ns',
  Fs.mkdir_from ns made todo = (r, ns') →
  ∀ p n, ns !! p = Some n → ns' !! p = Some n.
Proof.
  induction todo as [|seg rest IH]; intros ns made r ns' Hrun p n Hp.
  - by injection Hrun as <- <-.
  - cbn [Fs.mkdir_from] in Hrun. rewrite node_at_snoc in Hrun.
    destruct (ns !! (made ++ [seg])) as [[c|]|] eqn:Hhere.
    + by injection Hrun as <- <-.
    + by eapply IH.
    + eapply IH; [done|]. rewrite lookup_insert_ne; [done|]. congruence.
Qed.

(** What [mkdir] adds is a directory. *)
Lemma mkdir_from_adds_dirs todo : ∀ ns made r ns',
  Fs.mkdir_from ns made todo = (r, ns') →
  ∀ p n, ns' !! p = Some n → ns !! p = Some n ∨ (ns !! p = None ∧ n = Fs.Dir).
Proof.
  induction todo as [|seg rest IH]; intros ns made r ns' Hrun p n Hp.
  - injection Hrun as <- <-. by left.
  - cbn [Fs.mkdir_from] in Hrun. rewrite node_at_snoc in Hrun.
    destruct (ns !! (made ++ [seg])) as [[c|]|] eqn:Hhere.
    + injection Hrun as <- <-. by left.
    + by eapply IH.
    + destruct (IH _ _ _ _ Hrun p n Hp) as [Hold|[Hnone ->]].
      * rewrite lookup_insert in Hold. case_decide as Heq.
        -- subst p. injection Hold as <-. by right.
        -- by left.
      * rewrite lookup_insert in Hnone. case_decide; [done|by right].
Qed.

(** After a successful [mkdir] the whole way is made of directories. *)
Lemma mkdir_from_success todo : ∀ ns made ns',
  Fs.mkdir_from ns made todo = (None, ns') → dirs_along ns' made todo.
Proof.
  induction todo as [|seg rest IH]; intros ns made ns' Hrun.
  - intros q1 q2 Heq Hq1. by destruct q1.
  - apply dirs_along_cons.
    cbn [Fs.mkdir_from] in Hrun. rewrite node_at_snoc in Hrun.
    destruct (ns !! (made ++ [seg])) as [[c|]|] eqn:Hhere.
    + by destruct rest.
    + split; [|by eapply IH]. by eapply mkdir_from_preserves.
    + split; [|by eapply IH].
      eapply mkdir_from_preserves; [done|]. by rewrite lookup_insert_eq.
Qed.

(** Where the way is there already, [mkdir] changes nothing. *)
Lemma mkdir_from_noop todo : ∀ ns made,
  dirs_along ns made todo → Fs.mkdir_from ns made todo = (None, ns).
Proof.
  induction todo as [|seg rest IH]; intros ns made Hdirs; [done|].
  apply dirs_along_cons in Hdirs as [Hseg Hrest].
  cbn [Fs.mkdir_from]. rewrite node_at_snoc, Hseg. by apply IH.
Qed.

Lemma dirs_along_insert_file ns made todo target c :
  dirs_along ns made todo → ns !! target = None →
  dirs_along (<[target := Fs.File c]> ns) made todo.
Proof.
  intros Hdirs Hnone q1 q2 Heq Hq1.
  rewrite lookup_insert_ne; [by eapply Hdirs|].
  intros ->. by rewrite (Hdirs q1 q2) in Hnone.
Qed.

Lemma resolve_with_nodes fs ns p :
  Fs.resolve (Fs.with_nodes fs ns) p = Fs.resolve fs p.
Proof. reflexivity. Qed.

Lemma exists_false_iff fs p :
  Fs.exists_ fs p = false ↔
    p = "" ∨ Fs.node_at (Fs.nodes fs) (Fs.resolve fs p) = None.
Proof.
  unfold Fs.exists_. destruct (String.eqb_spec p "") as [->|Hp].
  - split; [by left|done].
  - rewrite bool_decide_eq_false, <- eq_None_not_Some.
    split; [by right|]. by intros [?|?].
Qed.

Lemma exists_true_iff fs p :
  Fs.exists_ fs p = true ↔
    p ≠ "" ∧ is_Some (Fs.node_at (Fs.nodes fs) (Fs.resolve fs p)).
Proof.
  unfold Fs.exists_. destruct (String.eqb_spec p "") as [->|Hp].
  - split; [done|]. by intros [? _].
  - rewrite bool_decide_eq_true. split; [done|]. by intros [_ ?].
Qed.

Lemma read_file_inr fs p body :
  Fs.read_file fs p = inr body ↔
    p ≠ "" ∧ Fs.node_at (Fs.nodes fs) (Fs.resolve fs p) = Some (Fs.File body).
Proof.
  unfold Fs.read_file. destruct (String.eqb_spec p "") as [->|Hp].
  - split; [done|]. by intros [? _].
  - destruct (Fs.node_at _ _) as [[c|]|].
    + split; [by intros [= ->]|by intros [_ [= ->]]].
    + split; [done|by intros [_ ?]].
    + split; [done|by intros [_ ?]].
Qed.

Lemma read_file_exists fs p body :
  Fs.read_file fs p = inr body → Fs.exists_ fs p = true.
Proof.
  intros [Hp Hnode]%read_file_inr. apply exists_true_iff. by rewrite Hnode.
Qed.

Lemma node_at_file ns p c :
  Fs.node_at ns p = Some (Fs.File c) ↔ p ≠ [] ∧ ns !! p = Some (Fs.File c).
Proof. destruct p; [split; [done|by intros [? _]]|by split; [|intros [_ ?]]]. Qed.

Lemma node_at_none ns p : Fs.node_at ns p = None → ns !! p = None.
Proof. by destruct p. Qed.

(** [mkdir] leaves every regular file as it is, whether it succeeds or
    not, and everything that existed still exists. *)
Lemma mkdir_p_read_file fs dir r fs1 p body :
  Fs.mkdir_p fs dir = (r, fs1) →
  Fs.read_file fs p = inr body → Fs.read_file fs1 p = inr body.
Proof.
  unfold Fs.mkdir_p. intros Hrun [Hp Hnode]%read_file_inr.
  apply read_file_inr. split; [done|].
  destruct (String.eqb dir ""); [by injection Hrun as <- <-|].
  injection Hrun as <- <-. rewrite resolve_with_nodes. simpl.
  apply node_at_file. apply node_at_file in Hnode as [Hne Hnode].
  split; [done|].
  eapply mkdir_from_preserves; [|done]. apply surjective_pairing.
Qed.

Lemma mkdir_p_exists fs dir r fs1 p :
  Fs.mkdir_p fs dir = (r, fs1) →
  Fs.exists_ fs p = true → Fs.exists_ fs1 p = true.
Proof.
  unfold Fs.mkdir_p. intros Hrun [Hp [n Hnode]]%exists_true_iff.
  apply exists_true_iff. split; [done|].
  destruct (String.eqb dir ""); [by injection Hrun as <- <-; eauto|].
  injection Hrun as <- <-. rewrite resolve_with_nodes. simpl.
  destruct (Fs.resolve fs p) as [|s q] eqn:Hq; [by eauto|].
  exists n. cbn [Fs.node_at] in *.
  eapply mkdir_from_preserves; [|done]. apply surjective_pairing.
Qed.

Lemma mkdir_p_cwd fs dir r fs1 :
  Fs.mkdir_p fs dir = (r, fs1) → Fs.cwd fs1 = Fs.cwd fs.
Proof.
  unfold Fs.mkdir_p. destruct (String.eqb dir ""); by intros [= <- <-].
Qed.

(** A successful write puts the content at the target and nothing else
    changes. *)
Lemma write_file_success fs p c fs2 :
  Fs.write_file fs p c = (None, fs2) →
  p ≠ "" ∧
  fs2 = Fs.with_nodes fs (<[Fs.resolve fs p := Fs.File c]> (Fs.nodes fs)).
Proof.
  unfold Fs.write_file. destruct (String.eqb_spec p "") as [->|Hp]; [done|].
  intros Hrun. split; [done|].
  destruct (Fs.node_at (Fs.nodes fs) (Fs.resolve fs p)) as [[?|]|];
    destruct (Fs.node_at (Fs.nodes fs) (Fs.parent (Fs.resolve fs p))) as [[?|]|];
    by simplify_eq.
Qed.

Lemma write_file_read_back fs p c fs2 :
  Fs.exists_ fs p = false →
  Fs.write_file fs p c = (None, fs2) →
  Fs.read_file fs2 p = inr c ∧ Fs.exists_ fs2 p = true.
Proof.
  intros Habsent [Hp ->]%write_file_success.
  apply exists_false_iff in Habsent as [->|Hnone]; [done|].
  assert (Fs.read_file
            (Fs.with_nodes fs (<[Fs.resolve fs p:=Fs.File c]> (Fs.nodes fs))) p
          = inr c) as Hread.
  { apply read_file_inr. split; [done|]. rewrite resolve_with_nodes. simpl.
    apply node_at_file. rewrite lookup_insert_eq. split; [|done].
    intros Hroot. by rewrite Hroot in Hnone. }
  split; [done|]. by eapply read_file_exists.
Qed.

(** Creating a file leaves the files that were there as they were. *)
Lemma write_file_read_other fs p c fs2 q body :
  Fs.exists_ fs p = false →
  Fs.write_file fs p c = (None, fs2) →
  Fs.read_file fs q = inr body → Fs.read_file fs2 q = inr body.
Proof.
  intros Habsent [Hp ->]%write_file_success [Hq Hnode]%read_file_inr.
  apply exists_false_iff in Habsent as [->|Hnone]; [done|].
  apply read_file_inr. split; [done|]. rewrite resolve_with_nodes. simpl.
  apply node_at_file. apply node_at_file in Hnode as [Hne Hnode].
  split; [done|]. rewrite lookup_insert_ne; [done|].
  intros Heq. rewrite Heq in Hnone. apply node_at_none in Hnone. congruence.
Qed.

(** Once the directory is made and the file created in it, making the
    directory again changes nothing. *)
Lemma mkdir_p_again fs dir fs1 p c fs2 :
  Fs.mkdir_p fs dir = (None, fs1) →
  Fs.exists_ fs1 p = false →
  Fs.write_file fs1 p c = (None, fs2) →
  Fs.mkdir_p fs2 dir = (None, fs2).
Proof.
  unfold Fs.mkdir_p. destruct (String.eqb dir ""); [done|].
  intros Hmk Habsent [Hp ->]%write_file_success.
  apply exists_false_iff in Habsent as [->|Hnone]; [done|].
  injection Hmk as Hr <-.
  rewrite resolve_with_nodes in *. cbn [Fs.nodes Fs.with_nodes] in *.
  rewrite (mkdir_from_noop _ (<[_ := _]> _) []); [done|].
  apply dirs_along_insert_file; [|by apply node_at_none].
  eapply mkdir_from_success. erewrite <- Hr. apply surjective_pairing.
Qed.

End FileSystem.

(** ** One (module, template) unit, step by step *)

Section Unit.

Context (cfg : Config) (m t : string) (tc : TemplateConfig).

Local Abbreviation tpl := (template_path cfg t).
Local Abbreviation dir := (output_path cfg m tc).
Local Abbreviation full := (full_path cfg m tc).

Lemma processTemplate_missing w :
  Fs.exists_ (w_fs w) tpl = false →
  processTemplate cfg t m w
  = (Throw (TemplateNotFound tpl), traced (EvExists tpl) w).
Proof.
  intros Hex. unfold processTemplate, mbind, M_bind, existsSync.
  by rewrite Hex.
Qed.

Lemma processTemplate_found w body :
  Fs.read_file (w_fs w) tpl = inr body →
  processTemplate cfg t m w
  = (Ok (render body m), traced (EvReadFile tpl) (traced (EvExists tpl) w)).
Proof.
  intros Hread. unfold processTemplate, mbind, M_bind, existsSync, readFileSync.
  rewrite (read_file_exists _ _ _ Hread). cbn. by rewrite Hread.
Qed.

(** What the [try] block does once the template is rendered *)
Lemma generateFile_try_found w body :
  Fs.read_file (w_fs w) tpl = inr body →
  generateFile_try cfg m t tc w
  = (mkdirSync dir;;
     present ← existsSync full;
     if present : bool then console (LogSkipExists t full)
     else writeFileSync full (render body m);; console (LogGenerated full))
      (traced (EvReadFile tpl) (traced (EvExists tpl) w)).
Proof.
  intros Hread. unfold generateFile_try.
  by rewrite (bind_ok _ _ _ _ _ (processTemplate_found w body Hread)).
Qed.

Lemma generateFile_not_excluded w :
  excluded cfg m t = false →
  generateFile cfg m t tc w
  = try_catch (generateFile_try cfg m t tc)
      (λ error, console (ErrGenerating t error)) w.
Proof.
  intros (_ & v & Hv & Hfalse)%excluded_false_inv. unfold generateFile.
  rewrite (bind_ok _ _ _ _ _ (returning_ok _ _ _ Hv)). by rewrite Hfalse.
Qed.

(** A call for a name that the table only inherits ends at line 94. *)
Lemma generateFile_inherited w :
  plain_key cfg t = false →
  generateFile cfg m t tc w
  = (Throw (TypeError "excludeList.includes is not a function"), w).
Proof.
  intros Ht. unfold generateFile. apply bind_throw, returning_throw.
  unfold plain_key in Ht. unfold shouldExclude.
  by destruct (get_property (exclusions cfg) t).
Qed.

(** The unit ends with one line on the console, and never by an
    exception. *)
Lemma generateFile_try_console w :
  match generateFile_try cfg m t tc w with
  | (Ok _, w') =>
      w_console w' = w_console w ++ [LogSkipExists t full] ∨
      w_console w' = w_console w ++ [LogGenerated full]
  | (Throw _, w') => w_console w' = w_console w
  end.
Proof.
  unfold generateFile_try, processTemplate, mbind, M_bind, mret, M_ret, throw,
    existsSync, readFileSync, mkdirSync, writeFileSync, console, traced, with_fs.
  cbn.
  repeat (case_match; simplify_eq/=; try done); eauto.
Qed.

Lemma generateFile_returns w :
  plain_key cfg t = true →
  ∃ line o,
    generateFile cfg m t tc w = (Ok tt, after (generateFile cfg m t tc) w) ∧
    w_console (after (generateFile cfg m t tc) w) = w_console w ++ [line] ∧
    outcome_of line = Some o.
Proof.
  intros Ht. unfold after, generateFile.
  rewrite (bind_ok _ _ _ _ _
             (returning_ok _ _ _ (shouldExclude_plain cfg m t Ht))).
  destruct (to_boolean _).
  { by exists (LogSkipExcluded t m), SkippedExcluded. }
  unfold try_catch. pose proof (generateFile_try_console w) as Hc.
  destruct (generateFile_try cfg m t tc w) as [[[]|e] w'].
  - cbn. destruct Hc as [Hc|Hc]; rewrite Hc;
      (eexists _, _; split; [reflexivity|]; split; reflexivity).
  - exists (ErrGenerating t e), (Failed e). cbn.
    split; [reflexivity|]. split; [by rewrite Hc|done].
Qed.

Lemma generateFile_failed w e w1 :
  excluded cfg m t = false →
  generateFile_try cfg m t tc w = (Throw e, w1) →
  generateFile cfg m t tc w = (Ok tt, logged (ErrGenerating t e) w1).
Proof.
  intros Hex Hthrow. rewrite (generateFile_not_excluded w Hex).
  unfold try_catch. by rewrite Hthrow.
Qed.

End Unit.

Lemma for_each_total {A} (f : A → M unit) (l : list A) :
  (∀ x w, x ∈ l → f x w = (Ok tt, after (f x) w)) →
  ∀ w, for_each f l w = (Ok tt, foldl (λ w x, after (f x) w) w l).
Proof.
  induction l as [|x l IH]; intros Hf w; [done|].
  cbn [for_each foldl].
  rewrite (bind_ok _ _ _ _ _ (Hf x w (list_elem_of_here _ _))). apply IH.
  intros y w' Hy. apply Hf. by apply list_elem_of_further.
Qed.

Lemma generateFile_total cfg m t tc w :
  plain_key cfg t = true →
  generateFile cfg m t tc w = (Ok tt, after (generateFile cfg m t tc) w).
Proof.
  intros Ht.
  by destruct (generateFile_returns cfg m t tc w Ht) as (? & ? & ? & _).
Qed.

Lemma plain_keys_elem_of cfg t tc :
  plain_keys cfg = true → (t, tc) ∈ templates cfg → plain_key cfg t = true.
Proof.
  unfold plain_keys. rewrite forallb_forall. intros Hall Hin.
  by apply (Hall (t, tc)), list_elem_of_In.
Qed.

Lemma generateModule_total cfg m w :
  plain_keys cfg = true →
  generateModule cfg m w
  = (Ok tt,
     foldl (λ w entry, after (generateFile cfg m entry.1 entry.2) w)
       (logged (LogGeneratingModule m) w) (templates cfg)).
Proof.
  intros Hkeys. unfold generateModule.
  rewrite (bind_ok _ _ w tt (logged (LogGeneratingModule m) w)) by done.
  apply (for_each_total (λ entry, generateFile cfg m entry.1 entry.2)).
  intros [t tc] w' Hin. apply generateFile_total.
  by eapply plain_keys_elem_of.
Qed.

Lemma generateModules_found cfg names w :
  plain_keys cfg = true →
  Fs.exists_ (w_fs w) (templatesDir cfg) = true →
  generateModules cfg names w
  = (Ok Returned,
     foldl (λ w m, after (generateModule cfg m) w)
       (traced (EvExists (templatesDir cfg)) w)
       (match names with Names l => l | OneName s => [s] end)).
Proof.
  intros Hkeys Hex. unfold generateModules.
  rewrite (bind_ok _ _ w true (traced (EvExists (templatesDir cfg)) w))
    by (unfold existsSync; by rewrite Hex).
  cbn [negb].
  erewrite bind_ok; [done|].
  apply for_each_total. intros m w' _.
  rewrite generateModule_total by done.
  by unfold after; rewrite generateModule_total.
Qed.

Lemma generateModules_missing cfg names w :
  Fs.exists_ (w_fs w) (templatesDir cfg) = false →
  generateModules cfg names w
  = (Ok (Exited 1),
     logged (ErrTemplatesDirNotFound (templatesDir cfg))
       (traced (EvExists (templatesDir cfg)) w)).
Proof.
  intros Hex. unfold generateModules.
  rewrite (bind_ok _ _ w false (traced (EvExists (templatesDir cfg)) w))
    by (unfold existsSync; by rewrite Hex).
  done.
Qed.

(** ** Batch precondition *)

Lemma forallb_false_split {A} (f : A → bool) (l : list A) :
  forallb f l = false →
  ∃ pre x post, l = pre ++ x :: post ∧ forallb f pre = true ∧ f x = false.
Proof.
  induction l as [|y l IH]; [done|]. cbn [forallb].
  destruct (f y) eqn:Hy.
  - intros (pre & x & post & -> & Hpre & Hx)%IH.
    exists (y :: pre), x, post. cbn [forallb]. by rewrite Hy.
  - intros _. by exists [], y, l.
Qed.

Lemma for_each_throws {A} (f : A → M unit) (pre : list A) x post e :
  (∀ y w, y ∈ pre → f y w = (Ok tt, after (f y) w)) →
  (∀ w, f x w = (Throw e, w)) →
  ∀ w, for_each f (pre ++ x :: post) w
       = (Throw e, foldl (λ w y, after (f y) w) w pre).
Proof.
  intros Hpre Hx. induction pre as [|y pre IH]; intros w.
  - cbn [app for_each foldl]. by apply bind_throw.
  - cbn [app for_each foldl].
    rewrite (bind_ok _ _ _ _ _ (Hpre y w (list_elem_of_here _ _))).
    apply IH. intros z w' Hz. apply Hpre. by apply list_elem_of_further.
Qed.

Lemma generateModule_inherited cfg m w :
  plain_keys cfg = false →
  (generateModule cfg m w).1
  = Throw (TypeError "excludeList.includes is not a function").
Proof.
  unfold plain_keys.
  intros (pre & [t tc] & post & Hsplit & Hpre & Ht)%forallb_false_split.
  unfold generateModule.
  rewrite (bind_ok _ _ w tt (logged (LogGeneratingModule m) w)) by done.
  rewrite Hsplit.
  rewrite (for_each_throws (λ entry, generateFile cfg m entry.1 entry.2)
             pre (t, tc) post
             (TypeError "excludeList.includes is not a function")); [done|..].
  - intros [t' tc'] w' Hin. apply generateFile_total.
    rewrite forallb_forall in Hpre. by apply (Hpre (t', tc')), list_elem_of_In.
  - intros w'. by apply generateFile_inherited.
Qed.

Lemma generateModules_inherited cfg m names w :
  Fs.exists_ (w_fs w) (templatesDir cfg) = true →
  plain_keys cfg = false →
  (generateModules cfg (Names (m :: names)) w).1
  = Throw (TypeError "excludeList.includes is not a function").
Proof.
  intros Hex Hkeys. unfold generateModules.
  rewrite (bind_ok _ _ w true (traced (EvExists (templatesDir cfg)) w))
    by (unfold existsSync; by rewrite Hex).
  cbn [negb for_each]. unfold mbind, M_bind at 1 2.
  pose proof (generateModule_inherited cfg m
                (traced (EvExists (templatesDir cfg)) w) Hkeys) as Hm.
  by destruct (generateModule cfg m _) as [[[]|e] w1]; cbn [fst] in *;
    simplify_eq.
Qed.

(** C4: the templates directory in place does not keep a batch from being
    ended by an exception.  When a template of the configuration has a name
    that the exclusion table only inherits, [shouldExclude] throws at line
    94, outside the [try] of the unit: the first module of a batch ends it
    with a [TypeError], and with it the process. *)
Theorem generateModules_inherited_key cfg m names w :
  Fs.exists_ (w_fs w) (templatesDir cfg) = true →
  plain_keys cfg = false →
  (generateModules cfg (Names (m :: names)) w).1
  = Throw (TypeError "excludeList.includes is not a function").
Proof. apply generateModules_inherited. Qed.

Lemma generateModules_inherited_key_witness :
  (generateModules example_config_constructor (Names ["users"; "orders"])
     (fresh example_fs)).1
  = Throw (TypeError "excludeList.includes is not a function").
Proof.
  apply (generateModules_inherited_key example_config_constructor "users"
           ["orders"] (fresh example_fs)); vm_compute; reflexivity.
Defined.

(** ** Failures stay inside their unit *)

Lemma outcomes_unit cfg m t tc w :
  plain_key cfg t = true →
  length (outcomes (w_console (after (generateFile cfg m t tc) w)))
  = S (length (outcomes (w_console w))).
Proof.
  intros Ht.
  destruct (generateFile_returns cfg m t tc w Ht) as (line & o & _ & -> & Ho).
  unfold outcomes. rewrite omap_app, length_app. cbn. rewrite Ho. cbn. lia.
Qed.

Lemma outcomes_units cfg m (entries : list (string * TemplateConfig)) :
  forallb (λ entry : string * TemplateConfig, plain_key cfg entry.1) entries
  = true →
  ∀ w,
  length (outcomes (w_console
     (foldl (λ w entry, after (generateFile cfg m entry.1 entry.2) w) w entries)))
  = length (outcomes (w_console w)) + length entries.
Proof.
  induction entries as [|[t tc] entries IH]; intros Hkeys w;
    cbn [foldl length]; [lia|].
  cbn [forallb fst] in Hkeys. apply andb_prop in Hkeys as [Ht Hrest].
  rewrite (IH Hrest). cbn [fst snd]. rewrite (outcomes_unit _ _ _ _ _ Ht). lia.
Qed.

Lemma mkdirSync_ok w p fs1 :
  Fs.mkdir_p (w_fs w) p = (None, fs1) →
  mkdirSync p w = (Ok tt, with_fs fs1 (traced (EvMkdir p) w)).
Proof. unfold mkdirSync. by intros ->. Qed.

Lemma mkdirSync_failed w p code fs1 :
  Fs.mkdir_p (w_fs w) p = (Some code, fs1) →
  mkdirSync p w
  = (Throw (FsError code "mkdir" p), with_fs fs1 (traced (EvMkdir p) w)).
Proof. unfold mkdirSync. by intros ->. Qed.

Lemma writeFileSync_ok w p c fs2 :
  Fs.write_file (w_fs w) p c = (None, fs2) →
  writeFileSync p c w = (Ok tt, with_fs fs2 (traced (EvWriteFile p c) w)).
Proof. unfold writeFileSync. by intros ->. Qed.

Lemma writeFileSync_failed w p c code fs2 :
  Fs.write_file (w_fs w) p c = (Some code, fs2) →
  writeFileSync p c w
  = (Throw (FsError code "open" p), with_fs fs2 (traced (EvWriteFile p c) w)).
Proof. unfold writeFileSync. by intros ->. Qed.

Lemma generateFile_try_mkdir_failed cfg m t tc w body code fs1 :
  Fs.read_file (w_fs w) (template_path cfg t) = inr body →
  Fs.mkdir_p (w_fs w) (output_path cfg m tc) = (Some code, fs1) →
  generateFile_try cfg m t tc w
  = (Throw (FsError code "mkdir" (output_path cfg m tc)),
     mkWorld fs1
       (w_trace w ++ [EvExists (template_path cfg t);
                      EvReadFile (template_path cfg t);
                      EvMkdir (output_path cfg m tc)])
       (w_console w)).
Proof.
  intros Hread Hmk.
  rewrite (generateFile_try_found _ _ _ _ _ _ Hread).
  erewrite bind_throw; [|by apply mkdirSync_failed].
  unfold with_fs, traced. cbn. by rewrite <- !(assoc_L (++)).
Qed.

Lemma generateFile_try_write_failed cfg m t tc w body fs1 code fs2 :
  Fs.read_file (w_fs w) (template_path cfg t) = inr body →
  Fs.mkdir_p (w_fs w) (output_path cfg m tc) = (None, fs1) →
  Fs.exists_ fs1 (full_path cfg m tc) = false →
  Fs.write_file fs1 (full_path cfg m tc) (render body m) = (Some code, fs2) →
  generateFile_try cfg m t tc w
  = (Throw (FsError code "open" (full_path cfg m tc)),
     mkWorld fs2
       (w_trace w ++ [EvExists (template_path cfg t);
                      EvReadFile (template_path cfg t);
                      EvMkdir (output_path cfg m tc);
                      EvExists (full_path cfg m tc);
                      EvWriteFile (full_path cfg m tc) (render body m)])
       (w_console w)).
Proof.
  intros Hread Hmk Habsent Hwrite.
  rewrite (generateFile_try_found _ _ _ _ _ _ Hread).
  erewrite bind_ok; [|by apply mkdirSync_ok].
  erewrite bind_ok; [|reflexivity]. cbn [w_fs with_fs traced].
  rewrite Habsent.
  erewrite bind_throw; [|by apply writeFileSync_failed].
  unfold with_fs, traced. cbn. by rewrite <- !(assoc_L (++)).
Qed.

(** C7: what the [try] block of a unit throws is caught and reported as
    the unit's one outcome, [Failed]: a missing template
    ([TemplateNotFound]), a failed directory creation and a failed write.
    The unit returns, and the templates after it are run on the world it
    left.  So, where no template name makes line 94 throw,
    [generateModule] runs every template of the configuration in order and
    [generateModules] every module of the batch, whatever the outcomes: a
    module reports as many outcomes as there are templates. *)
Theorem failures_do_not_stop_siblings cfg :
  (∀ m t tc w e w1,
     excluded cfg m t = false →
     generateFile_try cfg m t tc w = (Throw e, w1) →
     generateFile cfg m t tc w = (Ok tt, logged (ErrGenerating t e) w1) ∧
     outcome_of (ErrGenerating t e) = Some (Failed e) ∧
     ∀ rest,
       for_each (λ entry, generateFile cfg m entry.1 entry.2)
         ((t, tc) :: rest) w
       = for_each (λ entry, generateFile cfg m entry.1 entry.2) rest
           (logged (ErrGenerating t e) w1)) ∧
  (∀ m t tc w,
     excluded cfg m t = false →
     Fs.exists_ (w_fs w) (template_path cfg t) = false →
     generateFile cfg m t tc w
     = (Ok tt,
        logged (ErrGenerating t (TemplateNotFound (template_path cfg t)))
          (traced (EvExists (template_path cfg t)) w))) ∧
  (∀ m t tc w body code fs1,
     excluded cfg m t = false →
     Fs.read_file (w_fs w) (template_path cfg t) = inr body →
     Fs.mkdir_p (w_fs w) (output_path cfg m tc) = (Some code, fs1) →
     generateFile cfg m t tc w
     = (Ok tt,
        logged (ErrGenerating t (FsError code "mkdir" (output_path cfg m tc)))
          (mkWorld fs1
             (w_trace w ++ [EvExists (template_path cfg t);
                            EvReadFile (template_path cfg t);
                            EvMkdir (output_path cfg m tc)])
             (w_console w)))) ∧
  (∀ m t tc w body fs1 code fs2,
     excluded cfg m t = false →
     Fs.read_file (w_fs w) (template_path cfg t) = inr body →
     Fs.mkdir_p (w_fs w) (output_path cfg m tc) = (None, fs1) →
     Fs.exists_ fs1 (full_path cfg m tc) = false →
     Fs.write_file fs1 (full_path cfg m tc) (render body m)
     = (Some code, fs2) →
     generateFile cfg m t tc w
     = (Ok tt,
        logged (ErrGenerating t (FsError code "open" (full_path cfg m tc)))
          (mkWorld fs2
             (w_trace w ++ [EvExists (template_path cfg t);
                            EvReadFile (template_path cfg t);
                            EvMkdir (output_path cfg m tc);
                            EvExists (full_path cfg m tc);
                            EvWriteFile (full_path cfg m tc) (render body m)])
             (w_console w)))) ∧
  (plain_keys cfg = true →
   (∀ m w,
      generateModule cfg m w
      = (Ok tt,
         foldl (λ w entry, after (generateFile cfg m entry.1 entry.2) w)
           (logged (LogGeneratingModule m) w) (templates cfg)) ∧
      length (outcomes (w_console (after (generateModule cfg m) w)))
      = length (outcomes (w_console w)) + length (templates cfg)) ∧
   (∀ names w,
      Fs.exists_ (w_fs w) (templatesDir cfg) = true →
      generateModules cfg (Names names) w
      = (Ok Returned,
         foldl (λ w m, after (generateModule cfg m) w)
           (traced (EvExists (templatesDir cfg)) w) names))).
Proof.
  split_and!.
  - intros m t tc w e w1 Hex Hthrow.
    pose proof (generateFile_failed _ _ _ _ _ _ _ Hex Hthrow) as Hunit.
    split_and!; [done..|]. intros rest. cbn [for_each fst snd].
    by rewrite (bind_ok _ _ _ _ _ Hunit).
  - intros m t tc w Hex Hmiss. apply generateFile_failed; [done|].
    unfold generateFile_try.
    by rewrite (bind_throw _ _ _ _ _ (processTemplate_missing cfg m t w Hmiss)).
  - intros m t tc w body code fs1 Hex Hread Hmk.
    apply generateFile_failed; [done|].
    by eapply generateFile_try_mkdir_failed.
  - intros m t tc w body fs1 code fs2 Hex Hread Hmk Habsent Hwrite.
    apply generateFile_failed; [done|].
    by eapply generateFile_try_write_failed.
  - intros Hkeys. split.
    + intros m w. split; [by apply generateModule_total|].
      unfold after. rewrite generateModule_total by done. cbn [snd].
      rewrite outcomes_units by done. cbn. unfold outcomes.
      by rewrite omap_app, app_nil_r.
    + intros names w Hex. by rewrite (generateModules_found _ _ _ Hkeys Hex).
Qed.

Lemma failures_do_not_stop_siblings_witness :
  generateFile default_config "users" "controller" controller_template
    (fresh example_fs)
  = (Ok tt,
     mkWorld example_fs [EvExists "templates/controller.stub"]
       [ErrGenerating "controller"
          (TemplateNotFound "templates/controller.stub")]) ∧
  generateFile default_config "users" "module" module_template
    (fresh example_fs_blocked)
  = (Ok tt,
     mkWorld example_fs_blocked
       [EvExists "templates/module.stub"; EvReadFile "templates/module.stub";
        EvMkdir "src/modules/users"]
       [ErrGenerating "module"
          (FsError Fs.ENOTDIR "mkdir" "src/modules/users")]) ∧
  generateFile default_config "users" "module" nested_template
    (fresh example_fs)
  = (Ok tt,
     mkWorld (Fs.mkdir_p example_fs "src/modules/users").2
       [EvExists "templates/module.stub"; EvReadFile "templates/module.stub";
        EvMkdir "src/modules/users";
        EvExists "src/modules/users/extra/users.ts";
        EvWriteFile "src/modules/users/extra/users.ts"
          "export class UsersModule {}"]
       [ErrGenerating "module"
          (FsError Fs.ENOENT "open" "src/modules/users/extra/users.ts")]) ∧
  outcomes (w_console (after (generateModule default_config "users")
                         (fresh example_fs)))
  = [ Generated "src/modules/users/users.module.ts";
      Failed (TemplateNotFound "templates/controller.stub");
      Failed (TemplateNotFound "templates/service.stub");
      Failed (TemplateNotFound "templates/create-dto.stub");
      Failed (TemplateNotFound "templates/update-dto.stub");
      Generated "src/modules/users/schema/users.schema.ts" ] ∧
  length (outcomes (w_console
            (after (generateModules default_config (Names ["auth"; "users"]))
               (fresh example_fs)))) = 12.
Proof.
  destruct (failures_do_not_stop_siblings default_config)
    as (Hfailed & Hmissing & Hmkdir & Hwrite & Hsiblings).
  destruct (Hsiblings eq_refl) as [Hmodule Hbatch].
  split_and!.
  - apply (Hmissing "users" "controller" controller_template
             (fresh example_fs)); vm_compute; reflexivity.
  - apply (Hmkdir "users" "module" module_template (fresh example_fs_blocked)
             "export class {{ModuleName}}Module {}" Fs.ENOTDIR
             example_fs_blocked); vm_compute; reflexivity.
  - apply (Hwrite "users" "module" nested_template (fresh example_fs)
             "export class {{ModuleName}}Module {}"
             (Fs.mkdir_p example_fs "src/modules/users").2 Fs.ENOENT
             (Fs.mkdir_p example_fs "src/modules/users").2);
      vm_compute; reflexivity.
  - unfold after.
    rewrite (proj1 (Hmodule "users" (fresh example_fs))).
    vm_compute. reflexivity.
  - unfold after. rewrite Hbatch by (vm_compute; reflexivity).
    vm_compute. reflexivity.
Defined.

(** ** Writing once *)

Lemma mkdir_p_still_absent fs dir fs1 p c fs2 :
  Fs.mkdir_p fs dir = (None, fs1) →
  Fs.exists_ fs p = false →
  Fs.write_file fs1 p c = (None, fs2) →
  Fs.exists_ fs1 p = false.
Proof.
  intros Hmk Habsent Hwrite.
  pose proof (mkdir_p_cwd _ _ _ _ Hmk) as Hcwd.
  assert (Fs.resolve fs1 p = Fs.resolve fs p) as Hres
    by (unfold Fs.resolve; by rewrite Hcwd).
  apply exists_false_iff in Habsent as [->|Hnone]; [done|].
  apply exists_false_iff. right. rewrite Hres.
  destruct (Fs.resolve fs p) as [|s q] eqn:Hq; [done|]. cbn [Fs.node_at] in *.
  destruct (Fs.nodes fs1 !! (s :: q)) as [n|] eqn:Hn; [|done].
  unfold Fs.mkdir_p in Hmk. destruct (String.eqb dir "") eqn:Hdir; [done|].
  injection Hmk as _ <-. cbn [Fs.nodes Fs.with_nodes] in Hn.
  exfalso.
  pose proof (mkdir_from_adds_dirs _ _ _ _ _ (surjective_pairing _) _ _ Hn)
    as [Hold|[_ ->]]; [congruence|].
  unfold Fs.write_file in Hwrite.
  destruct (String.eqb p ""); [done|].
  rewrite Hres in Hwrite. cbn [Fs.node_at Fs.nodes Fs.with_nodes] in Hwrite.
  by rewrite Hn in Hwrite.
Qed.

Section WriteOnce.

Context (cfg : Config) (m t : string) (tc : TemplateConfig).

Local Abbreviation tpl := (template_path cfg t).
Local Abbreviation dir := (output_path cfg m tc).
Local Abbreviation full := (full_path cfg m tc).

Lemma generateFile_try_generated w body fs1 fs2 :
  Fs.read_file (w_fs w) tpl = inr body →
  Fs.mkdir_p (w_fs w) dir = (None, fs1) →
  Fs.exists_ fs1 full = false →
  Fs.write_file fs1 full (render body m) = (None, fs2) →
  generateFile_try cfg m t tc w
  = (Ok tt,
     mkWorld fs2
       (w_trace w ++ [EvExists tpl; EvReadFile tpl; EvMkdir dir;
                      EvExists full; EvWriteFile full (render body m)])
       (w_console w ++ [LogGenerated full])).
Proof.
  intros Hread Hmk Habsent Hwrite.
  rewrite (generateFile_try_found _ _ _ _ _ _ Hread).
  erewrite bind_ok; [|by apply mkdirSync_ok].
  erewrite bind_ok; [|reflexivity]. cbn [w_fs with_fs traced].
  rewrite Habsent.
  erewrite bind_ok; [|by apply writeFileSync_ok].
  unfold console, with_fs, traced. cbn.
  by rewrite <- !(assoc_L (++)).
Qed.

Lemma generateFile_try_present w body fs1 :
  Fs.read_file (w_fs w) tpl = inr body →
  Fs.mkdir_p (w_fs w) dir = (None, fs1) →
  Fs.exists_ fs1 full = true →
  generateFile_try cfg m t tc w
  = (Ok tt,
     mkWorld fs1
       (w_trace w ++ [EvExists tpl; EvReadFile tpl; EvMkdir dir;
                      EvExists full])
       (w_console w ++ [LogSkipExists t full])).
Proof.
  intros Hread Hmk Hpresent.
  rewrite (generateFile_try_found _ _ _ _ _ _ Hread).
  erewrite bind_ok; [|by apply mkdirSync_ok].
  erewrite bind_ok; [|reflexivity]. cbn [w_fs with_fs traced].
  rewrite Hpresent.
  unfold console, with_fs, traced. cbn.
  by rewrite <- !(assoc_L (++)).
Qed.

End WriteOnce.

(** C1 (amended): let [m] not be excluded for [t], the template body be
    there, the destination be absent, and the directory creation and the
    write succeed.  Then the first call reports [Generated] and the second
    [SkippedExists]; the second call writes nothing, leaves the file system
    as the first left it, and the destination holds the rendered body after
    both. *)
Theorem generateFile_twice cfg m t tc w body fs1 fs2 :
  excluded cfg m t = false →
  Fs.read_file (w_fs w) (template_path cfg t) = inr body →
  Fs.exists_ (w_fs w) (full_path cfg m tc) = false →
  Fs.mkdir_p (w_fs w) (output_path cfg m tc) = (None, fs1) →
  Fs.write_file fs1 (full_path cfg m tc) (render body m) = (None, fs2) →
  ∃ w1 w2,
    generateFile cfg m t tc w = (Ok tt, w1) ∧
    generateFile cfg m t tc w1 = (Ok tt, w2) ∧
    w_console w1 = w_console w ++ [LogGenerated (full_path cfg m tc)] ∧
    w_console w2 = w_console w1 ++ [LogSkipExists t (full_path cfg m tc)] ∧
    w_trace w2 = w_trace w1 ++
      [EvExists (template_path cfg t); EvReadFile (template_path cfg t);
       EvMkdir (output_path cfg m tc); EvExists (full_path cfg m tc)] ∧
    w_fs w2 = w_fs w1 ∧
    Fs.read_file (w_fs w1) (full_path cfg m tc) = inr (render body m) ∧
    Fs.read_file (w_fs w2) (full_path cfg m tc) = inr (render body m).
Proof.
  intros Hex Hread Habsent Hmk Hwrite.
  pose proof (mkdir_p_still_absent _ _ _ _ _ _ Hmk Habsent Hwrite) as Habsent1.
  pose proof (write_file_read_back _ _ _ _ Habsent1 Hwrite) as [Hback Hpresent].
  eexists _, _. split; [|split].
  - rewrite (generateFile_not_excluded _ _ _ _ _ Hex). unfold try_catch.
    by rewrite (generateFile_try_generated _ _ _ _ _ _ _ _ Hread Hmk Habsent1 Hwrite).
  - rewrite (generateFile_not_excluded _ _ _ _ _ Hex). unfold try_catch.
    rewrite (generateFile_try_present _ _ _ _ _ body fs2); [done| | |done].
    + cbn [w_fs]. eapply write_file_read_other; [done..|].
      by eapply mkdir_p_read_file.
    + cbn [w_fs]. by eapply mkdir_p_again.
  - by cbn.
Qed.

Lemma generateFile_twice_witness :
  ∃ w1 w2,
    generateFile default_config "userProfile" "module" module_template
      (fresh example_fs) = (Ok tt, w1) ∧
    generateFile default_config "userProfile" "module" module_template w1
    = (Ok tt, w2) ∧
    w_console w1
    = [LogGenerated "src/modules/userProfile/userProfile.module.ts"] ∧
    w_console w2
    = w_console w1 ++
      [LogSkipExists "module" "src/modules/userProfile/userProfile.module.ts"] ∧
    w_trace w2 = w_trace w1 ++
      [EvExists "templates/module.stub"; EvReadFile "templates/module.stub";
       EvMkdir "src/modules/userProfile";
       EvExists "src/modules/userProfile/userProfile.module.ts"] ∧
    w_fs w2 = w_fs w1 ∧
    Fs.read_file (w_fs w1) "src/modules/userProfile/userProfile.module.ts"
    = inr "export class UserProfileModule {}" ∧
    Fs.read_file (w_fs w2) "src/modules/userProfile/userProfile.module.ts"
    = inr "export class UserProfileModule {}".
Proof.
  refine (generateFile_twice default_config "userProfile" "module"
            module_template (fresh example_fs)
            "export class {{ModuleName}}Module {}"
            (Fs.mkdir_p example_fs "src/modules/userProfile").2
            (Fs.write_file (Fs.mkdir_p example_fs "src/modules/userProfile").2
               "src/modules/userProfile/userProfile.module.ts"
               "export class UserProfileModule {}").2 _ _ _ _ _);
    vm_compute; reflexivity.
Defined.

(** C1 as stated fails for an excluded pair: the schema template is there
    and no schema file of the module [auth] exists, yet both calls report
    [SkippedExcluded] and nothing is written.  It fails as well where the
    directory cannot be made: with a regular file in the way the call
    reports [Failed]. *)
Lemma generateFile_twice_counterexample :
  Fs.read_file example_fs (template_path default_config "schema")
  = inr "collection: '{{module-name}}'" ∧
  Fs.exists_ example_fs (full_path default_config "auth" schema_template)
  = false ∧
  generateFile default_config "auth" "schema" schema_template
    (fresh example_fs)
  = (Ok tt, mkWorld example_fs [] [LogSkipExcluded "schema" "auth"]) ∧
  outcomes [LogSkipExcluded "schema" "auth"]
  ≠ [Generated (full_path default_config "auth" schema_template)] ∧
  Fs.read_file example_fs_blocked (template_path default_config "module")
  = inr "export class {{ModuleName}}Module {}" ∧
  Fs.exists_ example_fs_blocked
    (full_path default_config "users" module_template) = false ∧
  outcomes (w_console (after
     (generateFile default_config "users" "module" module_template)
     (fresh example_fs_blocked)))
  = [Failed (FsError Fs.ENOTDIR "mkdir" "src/modules/users")].
Proof. vm_compute. repeat split; discriminate. Qed.

(** ** An existing destination *)

(** C2 as stated fails: with the destination there and the template
    missing the call reports [Failed], not [SkippedExists]; and with both
    there the template is looked up and read before the destination is
    checked. *)
Lemma generateFile_existing_counterexample :
  Fs.exists_ example_fs_rerun
    (full_path default_config "users" controller_template) = true ∧
  generateFile default_config "users" "controller" controller_template
    (fresh example_fs_rerun)
  = (Ok tt,
     mkWorld example_fs_rerun [EvExists "templates/controller.stub"]
       [ErrGenerating "controller"
          (TemplateNotFound "templates/controller.stub")]) ∧
  Fs.exists_ example_fs_rerun
    (full_path default_config "users" module_template) = true ∧
  generateFile default_config "users" "module" module_template
    (fresh example_fs_rerun)
  = (Ok tt,
     mkWorld example_fs_rerun
       [EvExists "templates/module.stub"; EvReadFile "templates/module.stub";
        EvMkdir "src/modules/users";
        EvExists "src/modules/users/users.module.ts"]
       [LogSkipExists "module" "src/modules/users/users.module.ts"]).
Proof. vm_compute. repeat split. Qed.

(** C2 (amended): let the destination exist, [m] not be excluded for [t],
    the template body be there and the directory creation succeed.  Then
    the call reports [SkippedExists] with the destination's path and
    writes no file: every regular file keeps its content, and what is new
    in the tree is a directory.  The template is looked up and read first
    all the same. *)
Theorem generateFile_existing cfg m t tc w body fs1 :
  Fs.exists_ (w_fs w) (full_path cfg m tc) = true →
  excluded cfg m t = false →
  Fs.read_file (w_fs w) (template_path cfg t) = inr body →
  Fs.mkdir_p (w_fs w) (output_path cfg m tc) = (None, fs1) →
  generateFile cfg m t tc w
  = (Ok tt,
     mkWorld fs1
       (w_trace w ++
          [EvExists (template_path cfg t); EvReadFile (template_path cfg t);
           EvMkdir (output_path cfg m tc); EvExists (full_path cfg m tc)])
       (w_console w ++ [LogSkipExists t (full_path cfg m tc)])) ∧
  outcome_of (LogSkipExists t (full_path cfg m tc))
  = Some (SkippedExists (full_path cfg m tc)) ∧
  (∀ p c, Fs.read_file (w_fs w) p = inr c → Fs.read_file fs1 p = inr c) ∧
  (∀ p n, Fs.nodes fs1 !! p = Some n →
          Fs.nodes (w_fs w) !! p = Some n ∨ n = Fs.Dir).
Proof.
  intros Hpresent Hex Hread Hmk. split; [|split; [done|split]].
  - rewrite (generateFile_not_excluded _ _ _ _ _ Hex). unfold try_catch.
    rewrite (generateFile_try_present _ _ _ _ _ body fs1); [done..|].
    by eapply mkdir_p_exists.
  - intros p c. by eapply mkdir_p_read_file.
  - intros p n Hn. unfold Fs.mkdir_p in Hmk.
    destruct (String.eqb (output_path cfg m tc) ""); [done|].
    injection Hmk as _ <-. cbn [Fs.nodes Fs.with_nodes] in Hn.
    destruct (mkdir_from_adds_dirs _ _ _ _ _ (surjective_pairing _) _ _ Hn)
      as [?|[_ ?]]; eauto.
Qed.

Lemma generateFile_existing_witness :
  generateFile default_config "users" "module" module_template
    (fresh example_fs_rerun)
  = (Ok tt,
     mkWorld example_fs_rerun
       [EvExists "templates/module.stub"; EvReadFile "templates/module.stub";
        EvMkdir "src/modules/users";
        EvExists "src/modules/users/users.module.ts"]
       [LogSkipExists "module" "src/modules/users/users.module.ts"]).
Proof.
  refine (proj1 (generateFile_existing default_config "users" "module"
                   module_template (fresh example_fs_rerun)
                   "export class {{ModuleName}}Module {}"
                   example_fs_rerun _ _ _ _));
    vm_compute; reflexivity.
Defined.

(** ** Global replacement on templates *)

Lemma app_cons c s x : String c s +:+ x = String c (s +:+ x).
Proof. reflexivity. Qed.

Lemma app_assoc_string (a b c : string) : (a +:+ b) +:+ c = a +:+ (b +:+ c).
Proof. induction a as [|x a IH]; [done|]. by rewrite !app_cons, IH. Qed.

Lemma app_empty_r (a : string) : a +:+ "" = a.
Proof. induction a as [|x a IH]; [done|]. by rewrite app_cons, IH. Qed.

Lemma char_free_app c a b :
  char_free c (a +:+ b) = char_free c a && char_free c b.
Proof.
  induction a as [|x a IH]; [done|].
  rewrite app_cons. cbn [char_free]. by rewrite IH, andb_assoc.
Qed.

(** A replacement without dollar sign is inserted as it is. *)
Lemma get_substitution_plain matched b a v :
  char_free "$" v = true → get_substitution matched b a v = v.
Proof.
  induction v as [|c r IH]; [done|].
  cbn [char_free]. intros [Hc Hr]%andb_prop. apply negb_true_iff in Hc.
  cbn [get_substitution]. rewrite Hc. by rewrite IH.
Qed.

Section ReplaceFrom.

Context (tok v : string) (Hv : char_free "$" v = true).

Lemma replace_from_before s :
  ∀ b b' k, replace_from tok v b k s = replace_from tok v b' k s.
Proof.
  induction s as [|c r IH]; intros b b' k; [done|].
  cbn [replace_from]. destruct k as [|k]; [|apply IH].
  rewrite !(get_substitution_plain _ _ _ _ Hv).
  destruct (String.prefix tok (String c r)); f_equal; apply IH.
Qed.

Lemma replace_from_skip r x :
  ∀ b, replace_from tok v b (String.length r) (r +:+ x)
       = replace_from tok v "" 0 x.
Proof.
  induction r as [|c r IH]; intros b.
  - apply replace_from_before.
  - rewrite app_cons. cbn [String.length replace_from]. apply IH.
Qed.

End ReplaceFrom.

Lemma prefix_app (tok x : string) : String.prefix tok (tok +:+ x) = true.
Proof.
  induction tok as [|c r IH]; [by destruct x|].
  rewrite app_cons. cbn [String.prefix]. by destruct (ascii_dec c c).
Qed.

(** An occurrence of the token is replaced and the scan goes on behind it. *)
Lemma replace_from_token c r v b x :
  char_free "$" v = true →
  replace_from (String c r) v b 0 (String c r +:+ x)
  = v +:+ replace_from (String c r) v "" 0 x.
Proof.
  intros Hv. rewrite app_cons. cbn [replace_from].
  rewrite <- app_cons, prefix_app, app_cons.
  rewrite (get_substitution_plain _ _ _ _ Hv). f_equal.
  replace (String.length (String c r) - 1) with (String.length r)
    by (cbn [String.length]; lia).
  by apply replace_from_skip.
Qed.

Lemma prefix_token_head q c r :
  Ascii.eqb c "{" = false → String.prefix (token q) (String c r) = false.
Proof.
  intros Hc. apply Ascii.eqb_neq in Hc.
  destruct q; cbn [token String.prefix];
    by destruct (ascii_dec "{" c) as [<-|].
Qed.

Lemma prefix_token_second q c d r :
  Ascii.eqb d "{" = false →
  String.prefix (token q) (String c (String d r)) = false.
Proof.
  intros Hd. apply Ascii.eqb_neq in Hd.
  destruct q; cbn [token String.prefix];
    destruct (ascii_dec "{" c); try done;
    by destruct (ascii_dec "{" d) as [<-|].
Qed.

Lemma char_free_brace_safe s : char_free "{" s = true → brace_safe s = true.
Proof.
  induction s as [|c r IH]; [done|].
  cbn [char_free brace_safe]. intros [Hc%negb_true_iff Hr]%andb_prop.
  by rewrite Hc, IH.
Qed.

Lemma replace_from_unfold tok v b c r :
  replace_from tok v b 0 (String c r)
  = if String.prefix tok (String c r)
    then get_substitution tok b
           (drop_chars (String.length tok) (String c r)) v
         +:+ replace_from tok v (b +:+ String c "") (String.length tok - 1) r
    else String c (replace_from tok v (b +:+ String c "") 0 r).
Proof. reflexivity. Qed.

(** Text without a token in it is copied. *)
Lemma replace_from_text q v s x :
  char_free "$" v = true →
  brace_safe s = true →
  ∀ b, replace_from (token q) v b 0 (s +:+ x)
       = s +:+ replace_from (token q) v "" 0 x.
Proof.
  intros Hv. induction s as [|c r IH]; intros Hs b.
  - by apply replace_from_before.
  - cbn [brace_safe] in Hs. apply andb_prop in Hs as [Hc Hr].
    rewrite !app_cons, replace_from_unfold.
    assert (String.prefix (token q) (String c (r +:+ x)) = false) as ->.
    { destruct (Ascii.eqb c "{") eqn:Hbrace; [|by apply prefix_token_head].
      destruct r as [|d r']; [done|].
      rewrite app_cons. apply prefix_token_second. by apply negb_true_iff. }
    f_equal. by apply IH.
Qed.

(** Another placeholder is copied as well. *)
Lemma replace_from_other_token q p v b x :
  char_free "$" v = true →
  p ≠ q →
  replace_from (token q) v b 0 (token p +:+ x)
  = token p +:+ replace_from (token q) v "" 0 x.
Proof.
  intros Hv Hpq.
  destruct q, p; try done; cbn [token]; rewrite ?app_cons;
    cbn -[String.app]; do 20 (try f_equal); by apply replace_from_before.
Qed.

Lemma token_cons q : ∃ r, token q = String "{" r.
Proof. destruct q; eexists; reflexivity. Qed.

Lemma replace_from_same_token q v b x :
  char_free "$" v = true →
  replace_from (token q) v b 0 (token q +:+ x)
  = v +:+ replace_from (token q) v "" 0 x.
Proof.
  intros Hv. destruct (token_cons q) as [r ->]. by apply replace_from_token.
Qed.

(** One replacement of the renderer, on a template in pieces: the holes
    spelled with the token [q] get the value, everything else stays. *)
Lemma replace_all_assemble q v fill pieces :
  char_free "$" v = true →
  fill q = token q →
  (∀ p, p ≠ q → fill p = token p ∨ char_free "{" (fill p) = true) →
  forallb plain pieces = true →
  replace_all (token q) v (assemble fill pieces)
  = assemble (fill_with q v fill) pieces.
Proof.
  intros Hv Hq Hfill. unfold replace_all. generalize EmptyString as b.
  induction pieces as [|[s|p] rest IH]; intros b Hplain; [done|..];
    cbn [forallb plain] in Hplain; apply andb_prop in Hplain as [Hs Hrest];
    cbn [assemble]; specialize (IH EmptyString Hrest).
  - rewrite replace_from_text by done. by rewrite IH.
  - unfold fill_with at 1. destruct (decide (p = q)) as [->|Hpq].
    + rewrite Hq, replace_from_same_token by done. by rewrite IH.
    + destruct (Hfill p Hpq) as [->|Hfree].
      * rewrite replace_from_other_token by done. by rewrite IH.
      * rewrite replace_from_text by (by try apply char_free_brace_safe).
        by rewrite IH.
Qed.

Lemma assemble_ext fill fill' pieces :
  (∀ p, fill p = fill' p) → assemble fill pieces = assemble fill' pieces.
Proof.
  intros Heq. induction pieces as [|[s|p] rest IH]; cbn [assemble]; [done|..].
  - by rewrite IH.
  - by rewrite Heq, IH.
Qed.

(** ** The forms of a name keep it free of [$] and of opening braces *)

Lemma case_mappings_keep_marks d :
  Ascii.eqb (upper_char d) "$" = Ascii.eqb d "$" ∧
  Ascii.eqb (upper_char d) "{" = Ascii.eqb d "{" ∧
  Ascii.eqb (lower_char d) "$" = Ascii.eqb d "$" ∧
  Ascii.eqb (lower_char d) "{" = Ascii.eqb d "{".
Proof. destruct d as [[] [] [] [] [] [] [] []]; vm_compute; done. Qed.

Lemma char_free_map_chars c f s :
  (∀ d, Ascii.eqb (f d) c = Ascii.eqb d c) →
  char_free c (map_chars f s) = char_free c s.
Proof.
  intros Hf. induction s as [|d r IH]; [done|].
  cbn [map_chars char_free]. by rewrite Hf, IH.
Qed.

Lemma char_free_case_boundary c sep :
  char_free c sep = true →
  ∀ (n : nat) (s : string), (String.length s ≤ n)%nat → char_free c s = true →
         char_free c (replace_case_boundary sep s) = true.
Proof.
  intros Hsep. induction n as [|n IH]; intros s Hlen Hs.
  - destruct s; [done|]. cbn [String.length] in Hlen. lia.
  - destruct s as [|c1 [|c2 r']]; [done..|].
    cbn [char_free String.length] in *.
    apply andb_prop in Hs as [Hc1 Hr]. pose proof Hr as Hr0.
    apply andb_prop in Hr as [Hc2 Hr'].
    cbn [replace_case_boundary].
    destruct (is_lower c1 && is_upper c2).
    + cbn [char_free]. rewrite Hc1, char_free_app, Hsep. cbn [char_free andb].
      rewrite Hc2. cbn [andb]. apply IH; [lia|done].
    + cbn [char_free]. rewrite Hc1. cbn [andb].
      apply (IH (String c2 r')); [cbn [String.length]; lia|done].
Qed.

Lemma variant_marks_free c p m :
  c = "$"%char ∨ c = "{"%char →
  char_free c m = true → char_free c (variant p m) = true.
Proof.
  intros Hc Hm.
  assert (∀ d, Ascii.eqb (upper_char d) c = Ascii.eqb d c) as Hup
    by (intros d; destruct Hc as [->| ->]; apply (case_mappings_keep_marks d)).
  assert (∀ d, Ascii.eqb (lower_char d) c = Ascii.eqb d c) as Hlow
    by (intros d; destruct Hc as [->| ->]; apply (case_mappings_keep_marks d)).
  destruct p; cbn [variant]; [done|..].
  - destruct m as [|d r]; [done|]. rewrite toPascalCase_cons.
    cbn [char_free] in *. by rewrite Hup.
  - unfold toSnakeCase, toLowerCase. rewrite char_free_map_chars by done.
    eapply char_free_case_boundary; [|done..].
    by destruct Hc as [->| ->].
  - unfold toKebabCase, toLowerCase. rewrite char_free_map_chars by done.
    eapply char_free_case_boundary; [|done..].
    by destruct Hc as [->| ->].
  - destruct m as [|d r]; [done|]. rewrite toCamelCase_cons.
    cbn [char_free] in *. by rewrite Hlow.
  - unfold toUpperCase. by rewrite char_free_map_chars.
Qed.

(** The renderer on a template in pieces: every hole gets the form of the
    name that belongs to its token, the text between stays. *)
Lemma render_assemble m pieces :
  char_free "$" m = true →
  char_free "{" m = true →
  forallb plain pieces = true →
  render (assemble token pieces) m = assemble (λ p, variant p m) pieces.
Proof.
  intros Hdollar Hbrace Hplain.
  pose proof (λ p, variant_marks_free "$" p m (or_introl eq_refl) Hdollar) as Hd.
  pose proof (λ p, variant_marks_free "{" p m (or_intror eq_refl) Hbrace) as Hb.
  unfold render, replacements, placeholders. cbn [fmap list_fmap foldl fst snd].
  repeat (rewrite replace_all_assemble;
    [ | by apply Hd | reflexivity
      | by (intros [] Hne; try done; unfold fill_with;
            repeat (case_decide; try done); (by left) || (right; apply Hb))
      | done ]).
  apply assemble_ext. by intros [].
Qed.

(** ** Rendering *)

Example variants_userProfile p : variant p "userProfile" = userProfile_forms p.
Proof. by destruct p. Qed.

(** C5: in a template made of text and of the six placeholder tokens, in
    any order and any number of times, where the text has no two opening
    braces in a row and does not end with one, rendering for
    the module name [userProfile] puts [userProfile] for the canonical
    token, [UserProfile] for the Pascal one, [userProfile] for the camel
    one, [user-profile] for the kebab one, [user_profile] for the snake one
    and [USERPROFILE] for the upper-snake one, at every occurrence, and
    leaves the text as it is. *)
Theorem render_userProfile pieces :
  forallb plain pieces = true →
  render (assemble token pieces) "userProfile"
  = assemble userProfile_forms pieces.
Proof.
  intros Hplain. rewrite render_assemble by done.
  apply assemble_ext, variants_userProfile.
Qed.

Lemma render_userProfile_witness :
  render
    "import { {{ModuleName}}Service } from './{{module-name}}.service'; // {{moduleName}} {{module_name}} {{camelModuleName}} {{MODULE_NAME}} {{ModuleName}}{{moduleName}}"
    "userProfile"
  = "import { UserProfileService } from './user-profile.service'; // userProfile user_profile userProfile USERPROFILE UserProfileuserProfile".
Proof.
  change (render (assemble token example_template) "userProfile"
          = assemble userProfile_forms example_template).
  apply render_userProfile. vm_compute. reflexivity.
Defined.

(** ** [path.join] of a joined path *)

Import Path.

Lemma split_slash_nonempty s : split_slash s ≠ [].
Proof.
  destruct s as [|c r]; [done|]. cbn [split_slash].
  destruct (Ascii.eqb c "/"); [done|]. by destruct (split_slash r).
Qed.

Lemma split_slash_app a b :
  split_slash (a +:+ String "/" b) = split_slash a ++ split_slash b.
Proof.
  induction a as [|c a IH]; [done|].
  rewrite app_cons. cbn [split_slash]. rewrite IH.
  destruct (Ascii.eqb c "/"); [done|].
  pose proof (split_slash_nonempty a). by destruct (split_slash a).
Qed.

Lemma split_slash_free s : char_free "/" s = true → split_slash s = [s].
Proof.
  induction s as [|c r IH]; [done|].
  cbn [char_free split_slash]. intros [Hc%negb_true_iff Hr]%andb_prop.
  by rewrite Hc, IH.
Qed.

Lemma split_slash_segments s : Forall (λ seg, char_free "/" seg = true) (split_slash s).
Proof.
  induction s as [|c r IH]; [by repeat constructor|].
  cbn [split_slash]. destruct (Ascii.eqb c "/") eqn:Hc; [by constructor|].
  pose proof (split_slash_nonempty r).
  destruct (split_slash r) as [|seg segs]; [done|].
  inversion_clear IH. constructor; [|done]. cbn [char_free]. by rewrite Hc.
Qed.

Lemma split_join_slash segs :
  segs ≠ [] → Forall (λ seg, char_free "/" seg = true) segs →
  split_slash (join_slash segs) = segs.
Proof.
  induction segs as [|a [|b rest] IH]; intros Hne Hfree; [done|..].
  - inversion_clear Hfree. by apply split_slash_free.
  - inversion_clear Hfree as [|? ? Ha Hrest].
    change (join_slash (a :: b :: rest))
      with (a +:+ String "/" (join_slash (b :: rest))).
    rewrite split_slash_app, split_slash_free, IH by done. done.
Qed.

Lemma normalize_segments_app allow l1 l2 : ∀ stack,
  normalize_segments allow stack (l1 ++ l2)
  = normalize_segments allow (rev (normalize_segments allow stack l1)) l2.
Proof.
  induction l1 as [|seg l1 IH]; intros stack.
  - cbn [app normalize_segments]. by rewrite rev_involutive.
  - cbn [app normalize_segments].
    repeat case_match; apply IH.
Qed.

Lemma normal_stack_dots allow stack :
  forallb (String.eqb "..") stack = true →
  allow = true ∨ stack = [] → normal_stack allow stack = true.
Proof.
  destruct stack as [|top below]; [done|]. cbn [forallb normal_stack].
  intros [Htop Hbelow]%andb_prop [->|?]; [|done].
  apply String.eqb_eq in Htop as <-. by rewrite Hbelow.
Qed.

Lemma normalize_segments_normal allow segs : ∀ stack,
  Forall (λ seg, char_free "/" seg = true) segs →
  normal_stack allow stack = true →
  ∃ stack', normalize_segments allow stack segs = rev stack' ∧
            normal_stack allow stack' = true.
Proof.
  induction segs as [|seg segs IH]; intros stack Hfree Hstack; [by eauto|].
  inversion_clear Hfree as [|? ? Hseg Hsegs].
  cbn [normalize_segments].
  destruct (String.eqb_spec seg "") as [->|Hne]; [by apply IH|].
  destruct (String.eqb_spec seg ".") as [->|Hdot]; [by apply IH|].
  cbn [orb].
  destruct (String.eqb_spec seg "..") as [->|Hdots].
  - destruct stack as [|top below].
    + apply IH; [done|]. by destruct allow.
    + cbn [normal_stack] in Hstack.
      destruct (String.eqb_spec top "..") as [->|Htop].
      * apply IH; [done|]. apply andb_prop in Hstack as [-> Hbelow].
        apply normal_stack_dots; [|by left].
        cbn [forallb]. by rewrite !String.eqb_refl, Hbelow.
      * apply IH; [done|]. by apply andb_prop in Hstack as [_ ?].
  - apply IH; [done|]. cbn [normal_stack].
    apply String.eqb_neq in Hne, Hdot, Hdots.
    unfold proper. by rewrite Hdots, Hne, Hdot, Hseg, Hstack.
Qed.

Lemma normal_stack_below allow top below :
  normal_stack allow (top :: below) = true → normal_stack allow below = true.
Proof.
  cbn [normal_stack]. destruct (String.eqb top "..").
  - intros [-> Hbelow]%andb_prop. apply normal_stack_dots; eauto.
  - by intros [_ ?]%andb_prop.
Qed.

(** Normalizing what is normal changes nothing. *)
Lemma normalize_segments_idem allow stack :
  normal_stack allow stack = true →
  normalize_segments allow [] (rev stack) = rev stack.
Proof.
  induction stack as [|top below IH]; intros Hstack; [done|].
  cbn [rev]. rewrite normalize_segments_app.
  rewrite IH by by eapply normal_stack_below. rewrite rev_involutive.
  cbn [normal_stack] in Hstack. cbn [normalize_segments].
  destruct (String.eqb_spec top "..") as [->|Htop].
  - apply andb_prop in Hstack as [-> Hbelow]. cbn.
    destruct below as [|top' below']; [done|].
    cbn [forallb] in Hbelow. apply andb_prop in Hbelow as [Htop' _].
    apply String.eqb_eq in Htop' as <-. done.
  - apply andb_prop in Hstack as [Hproper _]. unfold proper in Hproper.
    repeat (apply andb_prop in Hproper as [Hproper ?]).
    apply negb_true_iff in Hproper.
    repeat match goal with H : negb _ = true |- _ => apply negb_true_iff in H end.
    rewrite Hproper. by repeat match goal with H : _ = false |- _ => rewrite H end.
Qed.

Lemma normal_stack_segments allow stack :
  normal_stack allow stack = true →
  Forall (λ seg, String.eqb seg "" = false ∧ char_free "/" seg = true) stack.
Proof.
  induction stack as [|top below IH]; intros Hstack; [done|].
  constructor; [|by eapply IH, normal_stack_below].
  cbn [normal_stack] in Hstack.
  destruct (String.eqb_spec top "..") as [->|_]; [done|].
  apply andb_prop in Hstack as [Hproper _]. unfold proper in Hproper.
  repeat (apply andb_prop in Hproper as [Hproper ?]).
  by apply negb_true_iff in Hproper.
Qed.

Lemma join_slash_cons2 a b rest :
  join_slash (a :: b :: rest) = a +:+ String "/" (join_slash (b :: rest)).
Proof. reflexivity. Qed.

Lemma app_empty_l (a : string) : "" +:+ a = a.
Proof. reflexivity. Qed.

Lemma app_eq_empty (a b : string) : a +:+ b = "" → a = "".
Proof. by destruct a. Qed.

Lemma join_slash_empty segs :
  Forall (λ seg, String.eqb seg "" = false) segs →
  join_slash segs = "" → segs = [].
Proof.
  destruct segs as [|a [|b rest]]; [done|..]; intros Hne Hjoin;
    inversion_clear Hne as [|? ? Ha _]; apply String.eqb_neq in Ha.
  - done.
  - rewrite join_slash_cons2 in Hjoin. by apply app_eq_empty in Hjoin.
Qed.

Lemma join_slash_snoc parts x :
  parts ≠ [] → join_slash (parts ++ [x]) = join_slash parts +:+ String "/" x.
Proof.
  induction parts as [|a [|b rest] IH]; intros Hne; [done|done|].
  change ((a :: b :: rest) ++ [x]) with (a :: b :: (rest ++ [x])).
  rewrite !join_slash_cons2, app_assoc_string, app_cons.
  f_equal. f_equal. by apply (IH ltac:(done)).
Qed.

Lemma is_absolute_cons c r : is_absolute (String c r) = Ascii.eqb c "/".
Proof.
  unfold is_absolute. cbn [String.prefix].
  destruct (ascii_dec "/" c) as [<-|Hne]; [by destruct r|].
  symmetry. apply Ascii.eqb_neq. congruence.
Qed.

Lemma is_absolute_app p x : p ≠ "" → is_absolute (p +:+ x) = is_absolute p.
Proof. destruct p as [|c r]; [done|]. intros _. by rewrite app_cons, !is_absolute_cons. Qed.

Lemma ends_with_slash_app a c y :
  ends_with_slash (a +:+ String c y) = ends_with_slash (String c y).
Proof.
  induction a as [|d a IH]; [done|].
  rewrite <- IH. by destruct a.
Qed.

Section Normalize.

Context (p : string).

Local Abbreviation allow := (negb (is_absolute p)).
Local Abbreviation segments := (normalize_segments allow [] (split_slash p)).

Lemma normalize_cases :
p ≠ "" →
(segments = [] ∧
 normalize p = if is_absolute p then "/"
               else if ends_with_slash p then "./" else ".") ∨
(segments ≠ [] ∧
 Forall (λ seg, String.eqb seg "" = false ∧ char_free "/" seg = true) segments ∧
 normalize_segments allow [] segments = segments ∧
 normalize p = (if is_absolute p then "/" else "")
               +:+ join_slash segments
               +:+ (if ends_with_slash p then "/" else "")).
Proof.
intros Hp. unfold normalize.
destruct (String.eqb_spec p "") as [|_]; [done|].
destruct (normalize_segments_normal allow (split_slash p) [])
  as (stack & Hsegs & Hnormal); [apply split_slash_segments|done|].
pose proof (normal_stack_segments _ _ Hnormal) as Hfree.
apply Forall_rev in Hfree. rewrite <- Hsegs in Hfree.
destruct (String.eqb_spec (join_slash segments) "") as [Hbody|Hbody].
- left. split; [|done]. apply join_slash_empty; [|done].
  eapply Forall_impl; [done|]. by intros ? [? _].
- right. split; [by intros Hnil; rewrite Hnil in Hbody|].
  split; [done|]. split; [|done].
  rewrite Hsegs. by apply normalize_segments_idem.
Qed.

Lemma normalize_nonempty : normalize p ≠ "".
Proof.
destruct (String.eqb_spec p "") as [->|Hp]; [done|].
destruct (normalize_cases Hp) as [[_ ->]|(Hne & Hfree & _ & ->)].
- by repeat case_match.
- set (S := segments) in *. clearbody S.
  destruct S as [|a rest]; [done|].
  inversion_clear Hfree as [|? ? [Ha%String.eqb_neq _] _].
  destruct a as [|c a]; [done|].
  destruct rest; by repeat case_match.
Qed.

Lemma is_absolute_normalize : is_absolute (normalize p) = is_absolute p.
Proof.
destruct (String.eqb_spec p "") as [->|Hp]; [done|].
destruct (normalize_cases Hp) as [[_ ->]|(Hne & Hfree & _ & ->)].
- by repeat case_match.
- set (S := segments) in *. clearbody S.
  destruct (is_absolute p); [by rewrite app_cons, is_absolute_cons|].
  destruct S as [|a rest]; [done|].
  inversion_clear Hfree as [|? ? [Ha%String.eqb_neq Hslash] _].
  destruct a as [|c a]; [done|].
  cbn [char_free] in Hslash. apply andb_prop in Hslash as [Hc%negb_true_iff _].
  destruct rest; [cbn [join_slash]|rewrite join_slash_cons2];
    by rewrite app_empty_l, !app_cons, is_absolute_cons.
Qed.

(** The normalized path has the segments of the path. *)
Lemma normalize_segments_normalize :
normalize_segments allow [] (split_slash (normalize p)) = segments.
Proof.
destruct (String.eqb_spec p "") as [->|Hp]; [done|].
destruct (normalize_cases Hp) as [[-> ->]|(Hne & Hfree & Hidem & ->)].
- by repeat case_match.
- assert (split_slash (join_slash segments) = segments) as Hsplit.
  { apply split_join_slash; [done|].
    eapply Forall_impl; [done|]. by intros ? [_ ?]. }
  assert (∀ post,
    normalize_segments allow []
      (split_slash (join_slash segments +:+ (if post : bool then "/" else "")))
    = segments) as Hpost.
  { intros [|].
    - rewrite split_slash_app, Hsplit, normalize_segments_app, Hidem.
      cbn. by rewrite rev_involutive.
    - by rewrite app_empty_r, Hsplit. }
  set (S := segments) in *. set (a := allow) in *. clearbody S a.
  destruct (is_absolute p); [|apply Hpost].
  rewrite app_cons. cbn [split_slash Ascii.eqb].
  change (Ascii.eqb "/" "/") with true. cbn iota.
  cbn [normalize_segments String.eqb orb]. apply Hpost.
Qed.

End Normalize.

(** Joining onto a normalized path is joining onto the path. *)
Lemma normalize_normalize_app p y :
  p ≠ "" →
  normalize (normalize p +:+ String "/" y) = normalize (p +:+ String "/" y).
Proof.
  intros Hp. pose proof (normalize_nonempty p) as Hq.
  unfold normalize at 1 3.
  destruct (String.eqb_spec (normalize p +:+ String "/" y) "")
    as [Habs%app_eq_empty|_]; [done|].
  destruct (String.eqb_spec (p +:+ String "/" y) "")
    as [Habs%app_eq_empty|_]; [done|].
  rewrite !is_absolute_app, is_absolute_normalize, !ends_with_slash_app by done.
  rewrite !split_slash_app, !normalize_segments_app.
  by rewrite normalize_segments_normalize.
Qed.

Lemma join_slash_nonempty parts :
  parts ≠ [] → Forall (λ a, a ≠ "") parts → join_slash parts ≠ "".
Proof.
  destruct parts as [|a [|b rest]]; [done|..]; intros _ Hne;
    inversion_clear Hne as [|? ? Ha _]; [done|].
  rewrite join_slash_cons2. by intros ?%app_eq_empty.
Qed.

Lemma join_nonempty args : join args ≠ "".
Proof.
  unfold join. destruct (filter _ args); [done|]. apply normalize_nonempty.
Qed.

Lemma join_snoc args x :
  filter (λ a, a ≠ "") args ≠ [] → x ≠ "" →
  join [join args; x] = join (args ++ [x]).
Proof.
  intros Hargs Hx. pose proof (join_nonempty args) as Hjoin.
  unfold join at 1 3.
  rewrite filter_app, !filter_cons_True, !filter_nil by done.
  unfold join.
  assert (Forall (λ a, a ≠ "") (filter (λ a, a ≠ "") args)) as Hparts
    by (apply Forall_forall; by intros a [? _]%list_elem_of_filter).
  destruct (filter (λ a, a ≠ "") args) as [|a parts] eqn:Hfilter; [done|].
  pose proof (join_slash_nonempty (a :: parts) ltac:(done) Hparts) as Hne.
  change (join_slash [normalize (join_slash (a :: parts)); x])
    with (normalize (join_slash (a :: parts)) +:+ String "/" x).
  rewrite normalize_normalize_app by done.
  rewrite <- join_slash_snoc by done. done.
Qed.

(** ** OutputResolver *)

(** C6 as stated fails: in a file name only the canonical token is
    replaced, so a pattern with the Pascal-case token keeps it, where the
    renderer would put the name.  And the name is a replacement string: a
    [$&] in it brings the token back. *)
Lemma output_filename_counterexample :
  output_filename "orders" entity_template = "{{ModuleName}}.entity.ts" ∧
  render "{{ModuleName}}.entity.ts" "orders" = "Orders.entity.ts" ∧
  output_filename "orders" entity_template
  ≠ render "{{ModuleName}}.entity.ts" "orders" ∧
  output_filename "a$&" create_dto_template = "create-a{{moduleName}}.dto.ts".
Proof. vm_compute. repeat split; discriminate. Qed.

Lemma output_path_join cfg m tc :
  output_path cfg m tc
  = Path.join (outputDir cfg :: m ::
                 match outputPath tc with Some sub => [sub] | None => [] end).
Proof.
  unfold output_path. destruct (outputPath tc) as [sub|]; [|done].
  cbn [truthy default]. destruct (String.eqb_spec sub "") as [->|Hsub]; [|done].
  unfold Path.join.
  change [outputDir cfg; m; ""] with ([outputDir cfg; m] ++ [""]).
  rewrite filter_app, (filter_cons_False _ "") by (intros H; by apply H).
  by rewrite filter_nil, app_nil_r.
Qed.

(** The destination as one [path.join] *)
Lemma full_path_join cfg m tc :
  m ≠ "" → output_filename m tc ≠ "" →
  full_path cfg m tc
  = Path.join (outputDir cfg :: m ::
                 match outputPath tc with Some sub => [sub] | None => [] end
                 ++ [output_filename m tc]).
Proof.
  intros Hm Hname. unfold full_path. rewrite output_path_join.
  rewrite join_snoc; [done| |done].
  destruct (decide (outputDir cfg = "")) as [->|Hdir].
  - rewrite filter_cons_False by (intros H; by apply H).
    by rewrite filter_cons_True.
  - by rewrite filter_cons_True.
Qed.

(** C6 (amended): the destination directory is [path.join] of the output
    directory, the module name and the descriptor's subdirectory when it
    has one, and the destination is [path.join] of these and the file name
    (for a module name and a file name that are not empty).  The file
    name is the descriptor's pattern, when it has one that is not empty,
    with every occurrence of the canonical token [{{moduleName}}] replaced
    by the module name (a name without [$]) and the five other tokens left
    as they are; otherwise it is the module name, a dot and the
    extension.  With the subdirectory [dto] and the pattern
    [create-{{moduleName}}.dto.ts] the module [orders] goes to
    [create-orders.dto.ts] in [dto] in [orders] in the output directory. *)
Theorem output_location cfg m tc :
  output_path cfg m tc
  = Path.join (outputDir cfg :: m ::
                 match outputPath tc with Some sub => [sub] | None => [] end) ∧
  (m ≠ "" → output_filename m tc ≠ "" →
     full_path cfg m tc
     = Path.join (outputDir cfg :: m ::
                    match outputPath tc with Some sub => [sub] | None => [] end
                    ++ [output_filename m tc])) ∧
  (∀ pieces,
     filename tc = Some (assemble token pieces) →
     assemble token pieces ≠ "" →
     forallb plain pieces = true →
     char_free "$" m = true →
     output_filename m tc = assemble (fill_with P_moduleName m token) pieces) ∧
  (filename tc = None ∨ filename tc = Some "" →
     output_filename m tc = m +:+ "." +:+ extension tc) ∧
  full_path cfg "orders" create_dto_template
  = Path.join [outputDir cfg; "orders"; "dto"; "create-orders.dto.ts"].
Proof.
  split; [apply output_path_join|]. split; [apply full_path_join|].
  split; [|split].
  - intros pieces Hname Hne Hplain Hm. unfold output_filename.
    rewrite Hname. cbn [truthy default].
    destruct (String.eqb_spec (assemble token pieces) "") as [|_]; [done|].
    cbn [negb]. apply (replace_all_assemble P_moduleName); [done..| |done].
    intros p _. by left.
  - unfold output_filename. by intros [-> | ->].
  - by apply (full_path_join cfg "orders" create_dto_template).
Qed.

Lemma output_location_witness :
  output_filename "orders" create_dto_template = "create-orders.dto.ts" ∧
  output_filename "orders" module_template = "orders.module.ts" ∧
  full_path default_config "orders" module_template
  = "src/modules/orders/orders.module.ts".
Proof.
  split; [|split].
  - refine (proj1 (proj2 (proj2 (output_location default_config "orders"
                                   create_dto_template)))
              [Text "create-"; Hole P_moduleName; Text ".dto.ts"] _ _ _ _);
      (reflexivity || discriminate).
  - apply (proj1 (proj2 (proj2 (proj2 (output_location default_config "orders"
                                         module_template))))).
    by left.
  - transitivity (Path.join ["./src/modules"; "orders"; "orders.module.ts"]);
      [|reflexivity].
    apply (proj1 (proj2 (output_location default_config "orders"
                           module_template))); discriminate.
Defined.

(** The example of the specification, for the built-in output directory
    and for an absolute one: [path.join] drops the leading [./]. *)
Example full_path_orders_create_dto :
  full_path default_config "orders" create_dto_template
  = "src/modules/orders/dto/create-orders.dto.ts" ∧
  full_path (mkConfig "./templates" "/srv/out" default_templates ∅)
    "orders" create_dto_template
  = "/srv/out/orders/dto/create-orders.dto.ts".
Proof. split; reflexivity. Qed.

(** ** The built-in configuration on the module [auth] *)

(** With a body for every template, the module [auth] gets its module,
    controller and service files, and the three templates that exclude it
    are skipped. *)
Example generateModule_auth :
  outcomes (w_console (after (generateModule default_config "auth")
                         (fresh example_fs_store)))
  = [ Generated "src/modules/auth/auth.module.ts";
      Generated "src/modules/auth/auth.controller.ts";
      Generated "src/modules/auth/auth.service.ts";
      SkippedExcluded; SkippedExcluded; SkippedExcluded ] ∧
  Fs.read_file (w_fs (after (generateModule default_config "auth")
                        (fresh example_fs_store)))
    "src/modules/auth/auth.controller.ts"
  = inr "AuthController".
Proof. vm_compute. split; reflexivity. Qed.

(** * Further properties *)

(** ** What a run leaves alone *)

Lemma extends_refl fs : extends fs fs.
Proof. by split. Qed.

Lemma extends_trans fs1 fs2 fs3 :
  extends fs1 fs2 → extends fs2 fs3 → extends fs1 fs3.
Proof.
  intros [Hc1 Hn1] [Hc2 Hn2]. split; [congruence|]. by etrans.
Qed.

Lemma extends_resolve fs fs' p :
  extends fs fs' → Fs.resolve fs' p = Fs.resolve fs p.
Proof. intros [Hcwd _]. unfold Fs.resolve. by rewrite Hcwd. Qed.

Lemma extends_read_file fs fs' p c :
  extends fs fs' → Fs.read_file fs p = inr c → Fs.read_file fs' p = inr c.
Proof.
  intros Hext [Hp [Hne Hnode]%node_at_file]%read_file_inr.
  apply read_file_inr. split; [done|].
  rewrite (extends_resolve _ _ _ Hext). apply node_at_file. split; [done|].
  destruct Hext as [_ Hsub]. by eapply lookup_weaken.
Qed.

Lemma extends_exists fs fs' p :
  extends fs fs' → Fs.exists_ fs p = true → Fs.exists_ fs' p = true.
Proof.
  intros Hext [Hp [n Hnode]]%exists_true_iff.
  apply exists_true_iff. split; [done|].
  rewrite (extends_resolve _ _ _ Hext).
  destruct (Fs.resolve fs p) as [|s q]; [by eauto|].
  exists n. cbn [Fs.node_at] in *.
  destruct Hext as [_ Hsub]. by eapply lookup_weaken.
Qed.

Lemma mkdir_p_extends fs dir : extends fs (Fs.mkdir_p fs dir).2.
Proof.
  unfold Fs.mkdir_p. destruct (String.eqb dir ""); [apply extends_refl|].
  split; [done|]. cbn [snd Fs.nodes Fs.with_nodes].
  apply map_subseteq_spec. intros key n Hkey.
  eapply mkdir_from_preserves; [apply surjective_pairing|done].
Qed.

Lemma write_file_extends fs p c :
  Fs.exists_ fs p = false → extends fs (Fs.write_file fs p c).2.
Proof.
  intros Habsent. unfold Fs.write_file.
  destruct (String.eqb_spec p "") as [->|Hp]; [apply extends_refl|].
  apply exists_false_iff in Habsent as [?|Hnone]; [done|].
  rewrite Hnone.
  destruct (Fs.node_at (Fs.nodes fs) (Fs.parent (Fs.resolve fs p)))
    as [[?|]|]; try apply extends_refl.
  split; [done|]. cbn [snd Fs.nodes Fs.with_nodes].
  apply insert_subseteq. by apply node_at_none.
Qed.

Section Grows.

Context {A B : Type}.

Lemma grows_ret (a : A) : grows (mret a : M A).
Proof. intros w. apply extends_refl. Qed.

Lemma grows_throw e : grows (throw e : M A).
Proof. intros w. apply extends_refl. Qed.

Lemma grows_bind (m : M A) (k : A → M B) :
  grows m → (∀ a, grows (k a)) → grows (m ≫= k).
Proof.
  intros Hm Hk w. specialize (Hm w). unfold after, mbind, M_bind in *.
  destruct (m w) as [[a|e] w1]; [|done].
  eapply extends_trans; [done|]. apply (Hk a w1).
Qed.

Lemma grows_try_catch (body : M A) (handler : js_error → M A) :
  grows body → (∀ e, grows (handler e)) → grows (try_catch body handler).
Proof.
  intros Hbody Hhandler w. specialize (Hbody w). unfold after, try_catch in *.
  destruct (body w) as [[a|e] w1]; [done|].
  eapply extends_trans; [done|]. apply (Hhandler e w1).
Qed.

(** The test that guards every write: the file is written only where
    nothing exists. *)
Lemma grows_write_if_absent p c (k1 k2 : M A) :
  grows k1 → grows k2 →
  grows (present ← existsSync p;
         if present : bool then k1 else writeFileSync p c;; k2).
Proof.
  intros Hk1 Hk2 w. unfold after, mbind, M_bind, existsSync, writeFileSync.
  cbn -[Fs.write_file Fs.exists_ extends].
  destruct (Fs.exists_ (w_fs w) p) eqn:Habsent; [apply (Hk1 (traced _ w))|].
  cbn -[Fs.write_file extends].
  pose proof (write_file_extends (w_fs w) p c Habsent) as Hwr.
  destruct (Fs.write_file (w_fs w) p c) as [[code|] fs2];
    cbn [fst snd w_fs with_fs traced] in *; [done|].
  eapply extends_trans; [done|]. apply (Hk2 (mkWorld fs2 _ _)).
Qed.

End Grows.

Lemma grows_console l : grows (console l).
Proof. intros w. apply extends_refl. Qed.

Lemma grows_existsSync p : grows (existsSync p).
Proof. intros w. apply extends_refl. Qed.

Lemma grows_readFileSync p : grows (readFileSync p).
Proof. intros w. apply extends_refl. Qed.

Lemma grows_mkdirSync p : grows (mkdirSync p).
Proof. intros w. apply (mkdir_p_extends (w_fs w) p). Qed.

Lemma grows_for_each {A} (f : A → M unit) (l : list A) :
  (∀ x, grows (f x)) → grows (for_each f l).
Proof.
  intros Hf. induction l as [|x l IH]; [apply grows_ret|].
  cbn [for_each]. apply grows_bind; [apply Hf|done].
Qed.

Lemma grows_processTemplate cfg t m : grows (processTemplate cfg t m).
Proof.
  unfold processTemplate. apply grows_bind; [apply grows_existsSync|].
  intros [|]; cbn [negb]; [|apply grows_throw].
  apply grows_bind; [apply grows_readFileSync|]. intros c. apply grows_ret.
Qed.

Lemma grows_returning {A} (r : result A) : grows (returning r).
Proof. intros w. apply extends_refl. Qed.

Lemma grows_generateFile cfg m t tc : grows (generateFile cfg m t tc).
Proof.
  unfold generateFile. apply grows_bind; [apply grows_returning|]. intros skip.
  destruct (to_boolean skip); [apply grows_console|].
  apply grows_try_catch; [|intros e; apply grows_console].
  unfold generateFile_try.
  apply grows_bind; [apply grows_processTemplate|]. intros content.
  apply grows_bind; [apply grows_mkdirSync|]. intros _.
  apply grows_write_if_absent; apply grows_console.
Qed.

Lemma grows_generateModule cfg m : grows (generateModule cfg m).
Proof.
  unfold generateModule. apply grows_bind; [apply grows_console|]. intros _.
  apply grows_for_each. intros [t tc]. apply grows_generateFile.
Qed.

Lemma grows_generateModules cfg names : grows (generateModules cfg names).
Proof.
  unfold generateModules. apply grows_bind; [apply grows_existsSync|].
  intros [|]; cbn [negb].
  - apply grows_bind; [|intros _; apply grows_ret].
    apply grows_for_each. intros m. apply grows_generateModule.
  - apply grows_bind; [apply grows_console|]. intros _. apply grows_ret.
Qed.

(** X1: whatever the configuration, the names and the outcomes, a batch
    only adds to the tree: every node that was there is there afterwards
    as it was, so every regular file, the templates among them, keeps its
    content, and nothing that existed is gone. *)
Theorem generateModules_keeps_files cfg names w :
  Fs.nodes (w_fs w) ⊆ Fs.nodes (w_fs (after (generateModules cfg names) w)) ∧
  (∀ p c, Fs.read_file (w_fs w) p = inr c →
          Fs.read_file (w_fs (after (generateModules cfg names) w)) p = inr c) ∧
  (∀ p, Fs.exists_ (w_fs w) p = true →
        Fs.exists_ (w_fs (after (generateModules cfg names) w)) p = true).
Proof.
  pose proof (grows_generateModules cfg names w) as Hext.
  split; [apply Hext|]. split.
  - intros p c. by apply extends_read_file.
  - intros p. by apply extends_exists.
Qed.

Lemma generateModules_keeps_files_witness :
  Fs.read_file
    (w_fs (after (generateModules default_config (Names ["users"; "auth"]))
             (fresh example_fs_rerun)))
    "src/modules/users/users.module.ts"
  = inr "export class UsersModule { /* edited */ }".
Proof.
  apply (proj1 (proj2 (generateModules_keeps_files default_config
                         (Names ["users"; "auth"]) (fresh example_fs_rerun)))).
  vm_compute. reflexivity.
Defined.

(** ** What a unit creates *)

Lemma w_fs_traced e w : w_fs (traced e w) = w_fs w.
Proof. reflexivity. Qed.

Lemma w_fs_with_fs fs w : w_fs (with_fs fs w) = fs.
Proof. reflexivity. Qed.

Lemma processTemplate_unreadable cfg t m w code :
  Fs.exists_ (w_fs w) (template_path cfg t) = true →
  Fs.read_file (w_fs w) (template_path cfg t) = inl code →
  ∃ e, processTemplate cfg t m w
       = (Throw e, traced (EvReadFile (template_path cfg t))
                     (traced (EvExists (template_path cfg t)) w)).
Proof.
  intros Hex Hread.
  unfold processTemplate, mbind, M_bind, existsSync, readFileSync.
  rewrite Hex. cbn [negb]. rewrite w_fs_traced, Hread.
  destruct code; eauto.
Qed.

Lemma generateFile_try_fs cfg m t tc w :
  w_fs (after (generateFile_try cfg m t tc) w) = w_fs w ∨
  w_fs (after (generateFile_try cfg m t tc) w)
  = (Fs.mkdir_p (w_fs w) (output_path cfg m tc)).2 ∨
  ∃ body,
    Fs.read_file (w_fs w) (template_path cfg t) = inr body ∧
    Fs.exists_ (Fs.mkdir_p (w_fs w) (output_path cfg m tc)).2
      (full_path cfg m tc) = false ∧
    w_fs (after (generateFile_try cfg m t tc) w)
    = (Fs.write_file (Fs.mkdir_p (w_fs w) (output_path cfg m tc)).2
         (full_path cfg m tc) (render body m)).2.
Proof.
  unfold after.
  destruct (Fs.exists_ (w_fs w) (template_path cfg t)) eqn:Hex.
  2: { left. unfold generateFile_try.
       by rewrite (bind_throw _ _ _ _ _ (processTemplate_missing cfg m t w Hex)). }
  destruct (Fs.read_file (w_fs w) (template_path cfg t)) as [code|body] eqn:Hread.
  { left. destruct (processTemplate_unreadable cfg t m w code Hex Hread)
      as [e He].
    unfold generateFile_try. by rewrite (bind_throw _ _ _ _ _ He). }
  rewrite (generateFile_try_found _ _ _ _ _ _ Hread).
  unfold mbind, M_bind, mkdirSync. rewrite !w_fs_traced.
  destruct (Fs.mkdir_p (w_fs w) (output_path cfg m tc)) as [[code|] fs1];
    cbn [fst snd]; [by right; left|].
  unfold existsSync. cbn [w_fs with_fs].
  destruct (Fs.exists_ fs1 (full_path cfg m tc)) eqn:Hpresent;
    [by right; left|].
  right; right. exists body. split; [done|]. split; [done|].
  unfold writeFileSync. rewrite !w_fs_traced, !w_fs_with_fs.
  by destruct (Fs.write_file fs1 (full_path cfg m tc) (render body m))
    as [[code|] fs2].
Qed.

Lemma mkdir_p_files fs dir key c :
  Fs.nodes (Fs.mkdir_p fs dir).2 !! key = Some (Fs.File c) →
  Fs.nodes fs !! key = Some (Fs.File c).
Proof.
  unfold Fs.mkdir_p. destruct (String.eqb dir ""); [done|].
  cbn [snd Fs.nodes Fs.with_nodes]. intros Hkey.
  by destruct (mkdir_from_adds_dirs _ _ _ _ _ (surjective_pairing _) _ _ Hkey)
    as [?|[_ ?]].
Qed.

Lemma mkdir_p_resolve fs dir p :
  Fs.resolve (Fs.mkdir_p fs dir).2 p = Fs.resolve fs p.
Proof. apply extends_resolve, mkdir_p_extends. Qed.

Lemma write_file_files fs p content key c :
  Fs.nodes (Fs.write_file fs p content).2 !! key = Some (Fs.File c) →
  Fs.nodes fs !! key = Some (Fs.File c) ∨
  (key = Fs.resolve fs p ∧ c = content).
Proof.
  unfold Fs.write_file. destruct (String.eqb p ""); [by left|].
  destruct (Fs.node_at (Fs.nodes fs) (Fs.resolve fs p)) as [[?|]|];
    destruct (Fs.node_at (Fs.nodes fs) (Fs.parent (Fs.resolve fs p)))
      as [[?|]|]; cbn [snd Fs.nodes Fs.with_nodes]; try by left.
  all: rewrite lookup_insert; case_decide; [|by left];
    intros [= <-]; by right.
Qed.

Lemma generateFile_stopped cfg m t tc w :
  excluded cfg m t = true →
  w_fs (after (generateFile cfg m t tc) w) = w_fs w ∧
  (w_console (after (generateFile cfg m t tc) w) = w_console w ∨
   w_console (after (generateFile cfg m t tc) w)
   = w_console w ++ [LogSkipExcluded t m]).
Proof.
  unfold excluded, after, generateFile, mbind, M_bind, returning.
  destruct (shouldExclude cfg m t) as [v|e]; cbn [fst snd].
  - intros ->. cbn. eauto.
  - intros _. eauto.
Qed.

(** X2: the one regular file a unit can add to the tree is its
    destination, holding the template's body rendered for the module; any
    other regular file in the tree after the unit was there before, with
    the same content. *)
Theorem generateFile_creates_destination_only cfg m t tc w key c :
  Fs.nodes (w_fs (after (generateFile cfg m t tc) w)) !! key
  = Some (Fs.File c) →
  Fs.nodes (w_fs w) !! key = Some (Fs.File c) ∨
  (key = Fs.resolve (w_fs w) (full_path cfg m tc) ∧
   excluded cfg m t = false ∧
   ∃ body, Fs.read_file (w_fs w) (template_path cfg t) = inr body ∧
           c = render body m).
Proof.
  destruct (excluded cfg m t) eqn:Hex.
  { destruct (generateFile_stopped cfg m t tc w Hex) as [-> _]. by left. }
  unfold after. rewrite (generateFile_not_excluded _ _ _ _ _ Hex).
  unfold try_catch.
  pose proof (generateFile_try_fs cfg m t tc w) as Hfs. unfold after in Hfs.
  destruct (generateFile_try cfg m t tc w) as [[[]|e] w'];
    cbn [snd w_fs console] in *.
  all: destruct Hfs as [->|[->|(body & Hread & Habsent & ->)]];
    [by left|intros ?%mkdir_p_files; by left|].
  all: intros [Hold%mkdir_p_files|[-> ->]]%write_file_files; [by left|right].
  all: rewrite mkdir_p_resolve; eauto.
Qed.

Lemma generateFile_creates_destination_only_witness :
  Fs.nodes (w_fs (fresh example_fs))
    !! ["home"; "app"; "src"; "modules"; "users"; "schema"; "users.schema.ts"]
  = Some (Fs.File "collection: 'users'") ∨
  (["home"; "app"; "src"; "modules"; "users"; "schema"; "users.schema.ts"]
   = Fs.resolve (w_fs (fresh example_fs))
       (full_path default_config "users" schema_template) ∧
   excluded default_config "users" "schema" = false ∧
   ∃ body,
     Fs.read_file (w_fs (fresh example_fs))
       (template_path default_config "schema") = inr body ∧
     "collection: 'users'" = render body "users").
Proof.
  apply (generateFile_creates_destination_only default_config "users"
           "schema" schema_template (fresh example_fs)).
  vm_compute. reflexivity.
Defined.

(** ** Rendering: what is replaced and what is not *)

Lemma replace_from_absent tok v s :
  occurs tok s = false → ∀ b, replace_from tok v b 0 s = s.
Proof.
  induction s as [|c r IH]; intros Habs b; [done|].
  cbn [occurs] in Habs. apply orb_false_elim in Habs as [Hhere Hrest].
  rewrite replace_from_unfold, Hhere. f_equal. by apply IH.
Qed.

Lemma render_absent content m :
  (∀ p, occurs (token p) content = false) →
  render content m = content.
Proof.
  intros Habs. unfold render, replacements, placeholders.
  cbn [fmap list_fmap foldl fst snd]. unfold replace_all.
  by repeat rewrite (replace_from_absent _ _ content) by apply Habs.
Qed.

(** X3: a content in which none of the six tokens occurs is rendered as it
    is, for every module name: a placeholder that is not recognized is not
    touched, and it is no error. *)
Theorem render_without_tokens content m :
  (∀ p, occurs (token p) content = false) →
  render content m = content.
Proof. apply render_absent. Qed.

Lemma render_without_tokens_witness :
  render example_unrecognized "userProfile" = example_unrecognized.
Proof.
  apply render_without_tokens. intros []; vm_compute; reflexivity.
Defined.







(** ** Sessions *)

Lemma bind_c_ok {A B} (m : C A) (k : A → C B) s a s' :
  m s = (Ok a, s') → (m ≫= k) s = k a s'.
Proof. unfold mbind, C_bind. by intros ->. Qed.

Lemma bind_c_throw {A B} (m : C A) (k : A → C B) s e s' :
  m s = (Throw e, s') → (m ≫= k) s = (Throw e, s').
Proof. unfold mbind, C_bind. by intros ->. Qed.

Lemma bind_c_inv {A B} (m : C A) (k : A → C B) s b s' :
  (m ≫= k) s = (Ok b, s') →
  ∃ a s1, m s = (Ok a, s1) ∧ k a s1 = (Ok b, s').
Proof.
  unfold mbind, C_bind. destruct (m s) as [[a|e] s1]; [eauto|done].
Qed.

Lemma lift_existsSync p s :
  lift (existsSync p) s
  = (Ok (Fs.exists_ (s_fs s) p),
     mkSession (s_fs s) (s_trace s ++ [EvExists p]) (s_console s)).
Proof. unfold lift, existsSync. cbn. by rewrite app_nil_r. Qed.

Lemma lift_mkdirSync p s :
  lift (mkdirSync p) s
  = (match (Fs.mkdir_p (s_fs s) p).1 with
     | None => Ok tt
     | Some code => Throw (FsError code "mkdir" p)
     end,
     mkSession (Fs.mkdir_p (s_fs s) p).2 (s_trace s ++ [EvMkdir p])
       (s_console s)).
Proof. unfold lift, mkdirSync. cbn. by rewrite app_nil_r. Qed.

Lemma lift_writeFileSync p c s :
  lift (writeFileSync p c) s
  = (match (Fs.write_file (s_fs s) p c).1 with
     | None => Ok tt
     | Some code => Throw (FsError code "open" p)
     end,
     mkSession (Fs.write_file (s_fs s) p c).2 (s_trace s ++ [EvWriteFile p c])
       (s_console s)).
Proof. unfold lift, writeFileSync. cbn. by rewrite app_nil_r. Qed.

Lemma lift_grows {A} (m : M A) : grows m → grows_c (lift m).
Proof. intros Hm s. apply (Hm (mkWorld (s_fs s) (s_trace s) [])). Qed.

Lemma grows_c_ret {A} (a : A) : grows_c (mret a : C A).
Proof. intros s. apply extends_refl. Qed.

Lemma grows_c_say l : grows_c (say l).
Proof. intros s. apply extends_refl. Qed.

Lemma grows_c_bind {A B} (m : C A) (k : A → C B) :
  grows_c m → (∀ a, grows_c (k a)) → grows_c (m ≫= k).
Proof.
  intros Hm Hk s. specialize (Hm s). unfold after_c, mbind, C_bind in *.
  destruct (m s) as [[a|e] s1]; [|done].
  eapply extends_trans; [done|]. apply (Hk a s1).
Qed.

Lemma grows_c_for_each {A} (f : A → C unit) (l : list A) :
  (∀ x, grows_c (f x)) → grows_c (c_for_each f l).
Proof.
  intros Hf. induction l as [|x l IH]; [apply grows_c_ret|].
  cbn [c_for_each]. apply grows_c_bind; [apply Hf|done].
Qed.

(** ** [initTemplates] *)

Lemma initTemplate_present dir entry s :
  Fs.exists_ (s_fs s) (Path.join [dir; entry.1]) = true →
  initTemplate dir entry s
  = (Ok tt, mkSession (s_fs s)
              (s_trace s ++ [EvExists (Path.join [dir; entry.1])])
              (s_console s)).
Proof.
  intros Hex. unfold initTemplate.
  rewrite (bind_c_ok _ _ _ _ _ (lift_existsSync _ s)). by rewrite Hex.
Qed.

Lemma initTemplate_absent dir entry s :
  Fs.exists_ (s_fs s) (Path.join [dir; entry.1]) = false →
  initTemplate dir entry s
  = (lift (writeFileSync (Path.join [dir; entry.1]) entry.2);;
     say (LogCreatedTemplate (Path.join [dir; entry.1])))
      (mkSession (s_fs s)
         (s_trace s ++ [EvExists (Path.join [dir; entry.1])]) (s_console s)).
Proof.
  intros Hex. unfold initTemplate.
  rewrite (bind_c_ok _ _ _ _ _ (lift_existsSync _ s)). by rewrite Hex.
Qed.

Lemma grows_c_initTemplate dir entry : grows_c (initTemplate dir entry).
Proof.
  intros s. unfold after_c.
  destruct (Fs.exists_ (s_fs s) (Path.join [dir; entry.1])) eqn:Hex.
  - rewrite (initTemplate_present _ _ _ Hex). apply extends_refl.
  - rewrite (initTemplate_absent _ _ _ Hex).
    unfold mbind, C_bind. rewrite lift_writeFileSync. cbn [s_fs].
    pose proof (write_file_extends (s_fs s) _ entry.2 Hex) as Hwr.
    by destruct (Fs.write_file (s_fs s) (Path.join [dir; entry.1]) entry.2)
      as [[code|] fs2].
Qed.

Lemma grows_c_initTemplates cfg : grows_c (initTemplates cfg).
Proof.
  unfold initTemplates.
  apply grows_c_bind; [apply lift_grows, grows_existsSync|]. intros found.
  apply grows_c_bind; [|intros _; apply grows_c_for_each, grows_c_initTemplate].
  destruct found; cbn [negb]; [apply grows_c_ret|].
  apply grows_c_bind; [apply lift_grows, grows_mkdirSync|].
  intros _. apply grows_c_say.
Qed.

Lemma initTemplate_ok dir entry s s' :
  initTemplate dir entry s = (Ok tt, s') →
  Fs.exists_ (s_fs s') (Path.join [dir; entry.1]) = true.
Proof.
  destruct (Fs.exists_ (s_fs s) (Path.join [dir; entry.1])) eqn:Hex.
  - rewrite (initTemplate_present _ _ _ Hex). by intros [= <-].
  - rewrite (initTemplate_absent _ _ _ Hex).
    unfold mbind, C_bind. rewrite lift_writeFileSync. cbn [s_fs].
    destruct (Fs.write_file (s_fs s) (Path.join [dir; entry.1]) entry.2)
      as [[code|] fs2] eqn:Hwr; cbn [fst snd]; [done|].
    intros [= <-]. cbn [s_fs].
    by destruct (write_file_read_back _ _ _ _ Hex Hwr).
Qed.

Lemma c_for_each_ok {A} (f : A → C unit) (P : A → Fs.t → Prop) :
  (∀ x, grows_c (f x)) →
  (∀ x s s', f x s = (Ok tt, s') → P x (s_fs s')) →
  (∀ x fs fs', extends fs fs' → P x fs → P x fs') →
  ∀ l s s', c_for_each f l s = (Ok tt, s') → Forall (λ x, P x (s_fs s')) l.
Proof.
  intros Hgrows Hf Hmono. induction l as [|x l IH]; intros s s' Hrun; [done|].
  cbn [c_for_each] in Hrun.
  apply bind_c_inv in Hrun as ([] & s1 & Hx & Hrest).
  constructor; [|by eapply IH].
  eapply Hmono; [|by eapply Hf].
  pose proof (grows_c_for_each f l Hgrows s1) as Hext.
  unfold after_c in Hext. by rewrite Hrest in Hext.
Qed.

Lemma mkdir_p_success_exists fs p fs1 :
  Fs.mkdir_p fs p = (None, fs1) → Fs.exists_ fs1 p = true.
Proof.
  unfold Fs.mkdir_p. destruct (String.eqb_spec p "") as [|Hp]; [done|].
  intros [= Hr <-]. apply exists_true_iff. split; [done|].
  rewrite resolve_with_nodes. cbn [Fs.nodes Fs.with_nodes].
  destruct (Fs.resolve fs p) as [|seg rest] eqn:Hres; [by eauto|].
  exists Fs.Dir. cbn [Fs.node_at].
  assert (Fs.mkdir_from (Fs.nodes fs) [] (seg :: rest)
          = (None, (Fs.mkdir_from (Fs.nodes fs) [] (seg :: rest)).2)) as Hrun
    by (rewrite <- Hr; apply surjective_pairing).
  apply (mkdir_from_success _ _ _ _ Hrun (seg :: rest) []); [|done].
  by rewrite app_nil_r.
Qed.

Lemma c_for_each_invariant {A} (f : A → C unit) (I : Session → Prop)
  (l : list A) :
  (∀ x s, x ∈ l → I s → I (after_c (f x) s)) →
  ∀ s, I s → I (after_c (c_for_each f l) s).
Proof.
  induction l as [|x l IH]; intros Hf s Hs; [done|].
  unfold after_c. cbn [c_for_each]. unfold mbind, C_bind.
  pose proof (Hf x s (list_elem_of_here _ _) Hs) as Hx. unfold after_c in Hx.
  destruct (f x s) as [[[]|e] s1]; [|done].
  apply IH; [|done]. intros y s2 Hy. apply Hf. by apply list_elem_of_further.
Qed.

Lemma initTemplate_files dir entry s key c :
  Fs.nodes (s_fs (after_c (initTemplate dir entry) s)) !! key
  = Some (Fs.File c) →
  Fs.nodes (s_fs s) !! key = Some (Fs.File c) ∨
  (key = Fs.resolve (s_fs s) (Path.join [dir; entry.1]) ∧ c = entry.2).
Proof.
  unfold after_c.
  destruct (Fs.exists_ (s_fs s) (Path.join [dir; entry.1])) eqn:Hex.
  - rewrite (initTemplate_present _ _ _ Hex). by left.
  - rewrite (initTemplate_absent _ _ _ Hex).
    unfold mbind, C_bind. rewrite lift_writeFileSync. cbn [s_fs].
    intros Hkey. apply (write_file_files (s_fs s) _ entry.2).
    by destruct (Fs.write_file (s_fs s) (Path.join [dir; entry.1]) entry.2)
      as [[code|] fs2].
Qed.

(** X5: [initTemplates] only adds to the tree, however it ends: a template
    that is there is not rewritten, and a regular file that is new holds
    the built-in body of the stub at whose path it is. *)
Theorem initTemplates_keeps_files cfg s :
  Fs.nodes (s_fs s) ⊆ Fs.nodes (s_fs (after_c (initTemplates cfg) s)) ∧
  (∀ p c, Fs.read_file (s_fs s) p = inr c →
          Fs.read_file (s_fs (after_c (initTemplates cfg) s)) p = inr c) ∧
  (∀ key c,
     Fs.nodes (s_fs (after_c (initTemplates cfg) s)) !! key
     = Some (Fs.File c) →
     Fs.nodes (s_fs s) !! key = Some (Fs.File c) ∨
     ∃ name, (name, c) ∈ defaultTemplates ∧
             key = Fs.resolve (s_fs s) (Path.join [templatesDir cfg; name])).
Proof.
  pose proof (grows_c_initTemplates cfg s) as Hext.
  split; [apply Hext|]. split; [intros p c; by apply extends_read_file|].
  set (I := λ s' : Session,
    Fs.cwd (s_fs s') = Fs.cwd (s_fs s) ∧
    ∀ key c, Fs.nodes (s_fs s') !! key = Some (Fs.File c) →
      Fs.nodes (s_fs s) !! key = Some (Fs.File c) ∨
      ∃ name, (name, c) ∈ defaultTemplates ∧
              key = Fs.resolve (s_fs s) (Path.join [templatesDir cfg; name])).
  enough (I (after_c (initTemplates cfg) s)) as [_ HI] by done.
  unfold after_c, initTemplates.
  rewrite (bind_c_ok _ _ _ _ _ (lift_existsSync _ s)).
  assert (∀ s1, I s1 →
    I (after_c (c_for_each (initTemplate (templatesDir cfg)) defaultTemplates) s1))
    as Hloop.
  { intros s1 Hs1. apply c_for_each_invariant; [|done].
    intros [name body] s2 Hin [Hcwd Hfiles].
    pose proof (grows_c_initTemplate (templatesDir cfg) (name, body) s2)
      as [Hcwd2 _].
    split; [congruence|]. intros key c Hkey.
    apply initTemplate_files in Hkey as [Hold|[-> ->]]; [by apply Hfiles|].
    right. exists name. split; [done|]. cbn [fst].
    unfold Fs.resolve. by rewrite Hcwd. }
  unfold mbind at 1, C_bind at 1.
  destruct (Fs.exists_ (s_fs s) (templatesDir cfg)); cbn [negb].
  - apply Hloop. split; [done|]. intros key c Hkey. by left.
  - unfold mbind at 1, C_bind at 1. rewrite lift_mkdirSync. cbn [s_fs].
    pose proof (mkdir_p_extends (s_fs s) (templatesDir cfg)) as [Hcwd _].
    assert (I (mkSession (Fs.mkdir_p (s_fs s) (templatesDir cfg)).2
                 ((s_trace s ++ [EvExists (templatesDir cfg)])
                    ++ [EvMkdir (templatesDir cfg)]) (s_console s))) as Hmk.
    { split; [done|]. intros key c Hkey%mkdir_p_files. by left. }
    destruct (Fs.mkdir_p (s_fs s) (templatesDir cfg)).1; [done|].
    by apply Hloop.
Qed.

Lemma initTemplates_keeps_files_witness :
  Fs.read_file
    (s_fs (after_c (initTemplates default_config) (start example_fs)))
    "templates/module.stub"
  = inr "export class {{ModuleName}}Module {}".
Proof.
  apply (proj1 (proj2 (initTemplates_keeps_files default_config
                         (start example_fs)))).
  vm_compute. reflexivity.
Defined.

Lemma initTemplates_inv cfg s s' :
  initTemplates cfg s = (Ok tt, s') →
  ∃ s1, Fs.exists_ (s_fs s1) (templatesDir cfg) = true ∧
        c_for_each (initTemplate (templatesDir cfg)) defaultTemplates s1
        = (Ok tt, s').
Proof.
  unfold initTemplates.
  rewrite (bind_c_ok _ _ _ _ _ (lift_existsSync _ s)).
  intros ([] & s1 & Hdir & Hloop)%bind_c_inv. exists s1. split; [|done].
  destruct (Fs.exists_ (s_fs s) (templatesDir cfg)) eqn:Hex; cbn [negb] in Hdir.
  - by injection Hdir as <-.
  - apply bind_c_inv in Hdir as ([] & s2 & Hmk & Hsay).
    injection Hsay as <-. cbn [s_fs].
    rewrite lift_mkdirSync in Hmk. cbn [s_fs] in Hmk.
    destruct (Fs.mkdir_p (s_fs s) (templatesDir cfg)) as [[code|] fs1] eqn:Hrun;
      cbn [fst snd] in Hmk; [done|].
    injection Hmk as <-. cbn [s_fs]. by eapply mkdir_p_success_exists.
Qed.

Lemma initTemplates_ok cfg s s' :
  initTemplates cfg s = (Ok tt, s') →
  Fs.exists_ (s_fs s') (templatesDir cfg) = true ∧
  Forall (λ entry : string * string,
            Fs.exists_ (s_fs s') (Path.join [templatesDir cfg; entry.1]) = true)
         defaultTemplates.
Proof.
  intros (s1 & Hdir & Hloop)%initTemplates_inv. split.
  - eapply extends_exists; [|done].
    pose proof (grows_c_for_each _ defaultTemplates
                  (grows_c_initTemplate (templatesDir cfg)) s1) as Hext.
    unfold after_c in Hext. by rewrite Hloop in Hext.
  - eapply (c_for_each_ok (initTemplate (templatesDir cfg))
              (λ entry fs,
                 Fs.exists_ fs (Path.join [templatesDir cfg; entry.1]) = true));
      [apply grows_c_initTemplate| | |done].
    + intros x s2 s3. apply initTemplate_ok.
    + intros x fs fs' Hext. by apply extends_exists.
Qed.

(** X6: when [initTemplates] returns, the templates directory exists and
    so does the file of each of the six built-in stubs. *)
Theorem initTemplates_creates cfg s s' :
  initTemplates cfg s = (Ok tt, s') →
  Fs.exists_ (s_fs s') (templatesDir cfg) = true ∧
  Forall (λ entry : string * string,
            Fs.exists_ (s_fs s') (Path.join [templatesDir cfg; entry.1]) = true)
         defaultTemplates.
Proof. apply initTemplates_ok. Qed.

Lemma initTemplates_creates_witness :
  Fs.exists_ (s_fs (after_c (initTemplates default_config) (start (Fs.mk [] ∅))))
    "./templates" = true ∧
  Forall (λ entry : string * string,
            Fs.exists_
              (s_fs (after_c (initTemplates default_config)
                       (start (Fs.mk [] ∅))))
              (Path.join ["./templates"; entry.1]) = true)
         defaultTemplates.
Proof.
  apply (initTemplates_creates default_config (start (Fs.mk [] ∅))).
  unfold after_c.
  destruct (initTemplates default_config (start (Fs.mk [] ∅))) as [r s'] eqn:E.
  assert (r = Ok tt) as ->; [|reflexivity].
  apply (f_equal fst) in E. vm_compute in E. by subst.
Defined.

Lemma c_for_each_present dir (l : list (string * string)) : ∀ s,
  Forall (λ entry : string * string,
            Fs.exists_ (s_fs s) (Path.join [dir; entry.1]) = true) l →
  c_for_each (initTemplate dir) l s
  = (Ok tt,
     mkSession (s_fs s)
       (s_trace s ++ ((λ entry : string * string,
                         EvExists (Path.join [dir; entry.1])) <$> l))
       (s_console s)).
Proof.
  induction l as [|x l IH]; intros s Hall.
  - cbn. rewrite app_nil_r. by destruct s.
  - inversion_clear Hall as [|? ? Hx Hl]. cbn [c_for_each].
    rewrite (bind_c_ok _ _ _ _ _ (initTemplate_present _ _ _ Hx)).
    rewrite IH by done. cbn [s_fs s_trace s_console fmap list_fmap].
    by rewrite <- (assoc_L (++)).
Qed.

(** X7: a second [initTemplates] after one that returned only looks: it
    makes no directory, writes no file and prints nothing, and the tree
    stays as it is. *)
Theorem initTemplates_twice cfg s s1 :
  initTemplates cfg s = (Ok tt, s1) →
  initTemplates cfg s1
  = (Ok tt,
     mkSession (s_fs s1)
       (s_trace s1 ++
          EvExists (templatesDir cfg) ::
          ((λ entry : string * string,
              EvExists (Path.join [templatesDir cfg; entry.1]))
             <$> defaultTemplates))
       (s_console s1)).
Proof.
  intros [Hdir Hall]%initTemplates_ok. unfold initTemplates.
  rewrite (bind_c_ok _ _ _ _ _ (lift_existsSync _ s1)). rewrite Hdir.
  cbn [negb]. unfold mbind at 1, C_bind at 1, mret at 1, C_ret at 1.
  rewrite c_for_each_present by done. cbn [s_fs s_trace s_console].
  by rewrite <- (assoc_L (++)).
Qed.

Lemma initTemplates_twice_witness :
  ∃ s1 s2,
    initTemplates default_config (start (Fs.mk [] ∅)) = (Ok tt, s1) ∧
    initTemplates default_config s1 = (Ok tt, s2) ∧
    s_fs s2 = s_fs s1 ∧ s_console s2 = s_console s1 ∧
    length (s_console s1) = 7.
Proof.
  destruct (initTemplates default_config (start (Fs.mk [] ∅))) as [r s1] eqn:E.
  assert (r = Ok tt) as ->
    by (apply (f_equal fst) in E; vm_compute in E; by subst).
  exists s1. eexists. split; [reflexivity|].
  split; [apply (initTemplates_twice default_config _ _ E)|].
  split; [reflexivity|]. split; [reflexivity|].
  apply (f_equal (λ x, length (s_console x.2))) in E. vm_compute in E.
  by symmetry.
Defined.

(** ** [initTemplates], then the engine *)

Lemma generateFile_try_throws cfg m t tc w e w1 :
  Fs.exists_ (w_fs w) (template_path cfg t) = true →
  generateFile_try cfg m t tc w = (Throw e, w1) →
  ∃ code syscall p, e = FsError code syscall p.
Proof.
  intros Hex.
  destruct (Fs.read_file (w_fs w) (template_path cfg t)) as [code|body] eqn:Hread.
  - unfold generateFile_try, processTemplate, mbind, M_bind, existsSync,
      readFileSync.
    rewrite Hex. cbn [negb]. rewrite w_fs_traced, Hread.
    destruct code; intros [= <- _]; eauto.
  - rewrite (generateFile_try_found _ _ _ _ _ _ Hread).
    unfold mbind, M_bind, mkdirSync, existsSync, writeFileSync, console.
    intros Hrun. repeat case_match; simplify_eq; eauto.
Qed.

Lemma generateFile_line_found cfg m t tc w :
  plain_key cfg t = true →
  Fs.exists_ (w_fs w) (template_path cfg t) = true →
  ∃ line, w_console (after (generateFile cfg m t tc) w) = w_console w ++ [line] ∧
          reports_missing line = false.
Proof.
  intros Ht Hex. unfold after, generateFile.
  rewrite (bind_ok _ _ _ _ _
             (returning_ok _ _ _ (shouldExclude_plain cfg m t Ht))).
  destruct (to_boolean _); [by eexists|].
  unfold try_catch. pose proof (generateFile_try_console cfg m t tc w) as Hc.
  destruct (generateFile_try cfg m t tc w) as [[[]|e] w'] eqn:Hrun.
  - cbn [snd]. destruct Hc as [-> | ->]; by eexists.
  - apply generateFile_try_throws in Hrun as (code & sc & p & ->); [|done].
    cbn. rewrite Hc. by eexists.
Qed.

Lemma foldl_invariant {A} (step : World → A → World) (I : World → Prop)
  (l : list A) :
  (∀ x w, x ∈ l → I w → I (step w x)) → ∀ w, I w → I (foldl step w l).
Proof.
  induction l as [|x l IH]; intros Hstep w Hw; [done|].
  cbn [foldl]. apply IH.
  - intros y w' Hy. apply Hstep. by apply list_elem_of_further.
  - apply Hstep; [apply list_elem_of_here|done].
Qed.

Lemma stubbed_plain_keys cfg : stubbed cfg → plain_keys cfg = true.
Proof.
  unfold stubbed, plain_keys. rewrite Forall_forall, forallb_forall.
  intros Hcfg [t tc] Hin%list_elem_of_In.
  destruct (Hcfg _ Hin) as [body Hbody]. cbn [fst] in *.
  apply plain_key_iff. right. intros Hkey.
  unfold object_prototype_keys in Hkey. unfold defaultTemplates in Hbody.
  repeat (apply elem_of_cons in Hkey as [->|Hkey]);
    [..|by apply elem_of_nil in Hkey].
  all: cbn [String.append] in Hbody.
  all: repeat (apply elem_of_cons in Hbody as [Heq|Hbody];
               [apply (f_equal fst) in Heq; cbn [fst] in Heq; discriminate|]).
  all: by apply elem_of_nil in Hbody.
Qed.

Lemma stubbed_default : stubbed default_config.
Proof.
  unfold stubbed. repeat constructor; cbn [fst];
    eexists; repeat (apply list_elem_of_here || apply list_elem_of_further).
Qed.

(** X8: where every template of the configuration has a built-in stub, as
    in the built-in configuration, a batch after an [initTemplates] that
    returned passes its precondition and returns, and no unit of it
    reports a missing template. *)
Theorem initTemplates_then_generateModules cfg s s' names w :
  stubbed cfg →
  initTemplates cfg s = (Ok tt, s') →
  w_fs w = s_fs s' →
  generateModules cfg names w
  = (Ok Returned, after (generateModules cfg names) w) ∧
  ∃ lines,
    w_console (after (generateModules cfg names) w) = w_console w ++ lines ∧
    Forall (λ l, reports_missing l = false) lines.
Proof.
  intros Hcfg [Hdir Hstubs]%initTemplates_ok Hfs. rewrite <- Hfs in *.
  pose proof (stubbed_plain_keys cfg Hcfg) as Hkeys.
  unfold after. rewrite (generateModules_found _ _ _ Hkeys Hdir).
  split; [done|]. cbn [snd].
  set (I := λ w' : World,
    extends (w_fs w) (w_fs w') ∧
    ∃ lines, w_console w' = w_console w ++ lines ∧
             Forall (λ l, reports_missing l = false) lines).
  enough (I (foldl (λ w0 m, after (generateModule cfg m) w0)
               (traced (EvExists (templatesDir cfg)) w)
               (match names with Names l => l | OneName s0 => [s0] end)))
    as [_ ?] by done.
  apply foldl_invariant.
  2: { split; [apply extends_refl|]. exists []. by rewrite app_nil_r. }
  intros m w1 _ [Hext (lines & Hlines & Hok)].
  unfold after. rewrite generateModule_total by done. cbn [snd].
  apply foldl_invariant.
  2: { split; [done|]. exists (lines ++ [LogGeneratingModule m]).
       cbn. rewrite Hlines, <- (assoc_L (++)). split; [done|].
       apply Forall_app. by split; [|repeat constructor]. }
  intros [t tc] w2 Hin [Hext2 (lines2 & Hlines2 & Hok2)]. cbn [fst snd].
  split; [eapply extends_trans; [done|apply grows_generateFile]|].
  unfold stubbed in Hcfg. rewrite Forall_forall in Hcfg.
  destruct (Hcfg _ Hin) as [body Hbody].
  rewrite Forall_forall in Hstubs. specialize (Hstubs _ Hbody).
  cbn [fst] in Hstubs.
  destruct (generateFile_line_found cfg m t tc w2) as (line & -> & Hline).
  { by eapply plain_keys_elem_of. }
  { by eapply extends_exists. }
  exists (lines2 ++ [line]). rewrite Hlines2, <- (assoc_L (++)).
  split; [done|]. apply Forall_app. by split; [|repeat constructor].
Qed.

Lemma initTemplates_then_generateModules_witness :
  generateModules default_config (Names ["users"])
    (fresh (s_fs (after_c (initTemplates default_config)
                    (start (Fs.mk [] ∅)))))
  = (Ok Returned,
     after (generateModules default_config (Names ["users"]))
       (fresh (s_fs (after_c (initTemplates default_config)
                       (start (Fs.mk [] ∅)))))) ∧
  ∃ lines,
    w_console
      (after (generateModules default_config (Names ["users"]))
         (fresh (s_fs (after_c (initTemplates default_config)
                         (start (Fs.mk [] ∅))))))
    = w_console (fresh (s_fs (after_c (initTemplates default_config)
                                (start (Fs.mk [] ∅))))) ++ lines ∧
    Forall (λ l, reports_missing l = false) lines.
Proof.
  unfold after_c.
  destruct (initTemplates default_config (start (Fs.mk [] ∅))) as [r s1] eqn:E.
  assert (r = Ok tt) as ->
    by (apply (f_equal fst) in E; vm_compute in E; by subst).
  cbn [snd].
  apply (initTemplates_then_generateModules default_config _ _
           (Names ["users"]) (fresh (s_fs s1)) stubbed_default E).
  reflexivity.
Defined.


(** ** [main] *)

Lemma config_of_merged u :
  config_of (spread default_config_object (object_of u)) = merged_config u.
Proof.
  destruct u as [[td|] [od|] [ts|] [ex|] [bm|]]; vm_compute; reflexivity.
Qed.

Lemma lift_loadConfig_loaded path o s :
  Fs.exists_ (s_fs s) path = true →
  lift (loadConfig default_config_object path (inr o)) s
  = (Ok (spread default_config_object o),
     mkSession (s_fs s) (s_trace s ++ [EvExists path])
       (s_console s ++ [Engine (LogLoadedConfig path)])).
Proof.
  intros Hex. unfold lift, loadConfig, mbind, M_bind, existsSync.
  cbn [w_fs]. by rewrite Hex.
Qed.

Lemma lift_loadConfig_failed path e s :
  Fs.exists_ (s_fs s) path = true →
  lift (loadConfig default_config_object path (inl e)) s
  = (Ok default_config_object,
     mkSession (s_fs s) (s_trace s ++ [EvExists path])
       (s_console s ++ [Engine (WarnConfigNotLoaded e)])).
Proof.
  intros Hex. unfold lift, loadConfig, mbind, M_bind, existsSync.
  cbn [w_fs]. by rewrite Hex.
Qed.

Lemma lift_loadConfig_absent path loaded s :
  Fs.exists_ (s_fs s) path = false →
  lift (loadConfig default_config_object path loaded) s
  = (Ok default_config_object,
     mkSession (s_fs s) (s_trace s ++ [EvExists path]) (s_console s)).
Proof.
  intros Hex. unfold lift, loadConfig, mbind, M_bind, existsSync.
  cbn [w_fs]. rewrite Hex. cbn. by rewrite app_nil_r.
Qed.

Lemma main_loaded args u s :
  Fs.exists_ (s_fs s) "./generator.config.js" = true →
  main args (inr u) s
  = dispatch (merged_config u) args
      (config_checked [Engine (LogLoadedConfig "./generator.config.js")] s).
Proof.
  intros Hex. unfold main.
  rewrite (bind_c_ok _ _ _ _ _ (lift_loadConfig_loaded _ _ _ Hex)).
  by rewrite config_of_merged.
Qed.

Lemma main_failed args e s :
  Fs.exists_ (s_fs s) "./generator.config.js" = true →
  main args (inl e) s
  = dispatch default_config args
      (config_checked [Engine (WarnConfigNotLoaded e)] s).
Proof.
  intros Hex. unfold main.
  by rewrite (bind_c_ok _ _ _ _ _ (lift_loadConfig_failed _ _ _ Hex)).
Qed.

Lemma main_absent args loaded s :
  Fs.exists_ (s_fs s) "./generator.config.js" = false →
  main args loaded s = dispatch default_config args (config_checked [] s).
Proof.
  intros Hex. unfold main.
  rewrite (bind_c_ok _ _ _ _ _ (lift_loadConfig_absent _ _ _ Hex)).
  unfold config_checked. by rewrite app_nil_r.
Qed.

Lemma main_loads args loaded s :
  ∃ cfg l, main args loaded s = dispatch cfg args (config_checked l s).
Proof.
  destruct (Fs.exists_ (s_fs s) "./generator.config.js") eqn:Hex.
  - destruct loaded as [e|u]; eexists _, _;
      [by apply main_failed|by apply main_loaded].
  - eexists _, _. by apply main_absent.
Qed.

(** X9: with a configuration file that loads, [main] runs the command
    under the configuration that has the user's value for each of the four
    properties the user gives and the built-in value for the others; the
    file's [batchModules] plays no part in any command. *)
Theorem main_merged_config args u s :
  Fs.exists_ (s_fs s) "./generator.config.js" = true →
  main args (inr u) s
  = dispatch (merged_config u) args
      (config_checked [Engine (LogLoadedConfig "./generator.config.js")] s) ∧
  ∀ b, main args (inr (with_batchModules b u)) s = main args (inr u) s.
Proof.
  intros Hex. split; [by apply main_loaded|].
  intros b. by rewrite !main_loaded.
Qed.

Lemma main_merged_config_witness :
  main ["batch"] (inr shipped_config) (start example_fs)
  = dispatch default_config ["batch"]
      (config_checked [Engine (LogLoadedConfig "./generator.config.js")]
         (start example_fs)) ∧
  main ["batch"] (inr (with_batchModules (Some ["users"]) shipped_config))
    (start example_fs)
  = main ["batch"] (inr shipped_config) (start example_fs).
Proof.
  split.
  - apply (proj1 (main_merged_config ["batch"] shipped_config
                    (start example_fs) ltac:(vm_compute; reflexivity))).
  - apply (proj2 (main_merged_config ["batch"] shipped_config
                    (start example_fs) ltac:(vm_compute; reflexivity))).
Defined.

(** X10: a configuration file that is missing, or that fails to load, is
    no error: [main] runs the command under the built-in configuration,
    after a warning in the second case. *)
Theorem main_default_config args loaded s :
  (Fs.exists_ (s_fs s) "./generator.config.js" = false →
   main args loaded s = dispatch default_config args (config_checked [] s)) ∧
  (∀ e, Fs.exists_ (s_fs s) "./generator.config.js" = true →
        loaded = inl e →
        main args loaded s
        = dispatch default_config args
            (config_checked [Engine (WarnConfigNotLoaded e)] s)).
Proof.
  split; [apply main_absent|]. intros e Hex ->. by apply main_failed.
Qed.

Lemma main_default_config_witness :
  main ["help"] (inr shipped_config) (start (Fs.mk [] ∅))
  = (Ok Returned,
     mkSession (Fs.mk [] ∅) [EvExists "./generator.config.js"] [LogHelp]) ∧
  main ["help"] (inl (ModuleError "Unexpected token")) (start example_fs)
  = (Ok Returned,
     mkSession example_fs [EvExists "./generator.config.js"]
       [Engine (WarnConfigNotLoaded (ModuleError "Unexpected token")); LogHelp]).
Proof.
  split.
  - apply (proj1 (main_default_config ["help"] (inr shipped_config)
                    (start (Fs.mk [] ∅)))).
    vm_compute. reflexivity.
  - apply (proj2 (main_default_config ["help"]
                    (inl (ModuleError "Unexpected token")) (start example_fs))
             (ModuleError "Unexpected token")); [|reflexivity].
    vm_compute. reflexivity.
Defined.

(** ** The command line: configuration in force and exit status *)

Lemma main_effective args loaded s :
  main args loaded s
  = dispatch (effective_config loaded (s_fs s)) args
      (config_checked (config_lines loaded (s_fs s)) s).
Proof.
  unfold effective_config, config_lines.
  destruct (Fs.exists_ (s_fs s) "./generator.config.js") eqn:Hex.
  - destruct loaded as [e|u]; [by apply main_failed|by apply main_loaded].
  - by apply main_absent.
Qed.

Lemma lift_generateModules cfg m names s :
  (lift (generateModules cfg (Names (m :: names))) s).1
  = if Fs.exists_ (s_fs s) (templatesDir cfg) then
      if plain_keys cfg then Ok Returned
      else Throw (TypeError "excludeList.includes is not a function")
    else Ok (Exited 1).
Proof.
  unfold lift. cbn [fst].
  destruct (Fs.exists_ (s_fs s) (templatesDir cfg)) eqn:Hex.
  - destruct (plain_keys cfg) eqn:Hkeys.
    + by rewrite generateModules_found.
    + by apply generateModules_inherited.
  - by rewrite generateModules_missing.
Qed.

(** X11: how [generate] with names and [batch] end depends on the
    configuration in force and on its templates directory alone, not on
    what the units report: the process exits with 1 when the directory
    does not exist; with the directory there it ends normally, unless a
    template has a name that the exclusion table only inherits, in which
    case the [TypeError] of line 94 ends it. *)
Theorem main_generate_status command names loaded s :
  (command = "generate" ∧ names ≠ []) ∨ command = "batch" →
  (main (command :: names) loaded s).1
  = if Fs.exists_ (s_fs s)
         (templatesDir (effective_config loaded (s_fs s)))
    then
      if plain_keys (effective_config loaded (s_fs s)) then Ok Returned
      else Throw (TypeError "excludeList.includes is not a function")
    else Ok (Exited 1).
Proof.
  intros Hcmd. rewrite main_effective.
  unfold dispatch.
  destruct Hcmd as [[-> Hnames]| ->]; cbn [String.eqb Ascii.eqb Bool.eqb].
  - destruct names as [|n names]; [done|]. cbn [length Nat.ltb Nat.leb].
    by rewrite lift_generateModules.
  - unfold batch_modules. by rewrite lift_generateModules.
Qed.

Lemma main_generate_status_witness :
  (main ["generate"; "users"; "orders"] (inr shipped_config)
     (start example_fs)).1 = Ok Returned ∧
  (main ["batch"] (inl (ModuleError "Unexpected token"))
     (start (Fs.mk [] ∅))).1 = Ok (Exited 1) ∧
  (main ["generate"; "users"] (inr example_user_constructor)
     (start example_fs)).1
  = Throw (TypeError "excludeList.includes is not a function").
Proof.
  split_and!.
  - rewrite (main_generate_status "generate" ["users"; "orders"]);
      [reflexivity|by left].
  - rewrite (main_generate_status "batch" []); [|by right].
    vm_compute. reflexivity.
  - rewrite (main_generate_status "generate" ["users"]); [|by left].
    vm_compute. reflexivity.
Defined.

(** X12: [generate] without a name prints the error and the help and
    exits with 1; a command that is none of [init], [generate] and [batch],
    or no command at all, prints the help and ends normally.  Neither
    touches the file system, and the trace has the look for the
    configuration file only. *)
Theorem main_without_work args loaded s :
  (∀ command names, args = command :: names →
     command ≠ "init" ∧ command ≠ "generate" ∧ command ≠ "batch") →
  main ["generate"] loaded s
  = (Ok (Exited 1),
     mkSession (s_fs s) (s_trace s ++ [EvExists "./generator.config.js"])
       (s_console s ++ config_lines loaded (s_fs s)
          ++ [ErrNoModuleNames; LogHelp])) ∧
  main args loaded s
  = (Ok Returned,
     mkSession (s_fs s) (s_trace s ++ [EvExists "./generator.config.js"])
       (s_console s ++ config_lines loaded (s_fs s) ++ [LogHelp])).
Proof.
  intros Hother. rewrite !main_effective. unfold config_checked. split.
  - cbn. unfold mbind, C_bind, showHelp, say. cbn.
    by rewrite <- !(assoc_L (++)).
  - destruct args as [|command names].
    + cbn. unfold mbind, C_bind, showHelp, say. cbn.
      by rewrite <- !(assoc_L (++)).
    + destruct (Hother command names eq_refl) as (Hinit & Hgen & Hbatch).
      unfold dispatch.
      apply String.eqb_neq in Hinit, Hgen, Hbatch.
      rewrite Hinit, Hgen, Hbatch. unfold mbind, C_bind, showHelp, say. cbn.
      by rewrite <- !(assoc_L (++)).
Qed.

Lemma main_without_work_witness :
  main ["generate"] (inr shipped_config) (start example_fs)
  = (Ok (Exited 1),
     mkSession example_fs [EvExists "./generator.config.js"]
       [Engine (LogLoadedConfig "./generator.config.js");
        ErrNoModuleNames; LogHelp]) ∧
  main ["status"] (inr shipped_config) (start example_fs)
  = (Ok Returned,
     mkSession example_fs [EvExists "./generator.config.js"]
       [Engine (LogLoadedConfig "./generator.config.js"); LogHelp]).
Proof.
  apply (main_without_work ["status"] (inr shipped_config) (start example_fs)).
  intros command names [= <- <-]. by repeat split.
Defined.

(** ** Exceptions that leave [main] *)

Lemma throws_only_ret {A} P (a : A) : throws_only P (mret a : C A).
Proof. by intros s e. Qed.

Lemma throws_only_say P l : throws_only P (say l).
Proof. by intros s e. Qed.

Lemma throws_only_bind {A B} P (m : C A) (k : A → C B) :
  throws_only P m → (∀ a, throws_only P (k a)) → throws_only P (m ≫= k).
Proof.
  intros Hm Hk s e. unfold mbind, C_bind.
  destruct (m s) as [[a|e'] s1] eqn:E.
  - apply Hk.
  - intros [= <-]. apply (Hm s). by rewrite E.
Qed.

Lemma throws_only_for_each {A} P (f : A → C unit) (l : list A) :
  (∀ x, throws_only P (f x)) → throws_only P (c_for_each f l).
Proof.
  intros Hf. induction l as [|x l IH]; cbn [c_for_each].
  - apply throws_only_ret.
  - apply throws_only_bind; [apply Hf|by intros _].
Qed.

Lemma throws_only_existsSync P p : throws_only P (lift (existsSync p)).
Proof. by intros s e. Qed.

Lemma throws_only_mkdirSync p :
  throws_only (λ e, is_fs_error e = true) (lift (mkdirSync p)).
Proof.
  intros s e. unfold lift, mkdirSync. cbn [fst].
  by destruct (Fs.mkdir_p _ _).1; intros [= <-].
Qed.

Lemma throws_only_writeFileSync p c :
  throws_only (λ e, is_fs_error e = true) (lift (writeFileSync p c)).
Proof.
  intros s e. unfold lift, writeFileSync. cbn [fst].
  by destruct (Fs.write_file _ _ _).1; intros [= <-].
Qed.

Lemma throws_only_initTemplates cfg :
  throws_only (λ e, is_fs_error e = true) (initTemplates cfg).
Proof.
  unfold initTemplates.
  apply throws_only_bind; [apply throws_only_existsSync|intros found].
  apply throws_only_bind.
  - destruct found; cbn [negb]; [apply throws_only_ret|].
    apply throws_only_bind; [apply throws_only_mkdirSync|intros _].
    apply throws_only_say.
  - intros _. apply throws_only_for_each. intros entry. unfold initTemplate.
    apply throws_only_bind; [apply throws_only_existsSync|intros present].
    destruct present; cbn [negb]; [apply throws_only_ret|].
    apply throws_only_bind; [apply throws_only_writeFileSync|intros _].
    apply throws_only_say.
Qed.

(** X13: an exception leaves [main] in two ways only.  Under [init] it
    is the error of a failed [fs] call, which [initTemplates] does not
    catch.  Under [generate] and [batch] it is the [TypeError] of line 94,
    with the templates directory in place and a template whose name the
    exclusion table only inherits.  The help never ends in an exception.
    The exports of the configuration file are taken to have the types of
    the shipped ones. *)
Theorem main_throws_only args loaded s e :
  (main args loaded s).1 = Throw e →
  ((∃ names, args = "init" :: names) ∧ is_fs_error e = true) ∨
  ((∃ command names, args = command :: names ∧
                     (command = "generate" ∨ command = "batch")) ∧
   e = TypeError "excludeList.includes is not a function" ∧
   Fs.exists_ (s_fs s) (templatesDir (effective_config loaded (s_fs s)))
   = true ∧
   plain_keys (effective_config loaded (s_fs s)) = false).
Proof.
  rewrite main_effective. unfold dispatch.
  destruct args as [|command names]; [done|].
  destruct (String.eqb command "init") eqn:Hinit.
  { apply String.eqb_eq in Hinit as ->. intros Hthrow. left.
    split; [by eexists|].
    refine (throws_only_bind (λ e, is_fs_error e = true) _ _ _ _ _ e Hthrow);
      [apply throws_only_initTemplates|by intros _]. }
  assert (∀ m ms,
    (lift (generateModules (effective_config loaded (s_fs s))
             (Names (m :: ms)))
       (config_checked (config_lines loaded (s_fs s)) s)).1 = Throw e →
    e = TypeError "excludeList.includes is not a function" ∧
    Fs.exists_ (s_fs s) (templatesDir (effective_config loaded (s_fs s)))
    = true ∧
    plain_keys (effective_config loaded (s_fs s)) = false) as Hbatch.
  { intros m ms. rewrite lift_generateModules. cbn [config_checked s_fs].
    repeat case_match; by intros [= <-]. }
  destruct (String.eqb command "generate") eqn:Hgen.
  { apply String.eqb_eq in Hgen as ->.
    destruct names as [|m ms]; [done|]. cbn [length Nat.ltb Nat.leb].
    intros Hthrow%Hbatch. right. split; [|done]. eexists _, _. eauto. }
  destruct (String.eqb command "batch") eqn:Hbat; [|done].
  apply String.eqb_eq in Hbat as ->. unfold batch_modules.
  intros Hthrow%Hbatch. right. split; [|done]. eexists _, _. eauto.
Qed.

Lemma main_throws_only_witness :
  (main ["init"] (inl (ModuleError "Unexpected token"))
     (start example_fs_no_dir)).1
  = Throw (FsError Fs.ENOTDIR "open" "templates/module.stub") ∧
  (((∃ names, ["init"] = "init" :: names) ∧
    is_fs_error (FsError Fs.ENOTDIR "open" "templates/module.stub") = true) ∨
   ((∃ command names, ["init"] = command :: names ∧
                      (command = "generate" ∨ command = "batch")) ∧
    FsError Fs.ENOTDIR "open" "templates/module.stub"
    = TypeError "excludeList.includes is not a function" ∧
    Fs.exists_ (s_fs (start example_fs_no_dir))
      (templatesDir (effective_config (inl (ModuleError "Unexpected token"))
                       (s_fs (start example_fs_no_dir)))) = true ∧
    plain_keys (effective_config (inl (ModuleError "Unexpected token"))
                  (s_fs (start example_fs_no_dir))) = false)).
Proof.
  assert (Hthrow : (main ["init"] (inl (ModuleError "Unexpected token"))
                      (start example_fs_no_dir)).1
                   = Throw (FsError Fs.ENOTDIR "open" "templates/module.stub"))
    by (vm_compute; reflexivity).
  split; [exact Hthrow|].
  exact (main_throws_only _ _ _ _ Hthrow).
Defined.

(** ** Rendering the built-in stubs *)




(** ** The forms of a module name *)

Lemma lower_upper_char c : lower_char (upper_char c) = lower_char c.
Proof. destruct c as [[] [] [] [] [] [] [] []]; vm_compute; reflexivity. Qed.

Lemma upper_lower_char c : upper_char (lower_char c) = upper_char c.
Proof. destruct c as [[] [] [] [] [] [] [] []]; vm_compute; reflexivity. Qed.

Lemma lower_char_fixed c : is_upper c = false → lower_char c = c.
Proof. unfold lower_char. by intros ->. Qed.

Lemma toLowerCase_fixed s : no_upper s = true → toLowerCase s = s.
Proof.
  unfold toLowerCase. induction s as [|c r IH]; [done|].
  cbn [no_upper map_chars]. intros [Hc%negb_true_iff Hr]%andb_prop.
  by rewrite lower_char_fixed, IH.
Qed.

Lemma toLowerCase_toUpperCase s : toLowerCase (toUpperCase s) = toLowerCase s.
Proof.
  unfold toLowerCase, toUpperCase. induction s as [|c r IH]; [done|].
  cbn [map_chars]. by rewrite lower_upper_char, IH.
Qed.

(** X15: a module name of code units below 128 without capital letters
    is its own camel, kebab and snake form, so these three placeholders and
    the bare one all give the name as it was typed; the Pascal and
    upper-case forms are the name again once put in lower case. *)
Theorem variants_of_lowercase_name m :
  ascii_only m = true →
  no_upper m = true →
  variant P_camelModuleName m = m ∧
  variant P_module_kebab m = m ∧
  variant P_module_name m = m ∧
  toLowerCase (variant P_ModuleName m) = m ∧
  toLowerCase (variant P_MODULE_NAME m) = m.
Proof.
  intros _ Hm. cbn [variant].
  unfold toKebabCase, toSnakeCase.
  rewrite !(replace_case_boundary_no_upper _ m Hm).
  rewrite toLowerCase_toUpperCase, !(toLowerCase_fixed m Hm).
  destruct m as [|c r]; [done|].
  rewrite toCamelCase_cons, toPascalCase_cons.
  cbn [no_upper] in Hm. apply andb_prop in Hm as [Hc%negb_true_iff Hr].
  unfold toLowerCase. cbn [map_chars].
  fold (toLowerCase r). rewrite lower_upper_char, toLowerCase_fixed by done.
  by rewrite lower_char_fixed.
Qed.

Lemma variants_of_lowercase_name_witness :
  variant P_camelModuleName "order-items" = "order-items" ∧
  variant P_module_kebab "order-items" = "order-items" ∧
  variant P_module_name "order-items" = "order-items" ∧
  toLowerCase (variant P_ModuleName "order-items") = "order-items" ∧
  toLowerCase (variant P_MODULE_NAME "order-items") = "order-items".
Proof.
  apply (variants_of_lowercase_name "order-items"); reflexivity.
Defined.

(** X16: the Pascal and the camel form of a name of code units below 128
    differ from it in the case of the first letter at most: both have the
    rest of the name as it is, each is got from the other, and both have
    the upper-case form of the name. *)
Theorem pascal_camel_first_letter str :
  ascii_only str = true →
  slice1 (toPascalCase str) = slice1 str ∧
  slice1 (toCamelCase str) = slice1 str ∧
  toCamelCase (toPascalCase str) = toCamelCase str ∧
  toPascalCase (toCamelCase str) = toPascalCase str ∧
  toUpperCase (toPascalCase str) = toUpperCase str ∧
  toUpperCase (toCamelCase str) = toUpperCase str ∧
  ascii_only (toPascalCase str) = true ∧
  ascii_only (toCamelCase str) = true.
Proof.
  intros Hstr. destruct str as [|c r]; [done|].
  cbn [ascii_only] in Hstr. apply andb_prop in Hstr as [Hc Hr].
  rewrite !toPascalCase_cons, !toCamelCase_cons, !toPascalCase_cons.
  unfold toUpperCase. cbn [slice1 map_chars ascii_only].
  rewrite lower_upper_char, upper_lower_char, upper_char_idem.
  by rewrite upper_char_ascii, lower_char_ascii, Hr.
Qed.

Lemma pascal_camel_first_letter_witness :
  slice1 (toPascalCase "userProfile") = slice1 "userProfile" ∧
  slice1 (toCamelCase "userProfile") = slice1 "userProfile" ∧
  toCamelCase (toPascalCase "userProfile") = toCamelCase "userProfile" ∧
  toPascalCase (toCamelCase "userProfile") = toPascalCase "userProfile" ∧
  toUpperCase (toPascalCase "userProfile") = toUpperCase "userProfile" ∧
  toUpperCase (toCamelCase "userProfile") = toUpperCase "userProfile" ∧
  ascii_only (toPascalCase "userProfile") = true ∧
  ascii_only (toCamelCase "userProfile") = true.
Proof. apply (pascal_camel_first_letter "userProfile"). reflexivity. Defined.

(** ** What the console says about a unit *)

Lemma same_files_refl fs : same_files fs fs.
Proof. by intros key c. Qed.

Lemma mkdir_p_same_files fs dir : same_files fs (Fs.mkdir_p fs dir).2.
Proof.
  intros key c. split; [apply mkdir_p_files|].
  destruct (mkdir_p_extends fs dir) as [_ Hsub]. intros Hkey.
  by eapply lookup_weaken.
Qed.

Lemma write_file_failed fs p c code fs2 :
  Fs.write_file fs p c = (Some code, fs2) → fs2 = fs.
Proof.
  unfold Fs.write_file. intros Hwrite.
  repeat case_match; by simplify_eq.
Qed.

Lemma no_line_added {A} (l : list A) x : l = l ++ [x] → False.
Proof.
  intros Heq. apply (f_equal length) in Heq.
  rewrite length_app in Heq. cbn in Heq. lia.
Qed.

(** The three ways the [try] block can end *)
Lemma generateFile_try_cases cfg m t tc w :
  let r := generateFile_try cfg m t tc w in
  (∃ e, r.1 = Throw e ∧ w_console r.2 = w_console w ∧
        same_files (w_fs w) (w_fs r.2)) ∨
  (r.1 = Ok tt ∧
   w_console r.2 = w_console w ++ [LogSkipExists t (full_path cfg m tc)] ∧
   Fs.exists_ (w_fs r.2) (full_path cfg m tc) = true ∧
   same_files (w_fs w) (w_fs r.2)) ∨
  (r.1 = Ok tt ∧
   w_console r.2 = w_console w ++ [LogGenerated (full_path cfg m tc)] ∧
   Fs.exists_ (w_fs w) (full_path cfg m tc) = false ∧
   ∃ body,
     Fs.read_file (w_fs w) (template_path cfg t) = inr body ∧
     Fs.read_file (w_fs r.2) (full_path cfg m tc) = inr (render body m)).
Proof.
  intros r. subst r.
  destruct (Fs.exists_ (w_fs w) (template_path cfg t)) eqn:Hex.
  2: { left. unfold generateFile_try.
       rewrite (bind_throw _ _ _ _ _ (processTemplate_missing cfg m t w Hex)).
       eexists. split_and!; [done..|by apply same_files_refl]. }
  destruct (Fs.read_file (w_fs w) (template_path cfg t)) as [code|body]
    eqn:Hread.
  { left. destruct (processTemplate_unreadable cfg t m w code Hex Hread)
      as [e He].
    unfold generateFile_try. rewrite (bind_throw _ _ _ _ _ He).
    eexists. split_and!; [done..|by apply same_files_refl]. }
  pose proof (mkdir_p_same_files (w_fs w) (output_path cfg m tc)) as Hsame.
  pose proof (mkdir_p_extends (w_fs w) (output_path cfg m tc)) as Hext.
  destruct (Fs.mkdir_p (w_fs w) (output_path cfg m tc)) as [[code|] fs1]
    eqn:Hmk; cbn [snd] in Hsame, Hext.
  { left. rewrite (generateFile_try_found _ _ _ _ _ _ Hread).
    unfold mbind, M_bind, mkdirSync. rewrite w_fs_traced, w_fs_traced, Hmk.
    cbn [fst snd]. eexists. by split_and!. }
  destruct (Fs.exists_ fs1 (full_path cfg m tc)) eqn:Hfull.
  { right; left.
    rewrite (generateFile_try_present _ _ _ _ _ _ _ Hread Hmk Hfull).
    by split_and!. }
  destruct (Fs.write_file fs1 (full_path cfg m tc) (render body m))
    as [[code|] fs2] eqn:Hwrite.
  - left. apply write_file_failed in Hwrite as Hfs2. subst fs2.
    rewrite (generateFile_try_found _ _ _ _ _ _ Hread).
    erewrite bind_ok; [|by apply mkdirSync_ok].
    erewrite bind_ok; [|reflexivity]. cbn [w_fs with_fs traced].
    rewrite Hfull. unfold mbind, M_bind, writeFileSync.
    cbn [w_fs with_fs traced]. rewrite Hwrite. cbn [fst snd].
    eexists. by split_and!.
  - right; right.
    rewrite (generateFile_try_generated _ _ _ _ _ _ _ _ Hread Hmk Hfull Hwrite).
    cbn [fst snd w_fs w_console]. split_and!; [done..| |].
    + destruct (Fs.exists_ (w_fs w) (full_path cfg m tc)) eqn:Hbefore; [|done].
      by rewrite (extends_exists _ _ _ Hext Hbefore) in Hfull.
    + exists body. split; [done|].
      by apply (write_file_read_back _ _ _ _ Hfull Hwrite).
Qed.

Lemma generateFile_cases cfg m t tc w :
  let w' := after (generateFile cfg m t tc) w in
  (w_console w' = w_console w ∧ w_fs w' = w_fs w) ∨
  (∃ line, w_console w' = w_console w ++ [line] ∧
           (∀ p, line ≠ LogGenerated p) ∧
           same_files (w_fs w) (w_fs w')) ∨
  (w_console w' = w_console w ++ [LogGenerated (full_path cfg m tc)] ∧
   excluded cfg m t = false ∧
   Fs.exists_ (w_fs w) (full_path cfg m tc) = false ∧
   ∃ body,
     Fs.read_file (w_fs w) (template_path cfg t) = inr body ∧
     Fs.read_file (w_fs w') (full_path cfg m tc) = inr (render body m)).
Proof.
  intros w'. subst w'.
  destruct (excluded cfg m t) eqn:Hexcl.
  { destruct (generateFile_stopped cfg m t tc w Hexcl) as [Hfs [Hcon|Hcon]];
      [by left|].
    right; left. eexists. split_and!; [done..|]. rewrite Hfs.
    by apply same_files_refl. }
  right. unfold after.
  rewrite (generateFile_not_excluded _ _ _ _ _ Hexcl). unfold try_catch.
  destruct (generateFile_try_cases cfg m t tc w)
    as [(e & Hr & Hcon & Hfs)|[(Hr & Hcon & _ & Hfs)|(Hr & Hcon & Hrest)]];
    destruct (generateFile_try cfg m t tc w) as [[[]|e'] w1];
    cbn [fst snd] in *; try done.
  - left. eexists. cbn [console snd w_console w_fs]. rewrite Hcon.
    by split_and!.
  - left. eexists. by split_and!.
  - by right.
Qed.

(** X17: the line [Generated: p] is true: when a unit prints it, [p] is
    the unit's destination, nothing was at [p] before, the template was
    read, and the file at [p] now holds the template's body rendered for
    the module. *)
Theorem generated_line_is_true cfg m t tc w p :
  w_console (after (generateFile cfg m t tc) w)
  = w_console w ++ [LogGenerated p] →
  p = full_path cfg m tc ∧
  excluded cfg m t = false ∧
  Fs.exists_ (w_fs w) p = false ∧
  ∃ body,
    Fs.read_file (w_fs w) (template_path cfg t) = inr body ∧
    Fs.read_file (w_fs (after (generateFile cfg m t tc) w)) p
    = inr (render body m).
Proof.
  intros Hline.
  destruct (generateFile_cases cfg m t tc w)
    as [[Hcon _]|[(line & Hcon & Hother & _)|(Hcon & Hrest)]].
  - rewrite Hcon in Hline. by apply no_line_added in Hline.
  - rewrite Hcon in Hline. apply app_inv_head in Hline as [= ->].
    by destruct (Hother p).
  - rewrite Hcon in Hline. by apply app_inv_head in Hline as [= <-].
Qed.

Lemma generated_line_is_true_witness :
  "src/modules/userProfile/userProfile.module.ts"
  = full_path default_config "userProfile" module_template ∧
  excluded default_config "userProfile" "module" = false ∧
  Fs.exists_ (w_fs (fresh example_fs))
    "src/modules/userProfile/userProfile.module.ts" = false ∧
  ∃ body,
    Fs.read_file (w_fs (fresh example_fs))
      (template_path default_config "module") = inr body ∧
    Fs.read_file
      (w_fs (after (generateFile default_config "userProfile" "module"
                      module_template) (fresh example_fs)))
      "src/modules/userProfile/userProfile.module.ts"
    = inr (render body "userProfile").
Proof.
  apply (generated_line_is_true default_config "userProfile" "module"
           module_template (fresh example_fs)).
  vm_compute. reflexivity.
Defined.

(** X18: a unit that prints any other line than [Generated] has written
    no file: the regular files of the tree and their contents are the same
    before and after it, whatever directories it made. *)
Theorem other_lines_write_nothing cfg m t tc w line :
  w_console (after (generateFile cfg m t tc) w) = w_console w ++ [line] →
  (∀ p, line ≠ LogGenerated p) →
  same_files (w_fs w) (w_fs (after (generateFile cfg m t tc) w)).
Proof.
  intros Hline Hother.
  destruct (generateFile_cases cfg m t tc w)
    as [[Hcon Hfs]|[(line' & Hcon & _ & Hsame)|(Hcon & _)]]; [|done|].
  { rewrite Hfs. apply same_files_refl. }
  rewrite Hcon in Hline. apply app_inv_head in Hline as [= <-].
  by destruct (Hother (full_path cfg m tc)).
Qed.

Lemma other_lines_write_nothing_witness :
  same_files (w_fs (fresh example_fs_rerun))
    (w_fs (after (generateFile default_config "users" "module"
                    module_template) (fresh example_fs_rerun))).
Proof.
  apply (other_lines_write_nothing default_config "users" "module"
           module_template (fresh example_fs_rerun)
           (LogSkipExists "module" "src/modules/users/users.module.ts")).
  - vm_compute. reflexivity.
  - intros p. discriminate.
Defined.

(** ** What the console says about a batch *)

Lemma generated_by_extends cfg names fs fs' p :
  extends fs fs' → generated_by cfg names fs p → generated_by cfg names fs' p.
Proof.
  intros Hext (m & t & tc & body & Hm & Ht & Hp & Htpl & Hfile).
  exists m, t, tc, body. split_and!; [done..| |]; by eapply extends_read_file.
Qed.

Lemma after_bind {A B} (m : M A) (k : A → M B) w :
  after (m ≫= k) w
  = match m w with
    | (Ok a, w1) => after (k a) w1
    | (Throw _, w1) => w1
    end.
Proof. unfold after, mbind, M_bind. by destruct (m w) as [[a|e] w1]. Qed.

Lemma after_then_ret {A B} (m : M A) (b : B) w :
  after (m ≫= λ _, mret b) w = after m w.
Proof. rewrite after_bind. unfold after. by destruct (m w) as [[a|e] w1]. Qed.

(** What every item keeps, the loop keeps, wherever it ends. *)
Lemma for_each_invariant {A} (f : A → M unit) (I : World → Prop)
  (l : list A) :
  (∀ x w, x ∈ l → I w → I (after (f x) w)) →
  ∀ w, I w → I (after (for_each f l) w).
Proof.
  induction l as [|x l IH]; intros Hstep w Hw; [done|].
  cbn [for_each]. rewrite after_bind.
  pose proof (Hstep x w (list_elem_of_here _ _) Hw) as Hx. unfold after in Hx.
  destruct (f x w) as [[[]|e] w1]; cbn [snd] in Hx; [|done].
  apply IH; [|done]. intros y w' Hy. apply Hstep. by apply list_elem_of_further.
Qed.

(** X19: at the end of a batch every line [Generated: p] it printed is
    true of the tree it leaves: [p] is the destination of a unit of the
    batch and holds the unit's template, as the tree has it, rendered for
    the unit's module; no later unit of the batch has changed or removed
    it. *)
Theorem batch_generated_lines cfg names w :
  ∃ lines,
    w_console (after (generateModules cfg names) w) = w_console w ++ lines ∧
    ∀ p, LogGenerated p ∈ lines →
         generated_by cfg names (w_fs (after (generateModules cfg names) w)) p.
Proof.
  set (I := λ w' : World,
    ∃ lines, w_console w' = w_console w ++ lines ∧
             ∀ p, LogGenerated p ∈ lines →
                  generated_by cfg names (w_fs w') p).
  change (I (after (generateModules cfg names) w)).
  assert (I w) as Hw.
  { exists []. rewrite app_nil_r. split; [done|]. by intros p ?%elem_of_nil. }
  assert (∀ l w', (∀ p, l ≠ LogGenerated p) → I w' → I (logged l w'))
    as Hlogged.
  { intros l w' Hl (lines & Hlines & Htrue). exists (lines ++ [l]). cbn.
    rewrite Hlines, <- (assoc_L (++)). split; [done|].
    intros p [Hp|Hp%list_elem_of_singleton]%elem_of_app; [by apply Htrue|].
    by destruct (Hl p). }
  unfold generateModules. rewrite after_bind. unfold existsSync at 1.
  assert (I (traced (EvExists (templatesDir cfg)) w)) as Hw1 by exact Hw.
  destruct (Fs.exists_ (w_fs w) (templatesDir cfg)); cbn [negb].
  2: { rewrite after_bind. unfold console at 1.
       by apply (Hlogged (ErrTemplatesDirNotFound (templatesDir cfg))). }
  rewrite after_then_ret.
  apply (for_each_invariant (generateModule cfg) I); [|done].
  change (match names with Names l => l | OneName s => [s] end)
    with (module_list names).
  intros m w1' Hm Hinv. unfold generateModule. rewrite after_bind.
  unfold console at 1.
  apply (for_each_invariant
           (λ entry, generateFile cfg m entry.1 entry.2) I);
    [|by apply (Hlogged (LogGeneratingModule m))].
  intros [t tc] w2 Hin (lines2 & Hlines2 & Htrue2). cbn [fst snd].
  pose proof (grows_generateFile cfg m t tc w2) as Hext.
  destruct (generateFile_cases cfg m t tc w2)
    as [[Hcon Hfs]|[(line & Hcon & Hother & _)|
                    (Hcon & _ & _ & body & Htpl & Hfile)]].
  - exists lines2. rewrite Hcon. split; [done|].
    intros p Hp. eapply generated_by_extends; [done|]. by apply Htrue2.
  - exists (lines2 ++ [line]). rewrite Hcon, Hlines2, <- (assoc_L (++)).
    split; [done|].
    intros p [Hp|Hp%list_elem_of_singleton]%elem_of_app.
    + eapply generated_by_extends; [done|]. by apply Htrue2.
    + subst line. by destruct (Hother p).
  - exists (lines2 ++ [LogGenerated (full_path cfg m tc)]).
    rewrite Hcon, Hlines2, <- (assoc_L (++)). split; [done|].
    intros p [Hp|[= ->]%list_elem_of_singleton]%elem_of_app.
    + eapply generated_by_extends; [done|]. by apply Htrue2.
    + exists m, t, tc, body. split_and!; [done..| |done].
      by eapply extends_read_file.
Qed.

(** ** The configuration file of the repository *)

Lemma merged_shipped_config : merged_config shipped_config = default_config.
Proof. reflexivity. Qed.

(** X20: the configuration file the repository ships changes nothing: it
    gives every property the value the constructor gives it, so with this
    file in place [main] runs every command under the built-in
    configuration, and the file's [batchModules] is the list that [batch]
    has of its own. *)
Theorem main_shipped_config args s :
  Fs.exists_ (s_fs s) "./generator.config.js" = true →
  main args (inr shipped_config) s
  = dispatch default_config args
      (config_checked [Engine (LogLoadedConfig "./generator.config.js")] s) ∧
  u_batchModules shipped_config = Some batch_modules.
Proof.
  intros Hex. split; [|done].
  by rewrite (main_loaded _ _ _ Hex), merged_shipped_config.
Qed.

Lemma main_shipped_config_witness :
  main ["batch"] (inr shipped_config) (start example_fs)
  = dispatch default_config ["batch"]
      (config_checked [Engine (LogLoadedConfig "./generator.config.js")]
         (start example_fs)) ∧
  u_batchModules shipped_config = Some batch_modules.
Proof.
  apply (main_shipped_config ["batch"] (start example_fs)).
  vm_compute. reflexivity.
Defined.

(** ** The batch precondition and the exclusion test, where line 94 returns *)



(** X22: for a template name that has an entry of its own in the
    exclusion table, or that is not the name of a property of
    [Object.prototype], the test of line 94 is true exactly when the entry
    exists and contains the module, in which case [shouldExclude] returns
    [true] itself; without an entry [shouldExclude] returns [undefined]
    and the test is false for every module. *)
Theorem excluded_iff_listed cfg m t :
  plain_key cfg t = true →
  (excluded cfg m t = true ↔
     ∃ l : list string, exclusions cfg !! t = Some l ∧ m ∈ l) ∧
  (shouldExclude cfg m t = Ok (JsBool true) ↔ excluded cfg m t = true) ∧
  (exclusions cfg !! t = None →
   shouldExclude cfg m t = Ok JsUndefined ∧ excluded cfg m t = false).
Proof.
  intros Ht. split; [by apply excluded_plain_iff|].
  unfold excluded. rewrite (shouldExclude_plain _ _ _ Ht).
  destruct (exclusions cfg !! t) as [l|] eqn:Hl; cbn [to_boolean].
  - split; [|done]. split; [by intros [= ->]|by intros ->].
  - done.
Qed.

Lemma excluded_iff_listed_witness :
  excluded default_config "auth" "module" = false ∧
  excluded default_config "auth" "schema" = true ∧
  shouldExclude default_config "users" "schema" = Ok (JsBool false).
Proof.
  split_and!.
  - apply (proj2 (proj2 (excluded_iff_listed default_config "auth" "module"
                           eq_refl)) eq_refl).
  - apply (proj1 (excluded_iff_listed default_config "auth" "schema" eq_refl)).
    exists ["auth"; "sidebar"]. split; [reflexivity|]. left.
  - reflexivity.
Defined.
